(** * Inventory API (server.js): document store, exclusive transactions,
      audit trail

    A shallow embedding of [server.js]: the JSON document kept in
    [data.json], [loadDb] / [saveDb], the [withDb] transaction wrapper,
    the three mutating routes (POST, PATCH and DELETE on
    [/api/v1/inventory]), the read routes and [requireAuth], and of the
    script that sets up the store; followed by the properties of the
    audit trail and of the item life cycle that the specification
    states, and by further properties of the code. *)

From Stdlib Require Import Floats.
From stdpp Require Import gmap strings list pretty sorting.

Local Open Scope string_scope.
Local Open Scope list_scope.

(** ** JavaScript values *)

(** Numbers are IEEE 754 doubles, as in JavaScript.  Objects and arrays
    that the program never mutates after building them are immutable
    trees ([VObj], [VArr]); an object that is mutated in place (an
    inventory item) lives in a heap and is named by a [VRef], so that two
    places holding the same item see each other's writes. *)
#[warnings="-register-all"]
Inductive value : Type :=
| VUndefined
| VNull
| VBool (b : bool)
| VNum (n : float)
| VStr (s : string)
| VArr (xs : list value)
| VObj (kvs : list (string * value))
| VRef (l : nat).

(** Own enumerable properties, in the order of [Object.keys]: array
    indices first, in ascending order, then the other keys in the order
    of their creation.  The program itself creates no property whose key
    is an array index; a request body may have some, and [Object.assign]
    puts them in their place. *)
Abbreviation object := (list (string * value)).
Abbreviation heap := (list object).

#[global] Instance value_inhabited : Inhabited value := populate VUndefined.

(** Induction over values that reaches below arrays and objects. *)
Section value_induction.
Variable P : value → Prop.
Hypothesis Hundef : P VUndefined.
Hypothesis Hnull : P VNull.
Hypothesis Hbool : ∀ b, P (VBool b).
Hypothesis Hnum : ∀ n, P (VNum n).
Hypothesis Hstr : ∀ s, P (VStr s).
Hypothesis Harr : ∀ xs, Forall P xs → P (VArr xs).
Hypothesis Hobj : ∀ kvs, Forall (λ kv, P kv.2) kvs → P (VObj kvs).
Hypothesis Href : ∀ l, P (VRef l).

Fixpoint value_deep_ind (v : value) : P v :=
  match v with
  | VUndefined => Hundef
  | VNull => Hnull
  | VBool b => Hbool b
  | VNum n => Hnum n
  | VStr s => Hstr s
  | VArr xs =>
      Harr xs ((fix elems (l : list value) : Forall P l :=
                  match l with
                  | [] => @List.Forall_nil _ P
                  | x :: l' =>
                      @List.Forall_cons _ P x l' (value_deep_ind x) (elems l')
                  end) xs)
  | VObj kvs =>
      Hobj kvs ((fix fields (l : list (string * value))
                   : Forall (λ kv, P kv.2) l :=
                   match l with
                   | [] => @List.Forall_nil _ _
                   | kv :: l' =>
                       @List.Forall_cons _ (λ kv, P kv.2) kv l'
                         (value_deep_ind kv.2) (fields l')
                   end) kvs)
  | VRef l => Href l
  end.
End value_induction.

(** *** Property access *)

(** [o[k]]: the value of an own property, [undefined] when absent. *)
Fixpoint get (k : string) (o : object) : value :=
  match o with
  | [] => VUndefined
  | (k', v) :: o' => if String.eqb k k' then v else get k o'
  end.

(** [k in o] *)
Fixpoint has (k : string) (o : object) : bool :=
  match o with
  | [] => false
  | (k', _) :: o' => String.eqb k k' || has k o'
  end.

(** [o[k] = v]: overwrite in place, or add the property last. *)
Fixpoint set (k : string) (v : value) (o : object) : object :=
  match o with
  | [] => [(k, v)]
  | (k', v') :: o' =>
      if String.eqb k k' then (k, v) :: o' else (k', v') :: set k v o'
  end.

(** [Object.keys(o)] *)
Definition keys (o : object) : list string := map fst o.

(** The value of a decimal digit. *)
Definition digit (c : Ascii.ascii) : option N :=
  let n := Ascii.N_of_ascii c in
  if ((48 <=? n) && (n <=? 57))%N then Some (n - 48)%N else None.

(** The number that [acc] followed by the decimal digits [s] writes. *)
Fixpoint digits (s : string) (acc : N) : option N :=
  match s with
  | EmptyString => Some acc
  | String c s' => d ← digit c; digits s' (acc * 10 + d)%N
  end.

(** A key that is an array index: the decimal form, without leading
    zeros, of an integer below [2^32 - 1]. *)
Definition array_index (k : string) : option N :=
  match k with
  | EmptyString => None
  | String c s' =>
      if (Ascii.N_of_ascii c =? 48)%N && negb (String.eqb s' "") then None
      else n ← digits k 0; if (n <? 4294967295)%N then Some n else None
  end.

(** A new property whose key is the array index [n] goes before the
    first key that is no array index or a greater one. *)
Fixpoint add_index (n : N) (k : string) (v : value) (o : object) : object :=
  match o with
  | [] => [(k, v)]
  | (k', v') :: o' =>
      match array_index k' with
      | Some n' =>
          if (n' <? n)%N then (k', v') :: add_index n k v o' else (k, v) :: o
      | None => (k, v) :: o
      end
  end.

(** [o[k] = v] for a key other than [__proto__], which may be an array
    index: the property keeps its place if it is there, and is created
    at its place if not. *)
Definition assign (k : string) (v : value) (o : object) : object :=
  if has k o then set k v o
  else
    match array_index k with
    | Some n => add_index n k v o
    | None => set k v o
    end.

(** [Object.assign(target, src)] for a [target] that inherits from
    [Object.prototype]: every own property of [src] is assigned to
    [target], in the order of the keys of [src].  The assignment to the
    key [__proto__] runs the setter of [Object.prototype], which changes
    or keeps the prototype of [target] and creates no property; nothing
    the program does afterwards reads through the prototype
    ([JSON.stringify] writes own properties only, and the [toJSON] it
    looks for is a function, which no parsed body holds). *)
Definition Object_assign (target src : object) : object :=
  fold_left (λ t kv, if String.eqb kv.1 "__proto__" then t else assign kv.1 kv.2 t)
    src target.

(** [!!v] *)
Definition truthy (v : value) : bool :=
  match v with
  | VUndefined | VNull => false
  | VBool b => b
  | VNum n => negb (PrimFloat.is_zero n || PrimFloat.is_nan n)
  | VStr s => negb (String.eqb s "")
  | VArr _ | VObj _ | VRef _ => true
  end.

(** [a === b].  Two immutable trees stand for two different objects (they
    come from different [JSON.parse] calls: the stored document and the
    request body), so they are never identical. *)
Definition strict_equals (a b : value) : bool :=
  match a, b with
  | VUndefined, VUndefined => true
  | VNull, VNull => true
  | VBool x, VBool y => Bool.eqb x y
  | VNum x, VNum y => PrimFloat.eqb x y
  | VStr x, VStr y => String.eqb x y
  | VRef x, VRef y => Nat.eqb x y
  | _, _ => false
  end.

(** [x.k] on an arbitrary value, for the keys the program reads ([sku],
    [deleted_at], [item_id]): a [TypeError] ([None]) on [null] and
    [undefined], [undefined] on primitives and arrays, which have no such
    property. *)
Definition prop (h : heap) (x : value) (k : string) : option value :=
  match x with
  | VUndefined | VNull => None
  | VObj o => Some (get k o)
  | VRef l => o ← h !! l; Some (get k o)
  | VBool _ | VNum _ | VStr _ | VArr _ => Some VUndefined
  end.

(** ** JSON *)

(** What [JSON.parse] reads back from the text [JSON.stringify] wrote: a
    property holding [undefined] is dropped, [undefined] in an array
    becomes [null], [NaN] and the infinities become [null], and [-0] is
    written as [0]. *)
Definition json_number (n : float) : value :=
  if PrimFloat.is_nan n || PrimFloat.is_infinity n then VNull
  else if PrimFloat.is_zero n then VNum 0%float
  else VNum n.

Section stringify.
(** How a reference is written out. *)
Variable deref : nat → option value.

Fixpoint stringify_with (v : value) : option value :=
  match v with
  | VUndefined => None
  | VNull => Some VNull
  | VBool b => Some (VBool b)
  | VNum n => Some (json_number n)
  | VStr s => Some (VStr s)
  | VArr xs =>
      Some (VArr ((fix elems (l : list value) : list value :=
                     match l with
                     | [] => []
                     | x :: l' =>
                         default VNull (stringify_with x) :: elems l'
                     end) xs))
  | VObj kvs =>
      Some (VObj ((fix fields (l : list (string * value)) : object :=
                     match l with
                     | [] => []
                     | (k, x) :: l' =>
                         match stringify_with x with
                         | Some x' => (k, x') :: fields l'
                         | None => fields l'
                         end
                     end) kvs))
  | VRef l => deref l
  end.
End stringify.

(** An immutable tree on its own (a reference inside it has nothing to
    point to and is written like [undefined]). *)
Definition JSON_tree : value → option value := stringify_with (λ _, None).

(** [JSON.parse(JSON.stringify(v))] for a value whose references point
    into [h].  The objects of the heap hold immutable trees only: the
    program stores request data and strings in them, never a reference. *)
Definition JSON_roundtrip (h : heap) : value → option value :=
  stringify_with (λ l, o ← h !! l; JSON_tree (VObj o)).

(** The elements of a stringified array, the fields of a stringified
    object. *)
Definition json_elems (f : value → option value) (xs : list value) : list value :=
  map (λ x, default VNull (f x)) xs.

Fixpoint json_fields (f : value → option value) (kvs : object) : object :=
  match kvs with
  | [] => []
  | (k, x) :: kvs' =>
      match f x with
      | Some x' => (k, x') :: json_fields f kvs'
      | None => json_fields f kvs'
      end
  end.

(** A value that [JSON.stringify] and [JSON.parse] give back as it is: in
    it no [undefined], no reference, no [NaN], no infinity and no [-0].
    ([JSON.parse] can yield the last two, for [1e999] and [-0].) *)
Definition is_json (v : value) : Prop := JSON_tree v = Some v.

(** ** The host: built-ins, file system, clock and random source *)

(** The pieces of the JavaScript runtime whose results the program only
    passes along. *)
Class Host := {
  (** [new Date(t).toISOString()] for [t] milliseconds since the epoch *)
  toISOString : N → string;
  (** [Number(s)] for a string *)
  StringToNumber : string → float;
  (** [Number(v)] for an array or an object *)
  ObjectToNumber : value → float;
}.

(** [Number(v)] *)
Definition Number `{Host} (v : value) : float :=
  match v with
  | VUndefined => nan
  | VNull => 0%float
  | VBool true => 1%float
  | VBool false => 0%float
  | VNum n => n
  | VStr s => StringToNumber s
  | VArr _ | VObj _ | VRef _ => ObjectToNumber v
  end.

(** A file holds either text that [JSON.parse] accepts, kept as the value
    it parses to, or text that it rejects. *)
Inductive content : Type :=
| Json (doc : value)
| Garbage (raw : string).

Record world : Type := World {
  files : gmap string content;  (** the directory of [server.js] *)
  locked : bool;                (** [lock.locked] *)
  uuids : nat → string;         (** what the next calls of [randomUUID()] return *)
  clock : nat → N;              (** what the next readings of the clock return *)
}.

Definition set_files (f : gmap string content) (w : world) : world :=
  World f (locked w) (uuids w) (clock w).
Definition set_locked (b : bool) (w : world) : world :=
  World (files w) b (uuids w) (clock w).

(** The outcome of running a piece of the program: a value, an exception,
    or no outcome at all (a wait that nothing ends). *)
Inductive result (A : Type) : Type :=
| Ok (a : A)
| Throw
| Hang.
Arguments Ok {A} a.
Arguments Throw {A}.
Arguments Hang {A}.

Definition M (A : Type) : Type := world → result A * world.

#[global] Instance M_ret : MRet M := λ A a w, (Ok a, w).
#[global] Instance M_bind : MBind M := λ A B k m w,
  match m w with
  | (Ok a, w') => k a w'
  | (Throw, w') => (Throw, w')
  | (Hang, w') => (Hang, w')
  end.

Definition throw {A} : M A := λ w, (Throw, w).

(** An operation that raises a [TypeError] where it has no value. *)
Definition lift {A} (o : option A) : M A :=
  match o with
  | Some a => mret a
  | None => throw
  end.

(** [randomUUID()] *)
Definition randomUUID : M string := λ w,
  (Ok (uuids w 0), World (files w) (locked w) (λ n, uuids w (S n)) (clock w)).

(** [Date.now()] *)
Definition Date_now : M N := λ w,
  (Ok (clock w 0), World (files w) (locked w) (uuids w) (λ n, clock w (S n))).

(** [new Date().toISOString()] *)
Definition new_Date_toISOString `{Host} : M string :=
  t ← Date_now; mret (toISOString t).

(** ** The document store *)

(** [path.join(__dirname, 'data.json')], relative to [__dirname] *)
Definition DB_FILE : string := "data.json".

(** The loaded document: its root, and the heap holding the objects of
    [inventory_items], which the routes mutate in place. *)
Record database : Type := Database {
  root : value;
  store : heap;
}.

(** [{ users: [], inventory_items: [], inventory_audit: [], app_meta: {} }] *)
Definition empty_document : value :=
  VObj [("users", VArr []); ("inventory_items", VArr []);
        ("inventory_audit", VArr []); ("app_meta", VObj [])].

(** [JSON.parse] builds fresh objects, shared with nothing.  Those of
    [inventory_items] go to the heap. *)
Fixpoint thaw_items (xs : list value) (h : heap) : list value * heap :=
  match xs with
  | [] => ([], h)
  | VObj o :: xs' =>
      let '(ys, h') := thaw_items xs' (h ++ [o]) in (VRef (length h) :: ys, h')
  | x :: xs' =>
      let '(ys, h') := thaw_items xs' h in (x :: ys, h')
  end.

Definition thaw (doc : value) : database :=
  match doc with
  | VObj kvs =>
      match get "inventory_items" kvs with
      | VArr xs =>
          let '(ys, h) := thaw_items xs [] in
          Database (VObj (set "inventory_items" (VArr ys) kvs)) h
      | _ => Database doc []
      end
  | _ => Database doc []
  end.

(** [fs.existsSync(p)] *)
Definition existsSync (p : string) : M bool := λ w,
  (Ok (bool_decide (is_Some (files w !! p))), w).

(** [fs.readFileSync(p, 'utf8')]; a missing file raises. *)
Definition readFileSync (p : string) : M content := λ w,
  match files w !! p with
  | Some c => (Ok c, w)
  | None => (Throw, w)
  end.

(** [fs.renameSync(old, new)]; a missing file raises. *)
Definition renameSync (old new : string) : M () := λ w,
  match files w !! old with
  | Some c => (Ok (), set_files (<[new := c]> (delete old (files w))) w)
  | None => (Throw, w)
  end.

(** [fs.writeFileSync(p, text, 'utf8')] *)
Definition writeFileSync (p : string) (c : content) : M () := λ w,
  (Ok (), set_files (<[p := c]> (files w)) w).

(** [try { return JSON.parse(fs.readFileSync(..)) } catch (e) { handler }]:
    reading an existing file does not fail, so the handler runs exactly
    when the text does not parse. *)
Definition loadDb : M database :=
  there ← existsSync DB_FILE;
  if negb there then mret (thaw empty_document)
  else
    c ← readFileSync DB_FILE;
    match c with
    | Json doc => mret (thaw doc)
    | Garbage _ =>
        t ← Date_now;
        _ ← renameSync DB_FILE (DB_FILE +:+ ".corrupt." +:+ pretty t);
        mret (thaw empty_document)
    end.

(** [JSON.stringify] of [undefined] is [undefined], which
    [writeFileSync] rejects. *)
Definition saveDb (db : database) : M () :=
  match JSON_roundtrip (store db) (root db) with
  | Some doc => writeFileSync DB_FILE (Json doc)
  | None => throw
  end.

(** ** The transaction wrapper *)

(** [withDb(fn)] called while no other call is in flight.  The callback
    mutates the document it is given; here it returns the mutated
    document next to its result, and [withDb] hands both on, the caller
    needing the heap to write the result out.  With the slot taken and
    nobody to release it the loop never ends. *)
Definition withDb {A} (fn : database → M (A * database)) : M (A * database) := λ w,
  if locked w then (Hang, w)
  else
    let '(r, w') :=
      (db ← loadDb;
       '(r, db') ← fn db;
       _ ← saveDb db';
       mret (r, db')) (set_locked true w) in
    (r, set_locked false w').

(** ** Arrays of the document *)

Definition as_array (v : value) : option (list value) :=
  match v with
  | VArr xs => Some xs
  | _ => None
  end.

(** [xs.some(p)] and [xs.find(p)], where the predicate may raise. *)
Fixpoint Array_some (p : value → option bool) (xs : list value) : option bool :=
  match xs with
  | [] => Some false
  | x :: xs' => b ← p x; if b : bool then Some true else Array_some p xs'
  end.

Fixpoint Array_find (p : value → option bool) (xs : list value) : option value :=
  match xs with
  | [] => Some VUndefined
  | x :: xs' => b ← p x; if b : bool then Some x else Array_find p xs'
  end.

(** [db[k]], and what looking up a method on it does: a [TypeError] on
    [undefined] and [null], before the arguments of the call are
    evaluated. *)
Definition member (db : database) (k : string) : option value :=
  a ← prop (store db) (root db) k;
  match a with
  | VUndefined | VNull => None
  | _ => Some a
  end.

(** [a.push(x)] and [a.unshift(x)] for [a = db[k]]: only an array has
    these methods.  The array is owned by the document alone, so the
    update is written back into the root. *)
Definition Array_push (k : string) (a x : value) (db : database) : option database :=
  match root db, a with
  | VObj kvs, VArr xs => Some (Database (VObj (set k (VArr (xs ++ [x])) kvs)) (store db))
  | _, _ => None
  end.

Definition Array_unshift (k : string) (a x : value) (db : database) : option database :=
  match root db, a with
  | VObj kvs, VArr xs => Some (Database (VObj (set k (VArr (x :: xs)) kvs)) (store db))
  | _, _ => None
  end.

(** ** The routes *)

Record response : Type := Response {
  status : nat;
  body : value;
}.

(** [res.status(..).json(body)]: the body as the client reads it. *)
Definition res_json (h : heap) (r : response) : response :=
  Response (status r) (default VUndefined (JSON_roundtrip h (body r))).

Definition findItem (db : database) (id : string) : option value :=
  items ← prop (store db) (root db) "inventory_items" ≫= as_array;
  Array_find (λ i, iid ← prop (store db) i "item_id";
                   Some (strict_equals iid (VStr id))) items.

(** *** POST /api/v1/inventory *)

(** [x => x.sku === sku && !x.deleted_at] *)
Definition same_active_sku (h : heap) (sku x : value) : option bool :=
  s ← prop h x "sku";
  if strict_equals s sku then d ← prop h x "deleted_at"; Some (negb (truthy d))
  else Some false.

(** The record built by [Object.assign({ item_id, created_at, ... }, req.body)]
    and the entry put in front of [inventory_audit]. *)
Definition new_item (id created_at updated_at user_id : string) (req_body : object) : object :=
  Object_assign
    [("item_id", VStr id); ("created_at", VStr created_at);
     ("updated_at", VStr updated_at); ("deleted_at", VNull);
     ("created_by", VStr user_id); ("updated_by", VStr user_id)]
    req_body.

Definition audit_entry (audit_id : string) (item_id : value)
    (operation changed_by changed_at : string) (diff full_record : value) : value :=
  VObj [("audit_id", VStr audit_id); ("item_id", item_id);
        ("operation", VStr operation); ("changed_by", VStr changed_by);
        ("changed_at", VStr changed_at); ("diff", diff);
        ("full_record", full_record)].

Definition duplicate_sku : response :=
  Response 409 (VObj [("code", VStr "DUPLICATE_SKU");
                      ("message", VStr "SKU already exists")]).

Definition post_inventory_fn `{Host} (user_id : string) (req_body : object)
    (sku : value) (db : database) : M (response * database) :=
  items ← lift (prop (store db) (root db) "inventory_items" ≫= as_array);
  dup ← lift (Array_some (same_active_sku (store db) sku) items);
  if dup : bool then mret (duplicate_sku, db)
  else
    id ← randomUUID;
    created_at ← new_Date_toISOString;
    updated_at ← new_Date_toISOString;
    let rec := new_item id created_at updated_at user_id req_body in
    let l := length (store db) in
    let db1 := Database (root db) (store db ++ [rec]) in
    a ← lift (member db1 "inventory_items");
    db2 ← lift (Array_push "inventory_items" a (VRef l) db1);
    a ← lift (member db2 "inventory_audit");
    audit_id ← randomUUID;
    changed_at ← new_Date_toISOString;
    db3 ← lift (Array_unshift "inventory_audit" a
                  (audit_entry audit_id (VStr id) "CREATE" user_id changed_at
                     VNull (VRef l)) db2);
    mret (Response 201 (VRef l), db3).

Definition validation : response :=
  Response 400 (VObj [("code", VStr "VALIDATION");
                      ("message", VStr "sku & product_name required")]).

Definition post_inventory `{Host} (user_id : string) (req_body : object) : M response :=
  let sku := get "sku" req_body in
  let product_name := get "product_name" req_body in
  if negb (truthy sku) || negb (truthy product_name) then
    mret (res_json [] validation)
  else
    '(result, db) ← withDb (post_inventory_fn user_id req_body sku);
    mret (res_json (store db) result).

(** *** PATCH /api/v1/inventory/:id *)

Definition allowed : list string :=
  ["product_name"; "category"; "quantity"; "supplier"; "price"; "location";
   "metadata"].

(** [for (const k of allowed) if (k in req.body) updates[k] = req.body[k]] *)
Definition collect_updates (req_body : object) : object :=
  fold_left (λ updates k,
               if has k req_body then set k (get k req_body) updates else updates)
    allowed [].

(** [(k==='quantity'||k==='price') ? (v==null ? null : Number(v)) : v] *)
Definition coerce `{Host} (k : string) (v : value) : value :=
  if String.eqb k "quantity" || String.eqb k "price" then
    match v with
    | VUndefined | VNull => VNull
    | _ => VNum (Number v)
    end
  else v.

(** [for (const k in updates) ex[k] = ...] *)
Definition apply_updates `{Host} (updates ex : object) : object :=
  fold_left (λ o kv, set kv.1 (coerce kv.1 kv.2) o) updates ex.

(** [for (const k in updates) diff[k] = { before: before[k], after: ex[k] }] *)
Definition make_diff (updates before ex : object) : object :=
  fold_left (λ d kv, set kv.1 (VObj [("before", get kv.1 before);
                                     ("after", get kv.1 ex)]) d)
    updates [].

Definition not_found : response := Response 404 (VObj [("code", VStr "NOT_FOUND")]).

(** The item after [ex[k] = ...; ex.updated_at = ...; ex.updated_by = ...] *)
Definition patched_item `{Host} (updates : object) (updated_at user_id : string)
    (ex : object) : object :=
  set "updated_by" (VStr user_id)
    (set "updated_at" (VStr updated_at) (apply_updates updates ex)).

Definition patch_inventory_fn `{Host} (user_id id : string) (updates : object)
    (db : database) : M (response * database) :=
  ex ← lift (findItem db id);
  if negb (truthy ex) then mret (not_found, db)
  else
    match ex with
    | VRef l =>
        before ← lift (store db !! l);
        updated_at ← new_Date_toISOString;
        let o := patched_item updates updated_at user_id before in
        let diff := make_diff updates before o in
        let db1 := Database (root db) (<[l := o]> (store db)) in
        a ← lift (member db1 "inventory_audit");
        audit_id ← randomUUID;
        changed_at ← new_Date_toISOString;
        db2 ← lift (Array_unshift "inventory_audit" a
                      (audit_entry audit_id (get "item_id" o) "UPDATE" user_id
                         changed_at (VObj diff) (VObj o)) db1);
        mret (Response 200 (VRef l), db2)
    | _ => throw  (* [find] returns [undefined] or an object of the array *)
    end.

Definition no_updates : response :=
  Response 400 (VObj [("code", VStr "NO_UPDATES"); ("message", VStr "No valid fields")]).

Definition patch_inventory `{Host} (user_id id : string) (req_body : object) : M response :=
  let updates := collect_updates req_body in
  if Nat.eqb (length (keys updates)) 0 then mret (res_json [] no_updates)
  else
    '(r, db) ← withDb (patch_inventory_fn user_id id updates);
    mret (res_json (store db) r).

(** *** DELETE /api/v1/inventory/:id *)

(** The item after
    [ex.deleted_at = now; ex.updated_at = ex.deleted_at; ex.updated_by = ...] *)
Definition deleted_item (deleted_at user_id : string) (ex : object) : object :=
  let o := set "deleted_at" (VStr deleted_at) ex in
  let o := set "updated_at" (get "deleted_at" o) o in
  set "updated_by" (VStr user_id) o.

Definition delete_inventory_fn `{Host} (user_id id : string)
    (db : database) : M (response * database) :=
  ex ← lift (findItem db id);
  if negb (truthy ex) then mret (not_found, db)
  else
    match ex with
    | VRef l =>
        o ← lift (store db !! l);
        let before := get "deleted_at" o in
        deleted_at ← new_Date_toISOString;
        let o := deleted_item deleted_at user_id o in
        let db1 := Database (root db) (<[l := o]> (store db)) in
        a ← lift (member db1 "inventory_audit");
        audit_id ← randomUUID;
        changed_at ← new_Date_toISOString;
        db2 ← lift (Array_unshift "inventory_audit" a
                      (audit_entry audit_id (get "item_id" o) "DELETE" user_id
                         changed_at
                         (VObj [("deleted_at",
                                 VObj [("before", before);
                                       ("after", get "deleted_at" o)])])
                         (VObj o)) db1);
        mret (Response 200 (VObj [("ok", VBool true)]), db2)
    | _ => throw  (* as in PATCH *)
    end.

Definition delete_inventory `{Host} (user_id id : string) : M response :=
  '(r, db) ← withDb (delete_inventory_fn user_id id);
  mret (res_json (store db) r).

(** *** Requests *)

(** A request that passed [requireAuth], which sets [req.user.id]. *)
Inductive request : Type :=
| POST (req_body : object)
| PATCH (id : string) (req_body : object)
| DELETE (id : string).

Definition handle `{Host} (user_id : string) (rq : request) : M response :=
  match rq with
  | POST req_body => post_inventory user_id req_body
  | PATCH id req_body => patch_inventory user_id id req_body
  | DELETE id => delete_inventory user_id id
  end.

(** [requireAuth] sets [req.user = { id: 'admin' }]. *)
Definition admin : string := "admin".

(** The state of the world after a sequence of requests, whatever their
    outcome. *)
Definition serve `{Host} (user_id : string) (rqs : list request) (w : world) : world :=
  fold_left (λ w rq, (handle user_id rq w).2) rqs w.

(** The document a reader finds in the store: what [loadDb] parses. *)
Definition persisted (w : world) : value :=
  match files w !! DB_FILE with
  | Some (Json doc) => doc
  | _ => empty_document
  end.

(** ** Calls of [withDb] in flight together *)

(** JavaScript runs a call from one [await] to the next without
    interruption; at an [await] any other call may run.  A call of
    [withDb] has two such points: the sleep of the waiting loop, and
    [await fn(db)].  The callback of a call: *)
Definition callback : Type := database → M (response * database).

(** Where a call stands. *)
Inductive phase : Type :=
| Testing                                  (* about to read [lock.locked] *)
| Sleeping                                 (* at [await new Promise(...)] *)
| Holding (r : response) (db : database)   (* slot taken, at [await fn(db)] *)
| Stuck                                    (* slot taken, [fn] never returns *)
| Returned (r : result response).          (* [finally] has run *)

Record call : Type := Call {
  fn_of : callback;
  phase_of : phase;
}.

Record system : Type := System {
  env : world;
  calls : list call;
}.

(** Between its load and its save. *)
Definition in_slot (c : call) : bool :=
  match phase_of c with
  | Holding _ _ | Stuck => true
  | _ => false
  end.

(** From the test of the loop to the next [await]: sleep if the slot is
    taken; otherwise take it, load and call [fn].  An exception goes
    through [finally]. *)
Definition enter (fn : callback) (w : world) : phase * world :=
  if locked w then (Sleeping, w)
  else
    match (db ← loadDb; fn db) (set_locked true w) with
    | (Ok (r, db'), w') => (Holding r db', w')
    | (Throw, w') => (Returned Throw, set_locked false w')
    | (Hang, w') => (Stuck, w')
    end.

(** From [await fn(db)] to the end: save, then [finally]. *)
Definition leave (r : response) (db : database) (w : world) : phase * world :=
  match saveDb db w with
  | (Ok _, w') => (Returned (Ok r), set_locked false w')
  | (Throw, w') => (Returned Throw, set_locked false w')
  | (Hang, w') => (Returned Hang, set_locked false w')
  end.

(** A callback that leaves [lock] alone, as those of the three routes
    do. *)
Definition keeps_lock (fn : callback) : Prop :=
  ∀ db w, locked (fn db w).2 = locked w.

Inductive step : system → system → Prop :=
| step_arrive s fn :
    keeps_lock fn →
    step s (System (env s) (calls s ++ [Call fn Testing]))
| step_test s i fn :
    calls s !! i = Some (Call fn Testing) →
    step s (System (enter fn (env s)).2
              (<[i := Call fn (enter fn (env s)).1]> (calls s)))
| step_wake s i fn :
    calls s !! i = Some (Call fn Sleeping) →
    step s (System (env s) (<[i := Call fn Testing]> (calls s)))
| step_resume s i fn r db :
    calls s !! i = Some (Call fn (Holding r db)) →
    step s (System (leave r db (env s)).2
              (<[i := Call fn (leave r db (env s)).1]> (calls s))).

(** ** Authentication *)

(** [s.split(sep)] for a separator of one character: the pieces between
    the separators, empty ones included. *)
Fixpoint String_split (sep : Ascii.ascii) (s : string) : list string :=
  match s with
  | EmptyString => [""]
  | String c s' =>
      if Ascii.eqb c sep then "" :: String_split sep s'
      else
        match String_split sep s' with
        | p :: ps => String c p :: ps
        | [] => [String c ""]
        end
  end.

(** [p[i]] for an array of strings *)
Definition at_index (p : list string) (i : nat) : value :=
  match p !! i with
  | Some s => VStr s
  | None => VUndefined
  end.

Definition no_auth : response :=
  Response 401 (VObj [("code", VStr "NO_AUTH");
                      ("message", VStr "Missing Authorization header")]).

Definition forbidden : response :=
  Response 403 (VObj [("code", VStr "FORBIDDEN"); ("message", VStr "Invalid token")]).

(** [requireAuth(req, res, next)], given the value of [ADMIN_TOKEN] and
    [req.headers['authorization']] ([None] when the header was not
    sent): it answers itself, or sets [req.user = { id: 'admin' }] and
    calls [next], which here gets [req.user.id]. *)
Definition requireAuth (ADMIN_TOKEN : value) (authorization : option string)
    : response + string :=
  match authorization with
  | None => inl no_auth
  | Some a =>
      if negb (truthy (VStr a)) then inl no_auth
      else
        let p := String_split Ascii.Space a in
        if negb (Nat.eqb (length p) 2)
           || negb (strict_equals (at_index p 0) (VStr "Bearer"))
           || negb (strict_equals (at_index p 1) ADMIN_TOKEN)
        then inl forbidden
        else inr admin
  end.

(** [app.METHOD(path, requireAuth, handler)] *)
Definition guarded (ADMIN_TOKEN : value) (authorization : option string)
    (handler : string → M response) : M response :=
  match requireAuth ADMIN_TOKEN authorization with
  | inl r => mret (res_json [] r)
  | inr user_id => handler user_id
  end.

(** [process.env.ADMIN_TOKEN || (loadDb().app_meta &&
    loadDb().app_meta.ADMIN_TOKEN) || 'dev-token'], evaluated once when
    the server starts; [env] is [process.env.ADMIN_TOKEN]. *)
Definition ADMIN_TOKEN (env : option string) : M value :=
  let e := match env with Some s => VStr s | None => VUndefined end in
  if truthy e then mret e
  else
    db ← loadDb;
    m ← lift (prop (store db) (root db) "app_meta");
    stored ← (if truthy m then
                db' ← loadDb;
                m' ← lift (prop (store db') (root db') "app_meta");
                lift (prop (store db') m' "ADMIN_TOKEN")
              else mret m);
    if truthy stored then mret stored else mret (VStr "dev-token").

(** ** The read routes *)

(** [xs.filter(p)], where the predicate may raise. *)
Fixpoint Array_filter (p : value → option bool) (xs : list value) : option (list value) :=
  match xs with
  | [] => Some []
  | x :: xs' =>
      b ← p x; ys ← Array_filter p xs'; Some (if b : bool then x :: ys else ys)
  end.

(** GET /api/v1/inventory, given [req.query.include_deleted].  The
    handler is synchronous and does not go through [withDb]. *)
Definition get_inventory (include_deleted : value) : M response :=
  let includeDeleted := strict_equals include_deleted (VStr "true") in
  db ← loadDb;
  if includeDeleted then
    items ← lift (prop (store db) (root db) "inventory_items");
    mret (res_json (store db) (Response 200 items))
  else
    items ← lift (prop (store db) (root db) "inventory_items" ≫= as_array);
    active ← lift (Array_filter
                     (λ i, d ← prop (store db) i "deleted_at"; Some (negb (truthy d)))
                     items);
    mret (res_json (store db) (Response 200 (VArr active))).

(** GET /api/v1/inventory/:id *)
Definition get_inventory_item (id : string) : M response :=
  db ← loadDb;
  row ← lift (findItem db id);
  if negb (truthy row) then mret (res_json (store db) not_found)
  else mret (res_json (store db) (Response 200 row)).

(** [String.prototype.localeCompare] in the locale of the host, and
    [String(v)] for a value that is not a string. *)
Class Locale := {
  localeCompare : string → string → Z;
  ToString : value → string;
}.

(** [(a, b) => b.changed_at.localeCompare(a.changed_at)]: a [TypeError]
    unless [b.changed_at] is a string; the argument is converted to a
    string. *)
Definition by_changed_at `{Locale} (h : heap) (a b : value) : option Z :=
  cb ← prop h b "changed_at";
  match cb with
  | VStr sb =>
      ca ← prop h a "changed_at";
      Some (localeCompare sb (match ca with VStr sa => sa | _ => ToString ca end))
  | _ => None
  end.

(** [xs.sort(comparefn)].  For a consistent comparator that raises
    nothing the result is the one arrangement that is sorted and keeps
    the order of elements that compare equal, whichever way the engine
    finds it; here it is found by insertion.  Which pairs are compared,
    and which element of a pair the comparator is given first, is the
    choice of the engine (here the element to insert comes first, then
    one that followed it in the array; an engine may hand them over the
    other way round).  An exception of the comparator is passed on; where
    the comparator raises on some pairs only, whether [sort] raises
    depends on that choice. *)
Fixpoint insert_sorted (comparefn : value → value → option Z) (x : value)
    (xs : list value) : option (list value) :=
  match xs with
  | [] => Some [x]
  | y :: xs' =>
      c ← comparefn x y;
      if (c <=? 0)%Z then Some (x :: y :: xs')
      else ys ← insert_sorted comparefn x xs'; Some (y :: ys)
  end.

Fixpoint Array_sort (comparefn : value → value → option Z) (xs : list value)
    : option (list value) :=
  match xs with
  | [] => Some []
  | x :: xs' => ys ← Array_sort comparefn xs'; insert_sorted comparefn x ys
  end.

(** GET /api/v1/inventory/:id/audit *)
Definition get_inventory_item_audit `{Locale} (id : string) : M response :=
  db ← loadDb;
  audit ← lift (prop (store db) (root db) "inventory_audit" ≫= as_array);
  entries ← lift (Array_filter
                    (λ a, i ← prop (store db) a "item_id";
                          Some (strict_equals i (VStr id)))
                    audit);
  sorted ← lift (Array_sort (by_changed_at (store db)) entries);
  mret (res_json (store db) (Response 200 (VArr sorted))).

(** ** The set-up script *)

(** [{ id, username: 'admin', role: 'admin', created_at }] *)
Definition admin_user (id created_at : string) : value :=
  VObj [("id", VStr id); ("username", VStr "admin"); ("role", VStr "admin");
        ("created_at", VStr created_at)].

(** [u => u.username === 'admin'] *)
Definition is_admin (u : value) : option bool :=
  n ← prop [] u "username"; Some (strict_equals n (VStr "admin")).

(** [db.app_meta.ADMIN_TOKEN = token] for a truthy [db.app_meta].  The
    script is not in strict mode: on a number, a string or [true] the
    assignment does nothing; on an array it adds a property that
    [JSON.stringify] does not write. *)
Definition set_token (token : string) (app_meta : value) : value :=
  match app_meta with
  | VObj o => VObj (set "ADMIN_TOKEN" (VStr token) o)
  | _ => app_meta
  end.

(** The script that sets up the store, run in the directory of
    [server.js], statement by statement.  First
    [let db = {...}; if (fs.existsSync(DB)) { try { db = JSON.parse(..) }
    catch (e) { fs.renameSync(DB, DB + '.bak.' + Date.now()) } }]: *)
Definition read_db : M value :=
  there ← existsSync DB_FILE;
  if there : bool then
    c ← readFileSync DB_FILE;
    match c with
    | Json doc => mret doc
    | Garbage _ =>
        t ← Date_now;
        _ ← renameSync DB_FILE (DB_FILE +:+ ".bak." +:+ pretty t);
        mret empty_document
    end
  else mret empty_document.

(** [if (!db.users.find(u => u.username === 'admin')) db.users.push({...})] *)
Definition seed_admin `{Host} (db : value) : M value :=
  users ← lift (prop [] db "users" ≫= as_array);
  found ← lift (Array_find is_admin users);
  if negb (truthy found) then
    id ← randomUUID;
    created_at ← new_Date_toISOString;
    match db with
    | VObj kvs =>
        mret (VObj (set "users" (VArr (users ++ [admin_user id created_at])) kvs))
    | _ => throw
    end
  else mret db.

(** [process.env.ADMIN_TOKEN || randomUUID()] *)
Definition new_token (env : option string) : M string :=
  match env with
  | Some s => if truthy (VStr s) then mret s else randomUUID
  | None => randomUUID
  end.

(** [db.app_meta = db.app_meta || {}; db.app_meta.ADMIN_TOKEN = ADMIN_TOKEN] *)
Definition store_token (token : string) (db : value) : option value :=
  match db with
  | VObj kvs =>
      let app_meta := get "app_meta" kvs in
      let app_meta := if truthy app_meta then app_meta else VObj [] in
      Some (VObj (set "app_meta" (set_token token app_meta) kvs))
  | _ => None
  end.

(** The whole script; [env] is [process.env.ADMIN_TOKEN].  It returns
    the token it prints. *)
Definition init_db `{Host} (env : option string) : M string :=
  db ← read_db;
  db ← seed_admin db;
  token ← new_token env;
  db ← lift (store_token token db);
  text ← lift (JSON_tree db);
  _ ← writeFileSync DB_FILE (Json text);
  mret token.

(** * The vocabulary of the properties *)

(** The two arrays of a document. *)
Definition inventory_items (d : value) : list value :=
  match d with
  | VObj kvs => match get "inventory_items" kvs with VArr xs => xs | _ => [] end
  | _ => []
  end.

Definition inventory_audit (d : value) : list value :=
  match d with
  | VObj kvs => match get "inventory_audit" kvs with VArr xs => xs | _ => [] end
  | _ => []
  end.

(** A document the routes work on: in JSON form, with an array of
    objects for the items and an array for the audit trail. *)
Definition well_formed (d : value) : Prop :=
  is_json d ∧
  ∃ kvs os A, d = VObj kvs ∧
    get "inventory_items" kvs = VArr (VObj <$> os) ∧
    get "inventory_audit" kvs = VArr A.

(** The document [kvs] with its two arrays replaced. *)
Definition doc_with (kvs : object) (os : list object) (A : list value) : value :=
  VObj (set "inventory_audit" (VArr A)
          (set "inventory_items" (VArr (VObj <$> os)) kvs)).

(** An object as [saveDb] writes it. *)
Definition json_object (o : object) : object := json_fields JSON_tree o.

(** The references [loadDb] hands out for a heap of items. *)
Definition refs (h : heap) : list value := VRef <$> seq 0 (length h).

(** The world after [loadDb]: an unreadable file has been moved aside. *)
Definition after_load (w : world) : world :=
  match files w !! DB_FILE with
  | Some (Garbage raw) =>
      World (<[DB_FILE +:+ ".corrupt." +:+ pretty (clock w 0) := Garbage raw]>
               (delete DB_FILE (files w)))
        (locked w) (uuids w) (λ n, clock w (S n))
  | _ => w
  end.

(** [x.sku === sku && !x.deleted_at] and [i.item_id === id] on the
    objects themselves. *)
Definition active_with_sku (sku : value) (o : object) : bool :=
  strict_equals (get "sku" o) sku && negb (truthy (get "deleted_at" o)).

Definition has_id (id : string) (o : object) : bool :=
  strict_equals (get "item_id" o) (VStr id).

(** The position of the first object that satisfies [q]. *)
Fixpoint index_where (q : object → bool) (os : list object) : option nat :=
  match os with
  | [] => None
  | o :: os' => if q o then Some 0 else S <$> index_where q os'
  end.

(** The document as [loadDb] hands it to the callback. *)
Definition loaded (kvs : object) (os : heap) : database :=
  Database (VObj (set "inventory_items" (VArr (refs os)) kvs)) os.

(** A value that no heap is needed to write out. *)
Definition tree (v : value) : Prop := ∀ d, stringify_with d v = JSON_tree v.

(** The values that [JSON.parse] can yield: [null], booleans, numbers
    other than [NaN] (among them [-0], and the infinities, for [1e999]),
    strings, and arrays and objects of such values, no object with a key
    twice. *)
Fixpoint parsed (v : value) : bool :=
  match v with
  | VUndefined | VRef _ => false
  | VNull | VBool _ | VStr _ => true
  | VNum n => negb (PrimFloat.is_nan n)
  | VArr xs => forallb parsed xs
  | VObj kvs => bool_decide (NoDup (keys kvs)) && forallb (λ kv, parsed kv.2) kvs
  end.

(** A request whose body, if it has one, is a value that
    [JSON.stringify] and [JSON.parse] give back as it is.  Not every
    body that [express.json()] hands over is one: a body with a number
    [-0] or [1e999] in it is not (see [request_parsed]). *)
Definition request_json (rq : request) : Prop :=
  match rq with
  | POST req_body | PATCH _ req_body => is_json (VObj req_body)
  | DELETE _ => True
  end.

(** A request as [express.json()] hands it over: its body, if it has
    one, is what [JSON.parse] yielded. *)
Definition request_parsed (rq : request) : Prop :=
  match rq with
  | POST req_body | PATCH _ req_body => parsed (VObj req_body) = true
  | DELETE _ => True
  end.

(** The fields that a PATCH copies from its body into the item hold no
    reference. *)
Definition request_tree (rq : request) : Prop :=
  match rq with
  | PATCH _ req_body => Forall (λ kv, tree kv.2) req_body
  | POST _ | DELETE _ => True
  end.

(** The world after [saveDb] wrote [d], the slot released, [us] identifiers
    and [cs] clock readings used up. *)
Definition written (d : value) (w : world) (us cs : nat) : world :=
  World (<[DB_FILE := Json d]> (files w)) false
    (λ n, uuids w (us + n)) (λ n, clock w (cs + n)).

(** What a request returns and leaves behind, read off the stored
    document [kvs] with items [os] and audit trail [A]. *)
Definition outcome `{Host} (u : string) (rq : request) (w : world)
    (kvs : object) (os : list object) (A : list value) : result response * world :=
  let w1 := after_load w in
  match rq with
  | POST req_body =>
      if negb (truthy (get "sku" req_body))
         || negb (truthy (get "product_name" req_body))
      then (Ok validation, w)
      else if existsb (active_with_sku (get "sku" req_body)) os
      then (Ok duplicate_sku, written (VObj kvs) w1 0 0)
      else
        let item := json_object
                      (new_item (uuids w1 0) (toISOString (clock w1 0))
                         (toISOString (clock w1 1)) u req_body) in
        (Ok (Response 201 (VObj item)),
         written (doc_with kvs (os ++ [item])
                    (audit_entry (uuids w1 1) (VStr (uuids w1 0)) "CREATE" u
                       (toISOString (clock w1 2)) VNull (VObj item) :: A))
           w1 2 3)
  | PATCH id req_body =>
      let updates := collect_updates req_body in
      match updates with
      | [] => (Ok no_updates, w)
      | _ :: _ =>
          match index_where (has_id id) os with
          | None => (Ok not_found, written (VObj kvs) w1 0 0)
          | Some l =>
              let before := default [] (os !! l) in
              let o := patched_item updates (toISOString (clock w1 0)) u before in
              let item := json_object o in
              (Ok (Response 200 (VObj item)),
               written (doc_with kvs (<[l := item]> os)
                          (audit_entry (uuids w1 0) (VStr id) "UPDATE" u
                             (toISOString (clock w1 1))
                             (VObj (json_object (make_diff updates before o)))
                             (VObj item) :: A))
                 w1 1 2)
          end
      end
  | DELETE id =>
      match index_where (has_id id) os with
      | None => (Ok not_found, written (VObj kvs) w1 0 0)
      | Some l =>
          let before := default [] (os !! l) in
          let o := deleted_item (toISOString (clock w1 0)) u before in
          let item := json_object o in
          (Ok (Response 200 (VObj [("ok", VBool true)])),
           written (doc_with kvs (<[l := item]> os)
                      (audit_entry (uuids w1 0) (VStr id) "DELETE" u
                         (toISOString (clock w1 1))
                         (VObj (json_object
                                  [("deleted_at",
                                    VObj [("before", get "deleted_at" before);
                                          ("after", get "deleted_at" o)])]))
                         (VObj item) :: A))
             w1 1 2)
      end
  end.

(** A field of an audit entry. *)
Definition field (k : string) (e : value) : value :=
  match e with
  | VObj o => get k o
  | _ => VUndefined
  end.

(** The state between two requests: the slot is free and the store
    holds a well-formed document. *)
Definition idle (w : world) : Prop :=
  locked w = false ∧ well_formed (persisted w).

(** The clock never runs backwards. *)
Definition monotone (c : nat → N) : Prop := ∀ i j, (i ≤ j)%nat → (c i ≤ c j)%N.

(** [ts] are the times the entries of [A] were stamped with. *)
Definition stamps `{Host} (A : list value) (ts : list N) : Prop :=
  Forall2 (λ e t, field "changed_at" e = VStr (toISOString t)) A ts.

(** Newest first: the [changed_at] fields are the ISO strings of times
    that never increase along the trail. *)
Definition newest_first `{Host} (A : list value) : Prop :=
  ∃ ts, stamps A ts ∧ StronglySorted (λ a b, (b ≤ a)%N) ts.

(** [e1] is stamped with a string that is not before that of [e2] in the
    order of strings. *)
Definition not_older (e1 e2 : value) : Prop :=
  ∃ s1 s2, field "changed_at" e1 = VStr s1 ∧ field "changed_at" e2 = VStr s2 ∧
           String.leb s2 s1 = true.

(** Newest first, and nothing stamped after the time [now]. *)
Definition newest_first_until `{Host} (now : N) (A : list value) : Prop :=
  ∃ ts, stamps A ts ∧ StronglySorted (λ a b, (b ≤ a)%N) ts ∧
        Forall (λ t, (t ≤ now)%N) ts.

(** The callback a request hands to [withDb], if it gets that far. *)
Definition transaction `{Host} (u : string) (rq : request)
    : option (database → M (response * database)) :=
  match rq with
  | POST req_body =>
      if negb (truthy (get "sku" req_body))
         || negb (truthy (get "product_name" req_body))
      then None
      else Some (post_inventory_fn u req_body (get "sku" req_body))
  | PATCH id req_body =>
      if Nat.eqb (length (keys (collect_updates req_body))) 0 then None
      else Some (patch_inventory_fn u id (collect_updates req_body))
  | DELETE id => Some (delete_inventory_fn u id)
  end.

(** The objects among the elements of an array. *)
Fixpoint objects_of (xs : list value) : list object :=
  match xs with
  | [] => []
  | VObj o :: xs' => o :: objects_of xs'
  | _ :: xs' => objects_of xs'
  end.

(** The items of a document. *)
Definition items (d : value) : list object := objects_of (inventory_items d).


(** The number of calls between their load and their save. *)
Fixpoint holders (cs : list call) : nat :=
  match cs with
  | [] => 0
  | c :: cs' => (if in_slot c then 1 else 0) + holders cs'
  end.

(** The slot is taken exactly while one call is between its load and its
    save. *)
Definition slot_invariant (s : system) : Prop :=
  holders (calls s) = (if locked (env s) then 1 else 0) ∧
  Forall (λ c, keeps_lock (fn_of c)) (calls s).

Definition result_map {A B} (f : A → B) (r : result A) : result B :=
  match r with
  | Ok a => Ok (f a)
  | Throw => Throw
  | Hang => Hang
  end.

(** A computation that leaves [lock] alone. *)
Definition frames {A} (m : M A) : Prop := ∀ w, locked (m w).2 = locked w.

(** [s] has the character [c] in it. *)
Fixpoint mentions (c : Ascii.ascii) (s : string) : bool :=
  match s with
  | EmptyString => false
  | String c' s' => Ascii.eqb c' c || mentions c s'
  end.

(** [!o.deleted_at]: the item is not soft-deleted. *)
Definition active (o : object) : bool := negb (truthy (get "deleted_at" o)).

(** A store whose file, if there is one, parses. *)
Definition readable (w : world) : Prop :=
  ∀ raw, files w !! DB_FILE ≠ Some (Garbage raw).

(** What one request can do to the stored items: nothing, add one at the
    end, or replace one in place. *)
Inductive change `{Host} (u : string) (os : list object) : request → response → list object → Prop :=
| change_none rq resp :
    status resp ≠ 200 → status resp ≠ 201 →
    change u os rq resp os
| change_post req_body id t1 t2 :
    truthy (get "sku" req_body) = true →
    truthy (get "product_name" req_body) = true →
    existsb (active_with_sku (get "sku" req_body)) os = false →
    let item := json_object (new_item id t1 t2 u req_body) in
    change u os (POST req_body) (Response 201 (VObj item)) (os ++ [item])
| change_patch id req_body l before t :
    collect_updates req_body ≠ [] →
    index_where (has_id id) os = Some l → os !! l = Some before →
    let item := json_object (patched_item (collect_updates req_body) t u before) in
    change u os (PATCH id req_body) (Response 200 (VObj item)) (<[l := item]> os)
| change_delete id l before t :
    index_where (has_id id) os = Some l → os !! l = Some before →
    let item := json_object (deleted_item (toISOString t) u before) in
    change u os (DELETE id) (Response 200 (VObj [("ok", VBool true)]))
      (<[l := item]> os).

(** A value as the store holds it: what [JSON.parse] reads back of what
    [JSON.stringify] wrote.  In it an infinity has become [null] and
    [-0] has become [0]. *)
Definition as_stored (v : value) : value := default VUndefined (JSON_tree v).

(** An object all of whose fields [JSON.stringify] writes. *)
Definition writable (o : object) : Prop := Forall (λ kv, is_Some (JSON_tree kv.2)) o.

(** A number that JSON can hold. *)
Definition finite (n : float) : Prop :=
  PrimFloat.is_nan n = false ∧ PrimFloat.is_infinity n = false.

(** A field that neither PATCH nor DELETE writes. *)
Definition immutable (k : string) : Prop :=
  (k ∉ allowed) ∧ k ≠ "updated_at" ∧ k ≠ "updated_by" ∧ k ≠ "deleted_at".

(** The SKU that a POST carries is no infinity (which [JSON.parse]
    yields for a number such as [1e999], and [JSON.stringify] writes as
    [null]). *)
Definition finite_sku (rq : request) : Prop :=
  match rq with
  | POST req_body =>
      ∀ n, get "sku" req_body = VNum n → PrimFloat.is_infinity n = false
  | PATCH _ _ | DELETE _ => True
  end.

(** No two items that are not soft-deleted have the same SKU. *)
Definition unique_active_skus (os : list object) : Prop :=
  ∀ i j o1 o2, (i < j)%nat → os !! i = Some o1 → os !! j = Some o2 →
    active o1 = true → active o2 = true →
    strict_equals (get "sku" o1) (get "sku" o2) = false.

(** The users of a document. *)
Definition users (d : value) : list value :=
  match d with
  | VObj kvs => match get "users" kvs with VArr xs => xs | _ => [] end
  | _ => []
  end.

(** [u.username === 'admin'] on the object itself. *)
Definition named_admin (o : object) : bool :=
  strict_equals (get "username" o) (VStr "admin").

(** The token kept in a document: [db.app_meta.ADMIN_TOKEN]. *)
Definition stored_token (kvs : object) : value :=
  field "ADMIN_TOKEN" (get "app_meta" kvs).

(** The world after the script has read an unreadable store. *)
Definition after_read (raw : string) (w : world) : world :=
  World (<[DB_FILE +:+ ".bak." +:+ pretty (clock w 0) := Garbage raw]>
           (delete DB_FILE (files w)))
    (locked w) (uuids w) (λ n, clock w (S n)).

(** The document with the administrator's account in it, and with the
    token in it. *)
Definition seeded `{Host} (w : world) (kvs : object) (us : list object) : object :=
  if existsb named_admin us then kvs
  else set "users"
         (VArr ((VObj <$> us) ++ [admin_user (uuids w 0) (toISOString (clock w 0))]))
         kvs.

Definition with_token (token : string) (kvs : object) : object :=
  let app_meta := get "app_meta" kvs in
  set "app_meta" (set_token token (if truthy app_meta then app_meta else VObj [])) kvs.

(** The token the script prints. *)
Definition printed (env : option string) (w : world) (us : list object) : string :=
  let fresh := uuids w (if existsb named_admin us then 0 else 1) in
  match env with
  | Some s => if String.eqb s "" then fresh else s
  | None => fresh
  end.

(** A document the set-up script works on: an object in JSON form whose
    [users] is an array of objects and whose [app_meta] is an object or
    missing (or another falsy value). *)
Definition set_up_ready (d : value) : Prop :=
  is_json d ∧
  ∃ kvs us, d = VObj kvs ∧ get "users" kvs = VArr (VObj <$> us) ∧
    (truthy (get "app_meta" kvs) = false ∨ ∃ o, get "app_meta" kvs = VObj o).

(** The fields of the account the script creates. *)
Definition admin_fields (id created_at : string) : object :=
  [("id", VStr id); ("username", VStr "admin"); ("role", VStr "admin");
   ("created_at", VStr created_at)].

(** A call that is over. *)
Definition returned (c : call) : bool :=
  match phase_of c with
  | Returned _ => true
  | _ => false
  end.

(** The callbacks of the calls that are over. *)
Definition done_by (s : system) : list callback :=
  fn_of <$> filter (λ c, returned c = true) (calls s).

(** The world after the calls [withDb(fn)] for [fns], made one after
    the other, each when the one before is over. *)
Definition run_alone (fns : list callback) (w : world) : world :=
  fold_left (λ w fn, (withDb fn w).2) fns w.

(** The world is that of a serial run of the calls that are over, and
    the save that a call in the slot still has to make brings it to
    that of a serial run with this call last. *)
Definition serial (w : world) (s : system) : Prop :=
  ∃ fns, fns ≡ₚ done_by s ∧
    (locked (env s) = false → env s = run_alone fns w) ∧
    ∀ i fn r db, calls s !! i = Some (Call fn (Holding r db)) →
      (leave r db (env s)).2 = run_alone (fns ++ [fn]) w.

(** The labels of the fields a POST generates, with their values. *)
Definition generated (id created_at updated_at user_id : string) : object :=
  [("item_id", VStr id); ("created_at", VStr created_at);
   ("updated_at", VStr updated_at); ("deleted_at", VNull);
   ("created_by", VStr user_id); ("updated_by", VStr user_id)].

(** The operation an audit entry names for a request. *)
Definition operation_of (rq : request) : string :=
  match rq with
  | POST _ => "CREATE"
  | PATCH _ _ => "UPDATE"
  | DELETE _ => "DELETE"
  end.

(** The entry is about the item [id]: [a.item_id === id]. *)
Definition about (id : string) (e : value) : bool :=
  strict_equals (field "item_id" e) (VStr id).

(** An entry with a time stamp: an object whose [changed_at] is a
    string. *)
Definition stamped (e : value) : Prop :=
  ∃ o s, e = VObj o ∧ get "changed_at" o = VStr s.

(** [a] may come before [b]: [b.changed_at.localeCompare(a.changed_at)]
    is not positive. *)
Definition newer_first `{Locale} (a b : value) : Prop :=
  ∃ sa sb, field "changed_at" a = VStr sa ∧ field "changed_at" b = VStr sb ∧
           (localeCompare sb sa ≤ 0)%Z.

(** ** Sample data *)

(** A host to run the examples on: a time is written as its number of
    milliseconds, and no string or object converts to a number. *)
Definition sample_host : Host :=
  {| toISOString t := "T" +:+ pretty t;
     StringToNumber _ := nan;
     ObjectToNumber _ := nan |}.

(** No store yet, the slot free, identifiers [uuid-0], [uuid-1], ... and a
    clock that ticks once per reading. *)
Definition fresh_world : world :=
  World ∅ false (λ n, "uuid-" +:+ pretty n) (λ n, N.of_nat n).

Definition widget : object := [("sku", VStr "A1"); ("product_name", VStr "Widget")].

Definition sample_requests : list request :=
  [POST widget; POST widget; PATCH "uuid-0" [("quantity", VNum 5)]; DELETE "uuid-0"].

(** The store after the widget has been created. *)
Definition stocked_world : world := (@handle sample_host admin (POST widget) fresh_world).2.

(** A clock that ticks once per reading up to 9 and stands still from
    there on. *)
Definition bounded_world : world :=
  World ∅ false (λ n, "uuid-" +:+ pretty n) (λ n, N.of_nat (n `min` 9)).

(** A clock that is set back: 200 at the first three readings, 100 from
    there on. *)
Definition rewound_world : world :=
  World ∅ false (λ n, "uuid-" +:+ pretty n) (λ n, if (n <? 3)%nat then 200%N else 100%N).

(** The widget as stored. *)
Definition stored_widget : object := default [] (items (persisted stocked_world) !! 0).


(** The widget, soft-deleted. *)
Definition cleared_world : world := (@handle sample_host admin (DELETE "uuid-0") stocked_world).2.

Definition deleted_widget : object := default [] (items (persisted cleared_world) !! 0).

(** A world in which the slot is taken and the store is unreadable. *)
Definition stuck_world : world :=
  World {[DB_FILE := Garbage "{"]} true (λ n, "uuid-" +:+ pretty n) (λ n, N.of_nat n).

(** A store whose document is the empty object. *)
Definition bare_world : world :=
  World {[DB_FILE := Json (VObj [])]} false (λ n, "uuid-" +:+ pretty n) (λ n, N.of_nat n).

(** Two calls of [withDb]: a DELETE of an item that is not there, and
    the POST of the widget. *)
Definition first_call : callback := @delete_inventory_fn sample_host admin "uuid-0".

Definition second_call : callback :=
  @post_inventory_fn sample_host admin widget (get "sku" widget).

(** The first call is at [await fn(db)], the second one asleep. *)
Definition in_flight : system :=
  System (enter first_call fresh_world).2
    [Call first_call (enter first_call fresh_world).1; Call second_call Sleeping].

(** The first call has saved and is over; the second one is still
    asleep. *)
Definition settled : system :=
  match (enter first_call fresh_world).1 with
  | Holding r db =>
      System (leave r db (env in_flight)).2
        [Call first_call (leave r db (env in_flight)).1; Call second_call Sleeping]
  | _ => in_flight
  end.

(** The store after the widget has been patched with [{quantity: 5}],
    and with a quantity that is no number. *)
Definition patched_world : world :=
  (@handle sample_host admin (PATCH "uuid-0" [("quantity", VNum 5)]) stocked_world).2.

Definition patched_widget : object := default [] (items (persisted patched_world) !! 0).

Definition mispatched_world : world :=
  (@handle sample_host admin (PATCH "uuid-0" [("quantity", VStr "many")]) stocked_world).2.

Definition mispatched_widget : object :=
  default [] (items (persisted mispatched_world) !! 0).

(** A body whose SKU is the number [1e999], as [JSON.parse] yields it. *)
Definition overflowing : object :=
  [("sku", VNum infinity); ("product_name", VStr "Widget")].

(** A body with a price of [1e999] and a key [__proto__]. *)
Definition odd_widget : object :=
  [("sku", VStr "A1"); ("product_name", VStr "Widget");
   ("price", VNum infinity); ("__proto__", VObj [("sku", VStr "B2")])].

(** A host that compares strings character by character. *)
Definition sample_locale : Locale :=
  {| localeCompare x y := match String.compare x y with Lt => -1 | Eq => 0 | Gt => 1 end;
     ToString _ := "" |}%Z.

(** * Properties *)

(** ** Objects *)

Lemma get_set_eq k v o : get k (set k v o) = v.
Proof.
  induction o as [|[k' v'] o IH]; simpl.
  - by rewrite String.eqb_refl.
  - destruct (String.eqb k k') eqn:E; simpl; rewrite ?String.eqb_refl, ?E; done.
Qed.

Lemma get_set_ne k k' v o : k ≠ k' → get k (set k' v o) = get k o.
Proof.
  intros Hne. induction o as [|[k'' v''] o IH]; simpl.
  - by apply String.eqb_neq in Hne as ->.
  - destruct (String.eqb k' k'') eqn:E; simpl.
    + apply String.eqb_eq in E as <-. by apply String.eqb_neq in Hne as ->.
    + by rewrite IH.
Qed.

Lemma set_set k v v' o : set k v (set k v' o) = set k v o.
Proof.
  induction o as [|[k' v''] o IH]; simpl.
  - by rewrite String.eqb_refl.
  - destruct (String.eqb k k') eqn:E; simpl; rewrite ?String.eqb_refl, ?E, ?IH; done.
Qed.

Lemma has_set_eq k v o : has k (set k v o) = true.
Proof.
  induction o as [|[k' v'] o IH]; simpl.
  - by rewrite String.eqb_refl.
  - destruct (String.eqb k k') eqn:E; simpl; rewrite ?String.eqb_refl, ?E; done.
Qed.

Lemma has_set_ne k k' v o : k ≠ k' → has k (set k' v o) = has k o.
Proof.
  intros Hne. induction o as [|[k'' v''] o IH]; simpl.
  - apply String.eqb_neq in Hne as ->. done.
  - destruct (String.eqb k' k'') eqn:E; simpl.
    + apply String.eqb_eq in E as <-. done.
    + by rewrite IH.
Qed.

Lemma has_keys k o : has k o = true ↔ k ∈ keys o.
Proof.
  induction o as [|[k' v] o IH]; simpl.
  - split; [done | by intros ?%elem_of_nil].
  - rewrite elem_of_cons, orb_true_iff, IH, String.eqb_eq. done.
Qed.

Lemma get_absent k o : has k o = false → get k o = VUndefined.
Proof.
  induction o as [|[k' v] o IH]; simpl; [done|].
  destruct (String.eqb k k'); simpl; [done | exact IH].
Qed.

(** Writing a property keeps the place of every other one. *)
Lemma keys_set_present k v o : has k o = true → keys (set k v o) = keys o.
Proof.
  induction o as [|[k' v'] o IH]; simpl; [done|].
  destruct (String.eqb k k') eqn:E; simpl.
  - apply String.eqb_eq in E as ->. done.
  - intros Hk. by rewrite IH.
Qed.

Lemma keys_set_absent k v o : has k o = false → keys (set k v o) = keys o ++ [k].
Proof.
  induction o as [|[k' v'] o IH]; simpl; [done|].
  destruct (String.eqb k k') eqn:E; simpl; [done|].
  intros Hk. by rewrite IH.
Qed.

(** ** JSON *)

Lemma stringify_with_arr d xs :
  stringify_with d (VArr xs) = Some (VArr (json_elems (stringify_with d) xs)).
Proof. reflexivity. Qed.

Lemma stringify_with_obj d kvs :
  stringify_with d (VObj kvs) = Some (VObj (json_fields (stringify_with d) kvs)).
Proof.
  simpl. do 2 f_equal. induction kvs as [|[k x] kvs IH]; simpl; [done|].
  by rewrite IH.
Qed.

Lemma json_number_fixed n : stringify_with (λ _, None) (json_number n) = Some (json_number n).
Proof.
  unfold json_number.
  destruct (PrimFloat.is_nan n || PrimFloat.is_infinity n) eqn:E1; [done|].
  destruct (PrimFloat.is_zero n) eqn:E2; simpl; [done|].
  unfold json_number. by rewrite E1, E2.
Qed.

Lemma json_fields_length f kvs : (length (json_fields f kvs) ≤ length kvs)%nat.
Proof.
  induction kvs as [|[k x] kvs IH]; simpl; [lia|].
  destruct (f x); simpl; lia.
Qed.

Lemma json_fields_fixed f kvs :
  json_fields f kvs = kvs → Forall (λ kv, f kv.2 = Some kv.2) kvs.
Proof.
  induction kvs as [|[k x] kvs IH]; simpl; [by constructor|].
  destruct (f x) as [y|] eqn:E.
  - intros [= -> Hl]. constructor; [done | by apply IH].
  - intros Hl. pose proof (json_fields_length f kvs) as Hlen.
    rewrite Hl in Hlen. simpl in Hlen. lia.
Qed.

Lemma is_json_arr xs : is_json (VArr xs) ↔ Forall is_json xs.
Proof.
  unfold is_json, JSON_tree. rewrite stringify_with_arr. split.
  - intros [= Hxs]. induction xs as [|x xs IH]; [constructor|].
    simpl in Hxs. injection Hxs as Hx Hxs. constructor; [|by apply IH].
    destruct (stringify_with _ x) as [y|] eqn:E; simpl in Hx; [by subst|].
    subst x. discriminate.
  - intros Hxs. do 2 f_equal. induction Hxs as [|x xs Hx _ IH]; simpl; [done|].
    unfold JSON_tree in Hx. by rewrite Hx, IH.
Qed.

Lemma is_json_obj kvs : is_json (VObj kvs) ↔ Forall (λ kv, is_json kv.2) kvs.
Proof.
  unfold is_json, JSON_tree. rewrite stringify_with_obj. split.
  - intros [= Hkvs]. by apply json_fields_fixed in Hkvs.
  - intros Hkvs. do 2 f_equal. induction Hkvs as [|[k x] kvs Hx _ IH]; simpl; [done|].
    simpl in Hx. unfold JSON_tree in Hx. by rewrite Hx, IH.
Qed.

(** A value in JSON form holds no reference, so no heap changes how it
    is written. *)
Lemma is_json_stringify d v : is_json v → stringify_with d v = Some v.
Proof.
  induction v as [| |b|n|s|xs IH|kvs IH|l] using value_deep_ind; try done.
  - rewrite is_json_arr, stringify_with_arr. intros Hxs. do 2 f_equal.
    induction xs as [|x xs IHxs]; simpl; [done|].
    apply Forall_cons in IH as [IHx IH]. apply Forall_cons in Hxs as [Hx Hxs].
    by rewrite (IHx Hx), (IHxs IH Hxs).
  - rewrite is_json_obj, stringify_with_obj. intros Hkvs. do 2 f_equal.
    induction kvs as [|[k x] kvs IHkvs]; simpl; [done|].
    apply Forall_cons in IH as [IHx IH]. apply Forall_cons in Hkvs as [Hx Hkvs].
    simpl in *. rewrite (IHx Hx). simpl. f_equal. by apply IHkvs.
Qed.

(** Whatever is written is in JSON form. *)
Lemma stringify_is_json d v v' :
  (∀ l o, d l = Some o → is_json o) → stringify_with d v = Some v' → is_json v'.
Proof.
  intros Hd. revert v'.
  induction v as [| |b|n|s|xs IH|kvs IH|l] using value_deep_ind; intros v'; try done;
    try (by intros [= <-]).
  - intros [= <-]. apply json_number_fixed.
  - rewrite stringify_with_arr. intros [= <-]. apply is_json_arr.
    induction IH as [|x xs IHx _ IHxs]; simpl; [constructor|].
    constructor; [|done].
    destruct (stringify_with d x) as [y|] eqn:E; simpl; [by apply IHx | done].
  - rewrite stringify_with_obj. intros [= <-]. apply is_json_obj.
    induction IH as [|[k x] kvs IHx _ IHkvs]; simpl; [constructor|].
    simpl in IHx. destruct (stringify_with d x) as [y|] eqn:E; simpl; [|done].
    constructor; [by apply IHx | done].
  - simpl. apply Hd.
Qed.

Lemma JSON_tree_is_json v v' : JSON_tree v = Some v' → is_json v'.
Proof. apply stringify_is_json. done. Qed.

Lemma JSON_roundtrip_is_json h v v' : JSON_roundtrip h v = Some v' → is_json v'.
Proof.
  apply stringify_is_json. intros l o Hlo.
  destruct (h !! l) as [o'|]; [|done]. exact (JSON_tree_is_json (VObj o') o Hlo).
Qed.

Lemma is_json_get k o : is_json (VObj o) → get k o = VUndefined ∨ is_json (get k o).
Proof.
  rewrite is_json_obj. induction 1 as [|[k' v] o Hv _ IH]; simpl; [by left|].
  destruct (String.eqb k k'); [by right | done].
Qed.

Lemma set_get_id k o : has k o = true → set k (get k o) o = o.
Proof.
  induction o as [|[k' v] o IH]; simpl; [done|].
  destruct (String.eqb k k') eqn:E; simpl.
  - apply String.eqb_eq in E as ->. done.
  - intros Hk. by rewrite IH.
Qed.

Lemma get_has k o : get k o ≠ VUndefined → has k o = true.
Proof.
  intros Hk. destruct (has k o) eqn:E; [done|]. by apply get_absent in E.
Qed.

Lemma get_add_index_eq n k v o : has k o = false → get k (add_index n k v o) = v.
Proof.
  induction o as [|[k' v'] o IH]; cbn [add_index has get].
  - by rewrite String.eqb_refl.
  - destruct (String.eqb k k') eqn:E; [done|]. cbn [orb]. intros Hk.
    destruct (array_index k') as [n'|]; [destruct (n' <? n)%N|]; cbn [get];
      rewrite ?E, ?String.eqb_refl; auto.
Qed.

Lemma get_add_index_ne n k k' v o : k ≠ k' → get k (add_index n k' v o) = get k o.
Proof.
  intros Hne%String.eqb_neq.
  induction o as [|[k0 v0] o IH]; cbn [add_index get]; [by rewrite Hne|].
  destruct (array_index k0) as [n'|]; [destruct (n' <? n)%N|]; cbn [get];
    rewrite ?Hne; [by rewrite IH|done..].
Qed.

Lemma Forall_add_index (P : string * value → Prop) n k v o :
  Forall P o → P (k, v) → Forall P (add_index n k v o).
Proof.
  induction 1 as [|[k' v'] o Hx Ho IH]; intros Hv; cbn [add_index]; [by constructor|].
  destruct (array_index k') as [n'|]; [destruct (n' <? n)%N|];
    repeat constructor; auto.
Qed.

Lemma get_assign_eq k v o : get k (assign k v o) = v.
Proof.
  unfold assign. destruct (has k o) eqn:E; [apply get_set_eq|].
  destruct (array_index k); [by apply get_add_index_eq|apply get_set_eq].
Qed.

Lemma get_assign_ne k k' v o : k ≠ k' → get k (assign k' v o) = get k o.
Proof.
  intros Hne. unfold assign. destruct (has k' o); [by apply get_set_ne|].
  destruct (array_index k'); [by apply get_add_index_ne|by apply get_set_ne].
Qed.

(** ** Documents *)

Lemma doc_with_id kvs os A :
  get "inventory_items" kvs = VArr (VObj <$> os) →
  get "inventory_audit" kvs = VArr A →
  doc_with kvs os A = VObj kvs.
Proof.
  intros Hi Ha. unfold doc_with.
  rewrite <- Hi, set_get_id by (apply get_has; by rewrite Hi).
  rewrite <- Ha, set_get_id by (apply get_has; by rewrite Ha). done.
Qed.

Lemma inventory_items_doc_with kvs os A :
  inventory_items (doc_with kvs os A) = VObj <$> os.
Proof.
  unfold inventory_items, doc_with.
  rewrite get_set_ne by done. by rewrite get_set_eq.
Qed.

Lemma inventory_audit_doc_with kvs os A : inventory_audit (doc_with kvs os A) = A.
Proof. unfold inventory_audit, doc_with. by rewrite get_set_eq. Qed.

Lemma empty_document_well_formed : well_formed empty_document.
Proof. split; [done|]. by exists [("users", VArr []); ("inventory_items", VArr []);
        ("inventory_audit", VArr []); ("app_meta", VObj [])], [], []. Qed.

(** ** Loading *)

Lemma thaw_items_objects os h :
  thaw_items (VObj <$> os) h = (VRef <$> seq (length h) (length os), h ++ os).
Proof.
  revert h. induction os as [|o os IH]; intros h; simpl.
  - by rewrite app_nil_r.
  - rewrite IH, length_app. simpl. rewrite Nat.add_1_r, <- app_assoc. done.
Qed.

Lemma thaw_well_formed kvs os :
  get "inventory_items" kvs = VArr (VObj <$> os) →
  thaw (VObj kvs) = Database (VObj (set "inventory_items" (VArr (refs os)) kvs)) os.
Proof. intros Hi. unfold thaw. rewrite Hi, thaw_items_objects. done. Qed.

Lemma loadDb_run w : loadDb w = (Ok (thaw (persisted w)), after_load w).
Proof.
  unfold loadDb, persisted, after_load, mbind, M_bind, existsSync, readFileSync.
  destruct (files w !! DB_FILE) as [[doc|raw]|] eqn:E; simpl; rewrite ?E; try done.
  unfold renameSync. simpl. rewrite E. done.
Qed.

Lemma persisted_after_load w : persisted (after_load w) = persisted w.
Proof.
  unfold persisted, after_load.
  destruct (files w !! DB_FILE) as [[doc|raw]|] eqn:E; rewrite ?E; try done.
  simpl. rewrite lookup_insert_ne by done. by rewrite lookup_delete_eq.
Qed.

Lemma locked_after_load w : locked (after_load w) = locked w.
Proof. unfold after_load. by destruct (files w !! DB_FILE) as [[doc|raw]|]. Qed.

Lemma uuids_after_load w : uuids (after_load w) = uuids w.
Proof. unfold after_load. by destruct (files w !! DB_FILE) as [[doc|raw]|]. Qed.

Lemma clock_after_load w :
  ∃ m, ∀ n, clock (after_load w) n = clock w (m + n).
Proof.
  unfold after_load. destruct (files w !! DB_FILE) as [[doc|raw]|];
    [by exists 0 | by exists 1 | by exists 0].
Qed.

(** ** Transactions *)

Lemma withDb_run {A} (fn : database → M (A * database)) w :
  locked w = false →
  withDb fn w =
    match fn (thaw (persisted w)) (set_locked true (after_load w)) with
    | (Ok (r, db'), w1) =>
        match JSON_roundtrip (store db') (root db') with
        | Some doc =>
            (Ok (r, db'),
             World (<[DB_FILE := Json doc]> (files w1)) false (uuids w1) (clock w1))
        | None => (Throw, set_locked false w1)
        end
    | (Throw, w1) => (Throw, set_locked false w1)
    | (Hang, w1) => (Hang, set_locked false w1)
    end.
Proof.
  intros Hl. unfold withDb. rewrite Hl.
  unfold mbind, M_bind at 1.
  assert (Hload : loadDb (set_locked true w) =
                  (Ok (thaw (persisted w)), set_locked true (after_load w))).
  { rewrite loadDb_run. unfold persisted, after_load, set_locked. simpl.
    by destruct (files w !! DB_FILE) as [[doc|raw]|]. }
  rewrite Hload. unfold M_bind.
  destruct (fn _ _) as [[[r db']| |] w1]; try done.
  unfold saveDb. destruct (JSON_roundtrip _ _); done.
Qed.

(** ** The arrays of a loaded document *)

Lemma index_where_Some q os i :
  index_where q os = Some i →
  ∃ o, os !! i = Some o ∧ q o = true ∧
       ∀ j o', (j < i)%nat → os !! j = Some o' → q o' = false.
Proof.
  revert i. induction os as [|o os IH]; intros i; simpl; [done|].
  destruct (q o) eqn:E.
  - intros [= <-]. exists o. split_and!; [done..|]. intros j o' Hj. lia.
  - destruct (index_where q os) as [i'|]; simpl; [|done]. intros [= <-].
    destruct (IH i' eq_refl) as (o1 & Hi & Hq & Hbefore). exists o1.
    split_and!; [done..|]. intros [|j] o' Hj; simpl.
    + by intros [= <-].
    + apply Hbefore. lia.
Qed.

Lemma index_where_None q os : index_where q os = None → Forall (λ o, q o = false) os.
Proof.
  induction os as [|o os IH]; simpl; [by constructor|].
  destruct (q o) eqn:E; [done|].
  destruct (index_where q os); simpl; [done|]. intros _. constructor; auto.
Qed.

Lemma Array_some_Forall2 p (q : object → bool) ys os :
  Forall2 (λ y o, p y = Some (q o)) ys os →
  Array_some p ys = Some (existsb q os).
Proof.
  induction 1 as [|y o ys os Hy _ IH]; simpl; [done|].
  rewrite Hy. simpl. destruct (q o); [done | exact IH].
Qed.

Lemma Array_find_Forall2 p (q : object → bool) ys os :
  Forall2 (λ y o, p y = Some (q o)) ys os →
  Array_find p ys = Some (match index_where q os with
                          | Some i => default VUndefined (ys !! i)
                          | None => VUndefined
                          end).
Proof.
  induction 1 as [|y o ys os Hy _ IH]; simpl; [done|].
  rewrite Hy. simpl. destruct (q o); [done|].
  rewrite IH. by destruct (index_where q os).
Qed.

Lemma refs_lookup h i : (i < length h)%nat → refs h !! i = Some (VRef i).
Proof. intros Hi. unfold refs. rewrite list_lookup_fmap, lookup_seq_lt by done. done. Qed.

Lemma refs_Forall2 (P : value → object → Prop) h :
  (∀ l o, h !! l = Some o → P (VRef l) o) → Forall2 P (refs h) h.
Proof.
  intros HP. apply Forall2_same_length_lookup_2.
  - unfold refs. by rewrite length_fmap, length_seq.
  - intros i y o Hy Ho. rewrite refs_lookup in Hy by (by eapply lookup_lt_Some).
    injection Hy as <-. by apply HP.
Qed.

Lemma refs_snoc h o : refs (h ++ [o]) = refs h ++ [VRef (length h)].
Proof. unfold refs. by rewrite length_app, Nat.add_1_r, seq_S, fmap_app. Qed.

Lemma refs_insert (h : list object) l o : refs (<[l := o]> h) = refs h.
Proof. unfold refs. by rewrite length_insert. Qed.

Lemma Array_some_loaded sku os :
  Array_some (same_active_sku os sku) (refs os)
  = Some (existsb (active_with_sku sku) os).
Proof.
  apply Array_some_Forall2, refs_Forall2. intros l o Hl.
  unfold same_active_sku, active_with_sku. simpl. rewrite Hl. simpl.
  by destruct (strict_equals (get "sku" o) sku).
Qed.

Lemma findItem_loaded kvs os id :
  findItem (loaded kvs os) id
  = Some (match index_where (has_id id) os with
          | Some i => VRef i
          | None => VUndefined
          end).
Proof.
  unfold findItem, loaded. simpl. rewrite get_set_eq. simpl.
  rewrite (Array_find_Forall2 _ (has_id id) (refs os) os).
  - destruct (index_where (has_id id) os) as [i|] eqn:E; [|done].
    apply index_where_Some in E as (o & Hi & _). apply lookup_lt_Some in Hi.
    by rewrite refs_lookup.
  - apply refs_Forall2. intros l o Hl. simpl. by rewrite Hl.
Qed.

(** ** Saving *)

Lemma json_fields_set f k v v' kvs kvs' :
  json_fields f kvs = kvs' →
  Forall (λ kv, is_Some (f kv.2)) kvs →
  f v = Some v' →
  json_fields f (set k v kvs) = set k v' kvs'.
Proof.
  intros <- Hall Hv. induction Hall as [|[k' x] kvs [x' Hx] _ IH]; simpl.
  - by rewrite Hv.
  - simpl in Hx. rewrite Hx. destruct (String.eqb k k') eqn:E; simpl.
    + by rewrite Hv, E.
    + by rewrite Hx, E, IH.
Qed.

Lemma Forall_set (P : string * value → Prop) k v kvs :
  Forall P kvs → P (k, v) → Forall P (set k v kvs).
Proof.
  intros Hall Hv. induction Hall as [|[k' x] kvs Hx Hkvs IH]; simpl.
  - by constructor.
  - destruct (String.eqb k k'); by constructor.
Qed.

Lemma json_object_fixed o : is_json (VObj o) → json_object o = o.
Proof. unfold is_json, JSON_tree. rewrite stringify_with_obj. by intros [= ?]. Qed.

Lemma json_elems_fixed f xs :
  Forall (λ x, f x = Some x) xs → json_elems f xs = xs.
Proof. induction 1 as [|x xs Hx _ IH]; simpl; [done|]. by rewrite Hx, IH. Qed.

#[local] Arguments JSON_roundtrip : simpl never.
#[local] Arguments JSON_tree : simpl never.

Lemma JSON_tree_obj o : JSON_tree (VObj o) = Some (VObj (json_object o)).
Proof. apply stringify_with_obj. Qed.

Lemma JSON_roundtrip_ref (h : heap) l o :
  h !! l = Some o → JSON_roundtrip h (VRef l) = Some (VObj (json_object o)).
Proof.
  intros Hl. unfold JSON_roundtrip. cbn [stringify_with]. rewrite Hl.
  apply JSON_tree_obj.
Qed.

Lemma JSON_roundtrip_json h v : is_json v → JSON_roundtrip h v = Some v.
Proof. apply is_json_stringify. Qed.

Lemma JSON_roundtrip_arr h xs :
  JSON_roundtrip h (VArr xs) = Some (VArr (json_elems (JSON_roundtrip h) xs)).
Proof. apply stringify_with_arr. Qed.

Lemma JSON_roundtrip_obj h kvs :
  JSON_roundtrip h (VObj kvs) = Some (VObj (json_fields (JSON_roundtrip h) kvs)).
Proof. apply stringify_with_obj. Qed.

(** How the references of a loaded document are written out. *)
Lemma json_elems_refs h :
  json_elems (JSON_roundtrip h) (refs h) = (λ o, VObj (json_object o)) <$> h.
Proof.
  unfold json_elems, refs. apply list_eq. intros i.
  rewrite !list_lookup_fmap.
  destruct (decide (i < length h)%nat) as [Hi|Hi].
  - rewrite lookup_seq_lt by done. simpl.
    destruct (lookup_lt_is_Some_2 h i Hi) as [o Ho]. rewrite Ho.
    simpl. by rewrite (JSON_roundtrip_ref h i o Ho).
  - rewrite lookup_seq_ge by lia. rewrite lookup_ge_None_2 by lia. done.
Qed.

(** What [saveDb] writes for a loaded document whose heap and audit
    trail have been worked on. *)
Lemma roundtrip_doc h kvs Amem A :
  is_json (VObj kvs) →
  json_elems (JSON_roundtrip h) Amem = A →
  JSON_roundtrip h
    (VObj (set "inventory_audit" (VArr Amem)
             (set "inventory_items" (VArr (refs h)) kvs)))
  = Some (doc_with kvs (json_object <$> h) A).
Proof.
  intros Hkvs HA. rewrite JSON_roundtrip_obj.
  unfold doc_with. do 2 f_equal.
  apply is_json_obj in Hkvs.
  assert (Hsome : Forall (λ kv, is_Some (JSON_roundtrip h kv.2)) kvs).
  { eapply Forall_impl; [exact Hkvs|].
    intros [k x] Hx. exists x. by apply JSON_roundtrip_json. }
  assert (Hfix : json_fields (JSON_roundtrip h) kvs = kvs).
  { clear Hsome. induction Hkvs as [|[k x] kvs Hx _ IH]; simpl; [done|].
    rewrite (JSON_roundtrip_json h x Hx). by rewrite IH. }
  apply json_fields_set.
  - apply json_fields_set; [done..|].
    rewrite JSON_roundtrip_arr, json_elems_refs, <- list_fmap_compose. done.
  - apply Forall_set; [done|]. cbn [snd]. rewrite JSON_roundtrip_arr. by eexists.
  - by rewrite JSON_roundtrip_arr, HA.
Qed.

(** ** Values without references *)

Lemma tree_json v : is_json v → tree v.
Proof. intros Hv d. rewrite (is_json_stringify d v Hv). by rewrite Hv. Qed.

Lemma tree_obj kvs : Forall (λ kv, tree kv.2) kvs → tree (VObj kvs).
Proof.
  intros Hkvs d. unfold JSON_tree. rewrite !stringify_with_obj. do 2 f_equal.
  induction Hkvs as [|[k x] kvs Hx _ IH]; simpl; [done|].
  simpl in Hx. rewrite (Hx d), IH. done.
Qed.

Lemma tree_fields_json o : is_json (VObj o) → Forall (λ kv, tree kv.2) o.
Proof.
  rewrite is_json_obj. intros Ho. eapply Forall_impl; [exact Ho|].
  intros kv. apply tree_json.
Qed.

Lemma tree_get k o : Forall (λ kv, tree kv.2) o → tree (get k o).
Proof.
  induction 1 as [|[k' x] o Hx _ IH]; simpl; [done|].
  by destruct (String.eqb k k').
Qed.

Lemma tree_roundtrip h v : tree v → JSON_roundtrip h v = JSON_tree v.
Proof. intros Hv. apply Hv. Qed.

(** ** What [JSON.parse] yields *)

Lemma parsed_obj kvs :
  parsed (VObj kvs) = true ↔
  NoDup (keys kvs) ∧ Forall (λ kv, parsed kv.2 = true) kvs.
Proof.
  cbn [parsed]. rewrite andb_true_iff, bool_decide_eq_true.
  apply and_iff_compat_l. induction kvs as [|kv kvs IH]; cbn [forallb].
  - by split.
  - by rewrite andb_true_iff, IH, Forall_cons.
Qed.

Lemma parsed_tree v : parsed v = true → tree v.
Proof.
  induction v as [| | | | |xs IH|kvs IH|] using value_deep_ind; try done.
  - cbn [parsed]. intros Hxs d. unfold JSON_tree. rewrite !stringify_with_arr.
    do 2 f_equal. induction IH as [|x xs Hx _ IH']; [done|].
    cbn [forallb] in Hxs. apply andb_true_iff in Hxs as [Hx' Hxs].
    cbn [json_elems map]. rewrite (Hx Hx' d). f_equal. by apply IH'.
  - intros [_ Hkvs]%parsed_obj. apply tree_obj.
    induction IH as [|kv kvs Hx _ IH']; [done|].
    apply Forall_cons in Hkvs as [Hkv Hkvs]. constructor; auto.
Qed.

Lemma parsed_written v : parsed v = true → is_Some (JSON_tree v).
Proof. destruct v; try done; by eexists. Qed.

Lemma stringify_audit_entry d a i i' op u t df df' fr fr' :
  stringify_with d i = Some i' →
  stringify_with d df = Some df' →
  stringify_with d fr = Some fr' →
  stringify_with d (audit_entry a i op u t df fr)
  = Some (audit_entry a i' op u t df' fr').
Proof.
  intros Hi Hdf Hfr. unfold audit_entry. rewrite stringify_with_obj.
  cbn [json_fields stringify_with]. by rewrite Hi, Hdf, Hfr.
Qed.

Lemma is_json_get_defined k o v :
  is_json (VObj o) → get k o = v → v ≠ VUndefined → is_json v.
Proof. intros Ho <- Hv. by destruct (is_json_get k o Ho) as [E|E]. Qed.

Lemma is_json_items kvs os :
  is_json (VObj kvs) → get "inventory_items" kvs = VArr (VObj <$> os) →
  Forall (λ o, is_json (VObj o)) os.
Proof.
  intros Hkvs Hi. apply (is_json_get_defined _ _ _ Hkvs) in Hi; [|done].
  apply is_json_arr in Hi. rewrite Forall_fmap in Hi. exact Hi.
Qed.

Lemma is_json_audit kvs A :
  is_json (VObj kvs) → get "inventory_audit" kvs = VArr A → Forall is_json A.
Proof.
  intros Hkvs Ha. apply (is_json_get_defined _ _ _ Hkvs) in Ha; [|done].
  by apply is_json_arr in Ha.
Qed.

Lemma json_object_items os :
  Forall (λ o, is_json (VObj o)) os → json_object <$> os = os.
Proof.
  induction 1 as [|o os Ho _ IH]; [done|].
  by rewrite fmap_cons, (json_object_fixed o Ho), IH.
Qed.

Lemma json_elems_cons f x xs :
  json_elems f (x :: xs) = default VNull (f x) :: json_elems f xs.
Proof. done. Qed.

Lemma json_elems_json h xs : Forall is_json xs → json_elems (JSON_roundtrip h) xs = xs.
Proof.
  intros Hxs. apply json_elems_fixed. eapply Forall_impl; [exact Hxs|].
  intros x. apply JSON_roundtrip_json.
Qed.

Lemma roundtrip_mutation h kvs A entry entry' :
  is_json (VObj kvs) → Forall is_json A →
  JSON_roundtrip h entry = Some entry' →
  JSON_roundtrip h
    (VObj (set "inventory_audit" (VArr (entry :: A))
             (set "inventory_items" (VArr (refs h)) kvs)))
  = Some (doc_with kvs (json_object <$> h) (entry' :: A)).
Proof.
  intros Hkvs HA He. apply roundtrip_doc; [done|].
  by rewrite json_elems_cons, json_elems_json, He.
Qed.

Lemma roundtrip_unchanged os kvs A :
  is_json (VObj kvs) →
  get "inventory_items" kvs = VArr (VObj <$> os) →
  get "inventory_audit" kvs = VArr A →
  JSON_roundtrip os (root (loaded kvs os)) = Some (VObj kvs).
Proof.
  intros Hkvs Hi Ha. unfold loaded. cbn [root].
  rewrite <- (set_get_id "inventory_audit" (set "inventory_items" (VArr (refs os)) kvs))
    by (rewrite has_set_ne by done; apply get_has; by rewrite Ha).
  rewrite get_set_ne, Ha by done.
  rewrite (roundtrip_doc os kvs A A Hkvs)
    by (apply json_elems_json; by eapply is_json_audit).
  rewrite json_object_items by (by eapply is_json_items).
  by rewrite (doc_with_id kvs os A).
Qed.

(** ** The fields a PATCH writes *)

Lemma collect_updates_spec req_body :
  keys (collect_updates req_body) = filter (λ k, has k req_body = true) allowed ∧
  ∀ k, k ∈ keys (collect_updates req_body) →
       get k (collect_updates req_body) = get k req_body.
Proof.
  unfold collect_updates.
  assert (Hgen : ∀ ks acc,
    NoDup ks → (∀ k, k ∈ ks → k ∉ keys acc) →
    let r := fold_left (λ updates k,
                 if has k req_body then set k (get k req_body) updates else updates)
               ks acc in
    keys r = keys acc ++ filter (λ k, has k req_body = true) ks ∧
    ∀ k, (k ∈ keys acc → get k r = get k acc) ∧
         (k ∈ filter (λ k, has k req_body = true) ks → get k r = get k req_body)).
  { induction ks as [|k ks IH]; intros acc Hnd Hdisj; cbn [fold_left].
    - rewrite filter_nil, app_nil_r. split; [done|]. intros k. split; [done|].
      by intros ?%elem_of_nil.
    - apply NoDup_cons in Hnd as [Hk Hnd]. rewrite filter_cons.
      destruct (has k req_body) eqn:E.
      + destruct (decide (true = true)) as [_|]; [|done].
        assert (Hka : has k acc = false).
        { destruct (has k acc) eqn:E'; [|done]. apply has_keys in E'.
          destruct (Hdisj k); [left | done]. }
        assert (Hd' : ∀ k', k' ∈ ks → k' ∉ keys (set k (get k req_body) acc)).
        { intros k' Hk'. rewrite (keys_set_absent k _ acc Hka).
          rewrite elem_of_app, list_elem_of_singleton. intros [?| ->]; [|done].
          destruct (Hdisj k'); [by right | done]. }
        destruct (IH (set k (get k req_body) acc) Hnd Hd') as [IH1 IH2].
        cbv zeta in *. rewrite IH1, keys_set_absent by done.
        rewrite <- app_assoc. split; [done|]. intros k'. split.
        * intros Hk'. rewrite (proj1 (IH2 k')).
          -- apply get_set_ne. intros ->. apply has_keys in Hk'. congruence.
          -- rewrite keys_set_absent by done. apply elem_of_app. by left.
        * rewrite elem_of_cons. intros [-> | Hk'].
          -- rewrite (proj1 (IH2 k)); [by rewrite get_set_eq|].
             rewrite keys_set_absent by done. apply elem_of_app. right. by left.
          -- by apply IH2.
      + destruct (decide (false = true)) as [|_]; [done|].
        assert (Hd' : ∀ k', k' ∈ ks → k' ∉ keys acc).
        { intros k' Hk'. apply Hdisj. by right. }
        destruct (IH acc Hnd Hd') as [IH1 IH2].
        split; [done|]. intros k'. split; [apply IH2|apply IH2]. }
  assert (Hnd : NoDup allowed).
  { by apply (bool_decide_unpack (NoDup allowed)). }
  destruct (Hgen allowed [] Hnd) as [H1 H2].
  - intros k _. apply not_elem_of_nil.
  - cbv zeta in *. cbn [keys map app] in H1. split; [done|].
    intros k Hk. apply H2. by rewrite <- H1.
Qed.

Lemma keys_collect_updates_allowed req_body k :
  k ∈ keys (collect_updates req_body) → k ∈ allowed.
Proof.
  destruct (collect_updates_spec req_body) as [-> _].
  by intros [_ ?]%list_elem_of_filter.
Qed.

Lemma NoDup_keys_collect_updates req_body : NoDup (keys (collect_updates req_body)).
Proof.
  destruct (collect_updates_spec req_body) as [-> _].
  apply NoDup_filter. by apply (bool_decide_unpack (NoDup allowed)).
Qed.

Section updates.
Context `{Host}.

Lemma tree_coerce k v : tree v → tree (coerce k v).
Proof.
  intros Hv. unfold coerce.
  destruct (String.eqb k "quantity" || String.eqb k "price"); [|done].
  by destruct v.
Qed.

Lemma get_apply_updates_other k updates o :
  k ∉ keys updates → get k (apply_updates updates o) = get k o.
Proof.
  unfold apply_updates. revert o.
  induction updates as [|[k' v] updates IH]; intros o Hk; cbn [fold_left]; [done|].
  cbn [keys map fst] in Hk. apply not_elem_of_cons in Hk as [Hne Hk].
  rewrite IH by done. by apply get_set_ne.
Qed.

Lemma get_apply_updates k updates o :
  NoDup (keys updates) → k ∈ keys updates →
  get k (apply_updates updates o) = coerce k (get k updates).
Proof.
  unfold apply_updates. revert o.
  induction updates as [|[k' v] updates IH]; intros o Hnd Hk; cbn [fold_left].
  - by apply elem_of_nil in Hk.
  - cbn [keys map fst] in Hnd, Hk. apply NoDup_cons in Hnd as [Hk' Hnd].
    cbn [get fst snd]. destruct (String.eqb k k') eqn:E.
    + apply String.eqb_eq in E as ->.
      fold (apply_updates updates (set k' (coerce k' v) o)).
      rewrite get_apply_updates_other by done. apply get_set_eq.
    + apply elem_of_cons in Hk as [->|Hk]; [by rewrite String.eqb_refl in E|].
      by apply IH.
Qed.

Lemma tree_apply_updates updates o :
  Forall (λ kv, tree kv.2) updates → Forall (λ kv, tree kv.2) o →
  Forall (λ kv, tree kv.2) (apply_updates updates o).
Proof.
  unfold apply_updates. intros Hu. revert o.
  induction Hu as [|[k v] updates Hv _ IH]; intros o Ho; cbn [fold_left]; [done|].
  apply IH. apply Forall_set; [done|]. by apply tree_coerce.
Qed.

Lemma tree_patched_item updates t u o :
  Forall (λ kv, tree kv.2) updates → Forall (λ kv, tree kv.2) o →
  Forall (λ kv, tree kv.2) (patched_item updates t u o).
Proof.
  intros Hu Ho. unfold patched_item.
  apply Forall_set; [apply Forall_set|]; [by apply tree_apply_updates|done..].
Qed.

Lemma get_patched_item k updates t u o :
  k ≠ "updated_at" → k ≠ "updated_by" →
  get k (patched_item updates t u o) = get k (apply_updates updates o).
Proof. intros H1 H2. unfold patched_item. by rewrite !get_set_ne. Qed.

Lemma tree_collect_updates req_body :
  Forall (λ kv, tree kv.2) req_body →
  Forall (λ kv, tree kv.2) (collect_updates req_body).
Proof.
  intros Hb. unfold collect_updates. generalize allowed.
  assert (Hnil : Forall (λ kv : string * value, tree kv.2) []) by done.
  revert Hnil. generalize (@nil (string * value)).
  intros acc Hacc ks. revert acc Hacc.
  induction ks as [|k ks IH]; intros acc Hacc; cbn [fold_left]; [done|].
  apply IH. destruct (has k req_body); [|done].
  apply Forall_set; [done|]. by apply tree_get.
Qed.
End updates.



Lemma tree_make_diff updates before o :
  Forall (λ kv, tree kv.2) before → Forall (λ kv, tree kv.2) o →
  Forall (λ kv, tree kv.2) (make_diff updates before o).
Proof.
  intros Hb Ho. unfold make_diff.
  assert (Hgen : ∀ acc, Forall (λ kv : string * value, tree kv.2) acc →
    Forall (λ kv, tree kv.2)
      (fold_left (λ d kv, set kv.1 (VObj [("before", get kv.1 before);
                                          ("after", get kv.1 o)]) d) updates acc)).
  { induction updates as [|[k v] updates IH]; intros acc Hacc; cbn [fold_left]; [done|].
    apply IH. apply Forall_set; [done|]. cbn [snd fst]. apply tree_obj.
    repeat constructor; by apply tree_get. }
  by apply Hgen.
Qed.

Lemma strict_equals_str v s : strict_equals v (VStr s) = true ↔ v = VStr s.
Proof.
  split; [|intros ->; apply String.eqb_refl].
  destruct v; try done. simpl. by intros ->%String.eqb_eq.
Qed.

Lemma has_id_get id o : has_id id o = true ↔ get "item_id" o = VStr id.
Proof. apply strict_equals_str. Qed.

Lemma json_object_insert (os : list object) l o :
  Forall (λ o, is_json (VObj o)) os →
  json_object <$> <[l := o]> os = <[l := json_object o]> os.
Proof. intros Hos. by rewrite list_fmap_insert, json_object_items. Qed.

(** ** The routes on a well-formed document *)

(** Running the monad one step at a time. *)
Lemma bind_ret {A B} (a : A) (k : A → M B) w : (mret a ≫= k) w = k a w.
Proof. done. Qed.

Lemma bind_lift_Some {A B} (a : A) (k : A → M B) w : (lift (Some a) ≫= k) w = k a w.
Proof. done. Qed.

Lemma bind_lift_None {A B} (k : A → M B) w : (lift None ≫= k) w = (Throw, w).
Proof. done. Qed.

Lemma bind_randomUUID {B} (k : string → M B) w :
  (randomUUID ≫= k) w
  = k (uuids w 0) (World (files w) (locked w) (λ n, uuids w (S n)) (clock w)).
Proof. done. Qed.

Lemma bind_new_Date `{Host} {B} (k : string → M B) w :
  (new_Date_toISOString ≫= k) w
  = k (toISOString (clock w 0))
      (World (files w) (locked w) (uuids w) (λ n, clock w (S n))).
Proof. done. Qed.

Ltac mstep :=
  repeat (first
    [ rewrite bind_lift_Some
    | rewrite bind_lift_None
    | rewrite bind_randomUUID
    | rewrite bind_new_Date
    | rewrite bind_ret ]; cbv beta).

Section routes.
Context `{Host}.

Lemma post_inventory_fn_run u req_body sku kvs os A w :
  get "inventory_audit" kvs = VArr A →
  post_inventory_fn u req_body sku (loaded kvs os) w =
    if existsb (active_with_sku sku) os then (Ok (duplicate_sku, loaded kvs os), w)
    else
      let rec := new_item (uuids w 0) (toISOString (clock w 0))
                   (toISOString (clock w 1)) u req_body in
      (Ok (Response 201 (VRef (length os)),
           Database
             (VObj (set "inventory_audit"
                      (VArr (audit_entry (uuids w 1) (VStr (uuids w 0)) "CREATE" u
                               (toISOString (clock w 2)) VNull (VRef (length os))
                             :: A))
                      (set "inventory_items" (VArr (refs (os ++ [rec]))) kvs)))
             (os ++ [rec])),
       World (files w) (locked w) (λ n, uuids w (S (S n)))
         (λ n, clock w (S (S (S n))))).
Proof.
  intros HA. unfold post_inventory_fn, loaded.
  cbn [root store prop]. rewrite get_set_eq. cbn [mbind option_bind as_array].
  mstep. rewrite Array_some_loaded. mstep.
  destruct (existsb (active_with_sku sku) os); [done|].
  mstep. unfold member. cbn [root store prop]. rewrite get_set_eq.
  cbn [mbind option_bind]. mstep.
  unfold Array_push. cbn [root store]. mstep.
  unfold member. cbn [root store prop]. rewrite set_set.
  rewrite get_set_ne by done. rewrite HA. cbn [mbind option_bind]. mstep.
  unfold Array_unshift. cbn [root store]. mstep.
  cbn [uuids clock files locked]. rewrite refs_snoc. done.
Qed.

Lemma patch_inventory_fn_run u id updates kvs os A w :
  get "inventory_audit" kvs = VArr A →
  patch_inventory_fn u id updates (loaded kvs os) w =
    match index_where (has_id id) os with
    | None => (Ok (not_found, loaded kvs os), w)
    | Some l =>
        match os !! l with
        | None => (Throw, w)
        | Some before =>
            let o := patched_item updates (toISOString (clock w 0)) u before in
            (Ok (Response 200 (VRef l),
                 Database
                   (VObj (set "inventory_audit"
                            (VArr (audit_entry (uuids w 0) (get "item_id" o)
                                     "UPDATE" u (toISOString (clock w 1))
                                     (VObj (make_diff updates before o)) (VObj o)
                                   :: A))
                            (set "inventory_items" (VArr (refs (<[l := o]> os))) kvs)))
                   (<[l := o]> os)),
             World (files w) (locked w) (λ n, uuids w (S n))
               (λ n, clock w (S (S n))))
        end
    end.
Proof.
  intros HA. unfold patch_inventory_fn. rewrite findItem_loaded. mstep.
  destruct (index_where (has_id id) os) as [l|]; [|done].
  cbn [truthy negb]. unfold loaded. cbn [store root].
  destruct (os !! l) as [before|]; mstep; [|done].
  unfold member. cbn [root store prop]. rewrite get_set_ne by done.
  rewrite HA. cbn [mbind option_bind]. mstep.
  unfold Array_unshift. cbn [root store]. mstep.
  cbn [uuids clock files locked]. rewrite refs_insert. done.
Qed.

Lemma delete_inventory_fn_run u id kvs os A w :
  get "inventory_audit" kvs = VArr A →
  delete_inventory_fn u id (loaded kvs os) w =
    match index_where (has_id id) os with
    | None => (Ok (not_found, loaded kvs os), w)
    | Some l =>
        match os !! l with
        | None => (Throw, w)
        | Some ex =>
            let o := deleted_item (toISOString (clock w 0)) u ex in
            (Ok (Response 200 (VObj [("ok", VBool true)]),
                 Database
                   (VObj (set "inventory_audit"
                            (VArr (audit_entry (uuids w 0) (get "item_id" o)
                                     "DELETE" u (toISOString (clock w 1))
                                     (VObj [("deleted_at",
                                             VObj [("before", get "deleted_at" ex);
                                                   ("after", get "deleted_at" o)])])
                                     (VObj o)
                                   :: A))
                            (set "inventory_items" (VArr (refs (<[l := o]> os))) kvs)))
                   (<[l := o]> os)),
             World (files w) (locked w) (λ n, uuids w (S n))
               (λ n, clock w (S (S n))))
        end
    end.
Proof.
  intros HA. unfold delete_inventory_fn. rewrite findItem_loaded. mstep.
  destruct (index_where (has_id id) os) as [l|]; [|done].
  cbn [truthy negb]. unfold loaded. cbn [store root].
  destruct (os !! l) as [ex|]; mstep; [|done].
  unfold member. cbn [root store prop]. rewrite get_set_ne by done.
  rewrite HA. cbn [mbind option_bind]. mstep.
  unfold Array_unshift. cbn [root store]. mstep.
  cbn [uuids clock files locked]. rewrite refs_insert. done.
Qed.

(** *** What each route does to the stored document *)

Lemma post_inventory_run u req_body w kvs os A :
  locked w = false →
  persisted w = VObj kvs → is_json (VObj kvs) →
  get "inventory_items" kvs = VArr (VObj <$> os) →
  get "inventory_audit" kvs = VArr A →
  truthy (get "sku" req_body) = true →
  truthy (get "product_name" req_body) = true →
  post_inventory u req_body w =
    let w1 := after_load w in
    if existsb (active_with_sku (get "sku" req_body)) os then
      (Ok duplicate_sku,
       World (<[DB_FILE := Json (VObj kvs)]> (files w1)) false (uuids w1) (clock w1))
    else
      let item := json_object
                    (new_item (uuids w1 0) (toISOString (clock w1 0))
                       (toISOString (clock w1 1)) u req_body) in
      (Ok (Response 201 (VObj item)),
       World (<[DB_FILE :=
                  Json (doc_with kvs (os ++ [item])
                          (audit_entry (uuids w1 1) (VStr (uuids w1 0)) "CREATE" u
                             (toISOString (clock w1 2)) VNull (VObj item)
                           :: A))]> (files w1))
         false (λ n, uuids w1 (S (S n))) (λ n, clock w1 (S (S (S n))))).
Proof.
  intros Hl Hp Hkvs Hi Ha Hsku Hname. unfold post_inventory.
  rewrite Hsku, Hname. cbn [negb orb].
  unfold mbind at 1, M_bind at 1. rewrite withDb_run by done.
  rewrite Hp, (thaw_well_formed kvs os Hi). fold (loaded kvs os).
  rewrite (post_inventory_fn_run _ _ _ _ _ A) by done.
  pose proof (is_json_items _ _ Hkvs Hi) as Hos.
  pose proof (is_json_audit _ _ Hkvs Ha) as HA.
  destruct (existsb _ os).
  - unfold loaded. cbn [store root].
    rewrite <- (set_get_id "inventory_audit" (set "inventory_items" (VArr (refs os)) kvs))
      by (rewrite has_set_ne by done; apply get_has; by rewrite Ha).
    rewrite get_set_ne, Ha by done.
    rewrite (roundtrip_doc os kvs A A Hkvs) by (by apply json_elems_json).
    rewrite json_object_items, (doc_with_id kvs os A) by done.
    unfold mret, M_ret. done.
  - cbv zeta. cbn [store root].
    set (rec := new_item _ _ _ _ _).
    erewrite (roundtrip_doc (os ++ [rec]) kvs); [|done|].
    2:{ rewrite json_elems_cons, json_elems_json by done.
        unfold JSON_roundtrip at 1.
        erewrite stringify_audit_entry; [done..|].
        apply (JSON_roundtrip_ref (os ++ [rec])).
        by rewrite lookup_app_r, Nat.sub_diag by lia. }
    unfold mret, M_ret, res_json. cbn [store status body].
    rewrite (JSON_roundtrip_ref (os ++ [rec]) (length os) rec)
      by (by rewrite lookup_app_r, Nat.sub_diag by lia).
    rewrite fmap_app, json_object_items by done. done.
Qed.

Lemma patch_inventory_run u id req_body w kvs os A :
  locked w = false →
  persisted w = VObj kvs → is_json (VObj kvs) →
  get "inventory_items" kvs = VArr (VObj <$> os) →
  get "inventory_audit" kvs = VArr A →
  Forall (λ kv, tree kv.2) req_body →
  collect_updates req_body ≠ [] →
  patch_inventory u id req_body w =
    let w1 := after_load w in
    let updates := collect_updates req_body in
    match index_where (has_id id) os with
    | None =>
        (Ok not_found,
         World (<[DB_FILE := Json (VObj kvs)]> (files w1)) false (uuids w1) (clock w1))
    | Some l =>
        let before := default [] (os !! l) in
        let o := patched_item updates (toISOString (clock w1 0)) u before in
        let item := json_object o in
        (Ok (Response 200 (VObj item)),
         World (<[DB_FILE :=
                    Json (doc_with kvs (<[l := item]> os)
                            (audit_entry (uuids w1 0) (VStr id) "UPDATE" u
                               (toISOString (clock w1 1))
                               (VObj (json_object (make_diff updates before o)))
                               (VObj item)
                             :: A))]> (files w1))
           false (λ n, uuids w1 (S n)) (λ n, clock w1 (S (S n))))
    end.
Proof.
  intros Hl Hp Hkvs Hi Ha Hbody Hupd. unfold patch_inventory.
  destruct (collect_updates req_body) as [|kv updates'] eqn:Eupd; [done|].
  cbn [keys map length Nat.eqb]. rewrite <- Eupd. clear Hupd.
  set (updates := collect_updates req_body) in *.
  unfold mbind at 1, M_bind at 1. rewrite withDb_run by done.
  rewrite Hp, (thaw_well_formed kvs os Hi). fold (loaded kvs os).
  rewrite (patch_inventory_fn_run _ _ _ _ _ A) by done.
  pose proof (is_json_items _ _ Hkvs Hi) as Hos.
  pose proof (is_json_audit _ _ Hkvs Ha) as HA.
  destruct (index_where (has_id id) os) as [l|] eqn:E.
  - apply index_where_Some in E as (before & Hlo & Hid & _).
    rewrite Hlo. cbv zeta. cbn [store root default].
    set (o := patched_item _ _ _ _).
    assert (Hbefore : Forall (λ kv, tree kv.2) before).
    { apply tree_fields_json. rewrite Forall_forall in Hos. apply Hos.
      by eapply list_elem_of_lookup_2. }
    assert (Ho : Forall (λ kv, tree kv.2) o).
    { apply tree_patched_item; [|done]. by apply tree_collect_updates. }
    assert (Hoid : get "item_id" o = VStr id).
    { unfold o. rewrite get_patched_item by done.
      rewrite get_apply_updates_other; [by apply has_id_get|].
      intros Hin%keys_collect_updates_allowed. revert Hin.
      by apply (bool_decide_unpack ("item_id" ∉ allowed)). }
    erewrite (roundtrip_mutation (<[l := o]> os) kvs); [|done..|].
    2:{ unfold JSON_roundtrip at 1. apply stringify_audit_entry.
        - by rewrite Hoid.
        - fold (JSON_roundtrip (<[l:=o]> os)).
          rewrite tree_roundtrip by (by apply tree_obj, tree_make_diff).
          apply JSON_tree_obj.
        - fold (JSON_roundtrip (<[l:=o]> os)).
          rewrite tree_roundtrip by (by apply tree_obj).
          apply JSON_tree_obj. }
    unfold mret, M_ret, res_json. cbn [store status body].
    rewrite (JSON_roundtrip_ref (<[l := o]> os) l o)
      by (apply list_lookup_insert_eq; by eapply lookup_lt_Some).
    rewrite json_object_insert by done. done.
  - change (store (loaded kvs os)) with os.
    rewrite (roundtrip_unchanged os kvs A) by done.
    unfold mret, M_ret. done.
Qed.

Lemma tree_deleted_item t u o :
  Forall (λ kv, tree kv.2) o → Forall (λ kv, tree kv.2) (deleted_item t u o).
Proof.
  intros Ho. unfold deleted_item. cbv zeta.
  apply Forall_set; [apply Forall_set; [apply Forall_set|]|]; try done.
  cbn [snd]. by rewrite get_set_eq.
Qed.

Lemma delete_inventory_run u id w kvs os A :
  locked w = false →
  persisted w = VObj kvs → is_json (VObj kvs) →
  get "inventory_items" kvs = VArr (VObj <$> os) →
  get "inventory_audit" kvs = VArr A →
  delete_inventory u id w =
    let w1 := after_load w in
    match index_where (has_id id) os with
    | None =>
        (Ok not_found,
         World (<[DB_FILE := Json (VObj kvs)]> (files w1)) false (uuids w1) (clock w1))
    | Some l =>
        let before := default [] (os !! l) in
        let o := deleted_item (toISOString (clock w1 0)) u before in
        let item := json_object o in
        (Ok (Response 200 (VObj [("ok", VBool true)])),
         World (<[DB_FILE :=
                    Json (doc_with kvs (<[l := item]> os)
                            (audit_entry (uuids w1 0) (VStr id) "DELETE" u
                               (toISOString (clock w1 1))
                               (VObj (json_object
                                        [("deleted_at",
                                          VObj [("before", get "deleted_at" before);
                                                ("after", get "deleted_at" o)])]))
                               (VObj item)
                             :: A))]> (files w1))
           false (λ n, uuids w1 (S n)) (λ n, clock w1 (S (S n))))
    end.
Proof.
  intros Hl Hp Hkvs Hi Ha. unfold delete_inventory.
  unfold mbind at 1, M_bind at 1. rewrite withDb_run by done.
  rewrite Hp, (thaw_well_formed kvs os Hi). fold (loaded kvs os).
  rewrite (delete_inventory_fn_run _ _ _ _ A) by done.
  pose proof (is_json_items _ _ Hkvs Hi) as Hos.
  pose proof (is_json_audit _ _ Hkvs Ha) as HA.
  destruct (index_where (has_id id) os) as [l|] eqn:E.
  - apply index_where_Some in E as (before & Hlo & Hid & _).
    rewrite Hlo. cbv zeta. cbn [store root default].
    set (o := deleted_item _ _ _).
    assert (Hbefore : Forall (λ kv, tree kv.2) before).
    { apply tree_fields_json. rewrite Forall_forall in Hos. apply Hos.
      by eapply list_elem_of_lookup_2. }
    assert (Ho : Forall (λ kv, tree kv.2) o) by (by apply tree_deleted_item).
    assert (Hoid : get "item_id" o = VStr id).
    { unfold o, deleted_item. cbv zeta. rewrite !get_set_ne by done.
      by apply has_id_get. }
    erewrite (roundtrip_mutation (<[l := o]> os) kvs); [|done..|].
    2:{ unfold JSON_roundtrip at 1. apply stringify_audit_entry.
        - by rewrite Hoid.
        - fold (JSON_roundtrip (<[l:=o]> os)).
          rewrite tree_roundtrip; [apply JSON_tree_obj|].
          apply tree_obj. repeat constructor. cbn [snd]. apply tree_obj.
          repeat constructor; by apply tree_get.
        - fold (JSON_roundtrip (<[l:=o]> os)).
          rewrite tree_roundtrip by (by apply tree_obj).
          apply JSON_tree_obj. }
    unfold mret, M_ret, res_json. cbn [store status body].
    rewrite json_object_insert by done. done.
  - change (store (loaded kvs os)) with os.
    rewrite (roundtrip_unchanged os kvs A) by done.
    unfold mret, M_ret. done.
Qed.
End routes.

(** ** One request on a well-formed document *)

Lemma request_json_tree rq : request_json rq → request_tree rq.
Proof. destruct rq; [done| |done]. apply tree_fields_json. Qed.

Lemma request_parsed_tree rq : request_parsed rq → request_tree rq.
Proof.
  destruct rq as [|id req_body|]; [done| |done]. intros [_ Hb]%parsed_obj.
  eapply Forall_impl; [exact Hb|]. intros kv. apply parsed_tree.
Qed.

Section outcome.
Context `{Host}.

Lemma handle_run_tree u rq w kvs os A :
  locked w = false →
  persisted w = VObj kvs → is_json (VObj kvs) →
  get "inventory_items" kvs = VArr (VObj <$> os) →
  get "inventory_audit" kvs = VArr A →
  request_tree rq →
  handle u rq w = outcome u rq w kvs os A.
Proof.
  intros Hl Hp Hkvs Hi Ha Hrq. destruct rq as [req_body|id req_body|id];
    cbn [handle outcome].
  - destruct (truthy (get "sku" req_body)) eqn:Hsku;
      [destruct (truthy (get "product_name" req_body)) eqn:Hname|].
    + rewrite (post_inventory_run u req_body w kvs os A) by done.
      cbv zeta. cbn [negb orb]. by destruct (existsb _ os).
    + unfold post_inventory. by rewrite Hsku, Hname.
    + unfold post_inventory. by rewrite Hsku.
  - destruct (collect_updates req_body) as [|kv updates] eqn:E.
    + unfold patch_inventory. by rewrite E.
    + rewrite (patch_inventory_run u id req_body w kvs os A) by (done || by rewrite E).
      cbv zeta. rewrite E. by destruct (index_where _ os).
  - rewrite (delete_inventory_run u id w kvs os A) by done.
    cbv zeta. by destruct (index_where _ os).
Qed.

Lemma handle_run u rq w kvs os A :
  locked w = false →
  persisted w = VObj kvs → is_json (VObj kvs) →
  get "inventory_items" kvs = VArr (VObj <$> os) →
  get "inventory_audit" kvs = VArr A →
  request_json rq →
  handle u rq w = outcome u rq w kvs os A.
Proof. intros ????? Hrq%request_json_tree. by apply handle_run_tree. Qed.
End outcome.

(** ** Invariants of the stored document *)

Lemma is_json_json_object o : is_json (VObj (json_object o)).
Proof. apply (JSON_tree_is_json (VObj o)), JSON_tree_obj. Qed.

Lemma is_json_audit_entry a i op u t d f :
  is_json i → is_json d → is_json f → is_json (audit_entry a i op u t d f).
Proof. intros Hi Hd Hf. apply is_json_obj. by repeat constructor. Qed.

Lemma is_json_doc_with kvs os A :
  is_json (VObj kvs) → Forall (λ o, is_json (VObj o)) os → Forall is_json A →
  is_json (doc_with kvs os A).
Proof.
  intros Hkvs Hos HA. apply is_json_obj.
  apply Forall_set; [apply Forall_set|].
  - by apply is_json_obj.
  - apply is_json_arr. by apply Forall_fmap.
  - by apply is_json_arr.
Qed.

Lemma well_formed_doc_with kvs os A :
  is_json (doc_with kvs os A) → well_formed (doc_with kvs os A).
Proof.
  intros Hj. split; [done|]. eexists _, os, A. split; [done|]. split.
  - rewrite get_set_ne by done. apply get_set_eq.
  - apply get_set_eq.
Qed.

Lemma persisted_written d w us cs : persisted (written d w us cs) = d.
Proof. unfold persisted, written. cbn [files]. by rewrite lookup_insert_eq. Qed.

Lemma Forall_insert_json (os : list object) l o :
  Forall (λ o, is_json (VObj o)) os → is_json (VObj o) →
  Forall (λ o, is_json (VObj o)) (<[l := o]> os).
Proof. intros Hos Ho. by apply Forall_insert. Qed.

Section steps.
Context `{Host}.

(** Every request is answered and leaves the store idle; the clock has
    moved on by the readings taken; the audit trail is either as it
    was, or one entry longer at the front, stamped with the last clock
    reading taken. *)
Lemma handle_step_tree u rq w :
  idle w → request_tree rq →
  ∃ resp w', handle u rq w = (Ok resp, w') ∧ idle w' ∧
    ((status resp ≠ 200 ∧ status resp ≠ 201 ∧
      persisted w' = persisted w ∧
      ∃ m, ∀ n, clock w' n = clock w (m + n))
     ∨
     ((status resp = 200 ∨ status resp = 201) ∧
      ∃ e k,
        inventory_audit (persisted w') = e :: inventory_audit (persisted w) ∧
        field "changed_at" e = VStr (toISOString (clock w k)) ∧
        ∀ n, clock w' n = clock w (S k + n))).
Proof.
  intros [Hl (Hj & kvs & os & A & Hp & Hi & Ha)] Hrq. rewrite Hp in Hj.
  rewrite (handle_run_tree u rq w kvs os A) by done.
  pose proof (is_json_items _ _ Hj Hi) as Hos.
  pose proof (is_json_audit _ _ Hj Ha) as HA.
  assert (Hidle : idle w).
  { split; [done|]. rewrite Hp. split; [done|]. by exists kvs, os, A. }
  destruct (clock_after_load w) as [m Hm].
  assert (Hsame : ∀ resp,
    status resp ≠ 200 → status resp ≠ 201 →
    ∃ resp' w', (Ok resp, written (VObj kvs) (after_load w) 0 0) = (Ok resp', w') ∧
      idle w' ∧
      ((status resp' ≠ 200 ∧ status resp' ≠ 201 ∧ persisted w' = persisted w ∧
        ∃ m, ∀ n, clock w' n = clock w (m + n)) ∨
       ((status resp' = 200 ∨ status resp' = 201) ∧
        ∃ e k,
          inventory_audit (persisted w') = e :: inventory_audit (persisted w) ∧
          field "changed_at" e = VStr (toISOString (clock w k)) ∧
          ∀ n, clock w' n = clock w (S k + n)))).
  { intros resp H200 H201. eexists _, _. split; [done|].
    unfold idle. rewrite persisted_written. split.
    - split; [done|]. split; [done|]. by exists kvs, os, A.
    - left. split_and!; [done..|]. exists m. intros n. apply Hm. }
  assert (Hmut : ∀ resp os' e t us,
    (status resp = 200 ∨ status resp = 201) →
    Forall (λ o, is_json (VObj o)) os' → is_json e →
    field "changed_at" e = VStr (toISOString (clock (after_load w) t)) →
    ∃ resp' w',
      (Ok resp, written (doc_with kvs os' (e :: A)) (after_load w) us (S t))
      = (Ok resp', w') ∧
      idle w' ∧
      ((status resp' ≠ 200 ∧ status resp' ≠ 201 ∧ persisted w' = persisted w ∧
        ∃ m, ∀ n, clock w' n = clock w (m + n)) ∨
       ((status resp' = 200 ∨ status resp' = 201) ∧
        ∃ e k,
          inventory_audit (persisted w') = e :: inventory_audit (persisted w) ∧
          field "changed_at" e = VStr (toISOString (clock w k)) ∧
          ∀ n, clock w' n = clock w (S k + n)))).
  { intros resp os' e t us Hst Hos' He Hstamp. eexists _, _. split; [done|].
    unfold idle. rewrite persisted_written. split.
    - split; [done|]. apply well_formed_doc_with, is_json_doc_with; try done.
      by constructor.
    - right. split; [done|]. exists e, (m + t). split_and!.
      + rewrite inventory_audit_doc_with, Hp. unfold inventory_audit. by rewrite Ha.
      + by rewrite Hstamp, Hm.
      + intros n. cbn [written clock]. rewrite Hm. f_equal. lia. }
  destruct rq as [req_body|id req_body|id]; cbn [outcome].
  - destruct (negb _ || negb _).
    { eexists _, _. split; [done|]. split; [done|]. left.
      split_and!; [done..|]. by exists 0. }
    destruct (existsb _ os); [by apply Hsame|].
    cbv zeta. apply Hmut; [by right| |by apply is_json_audit_entry, is_json_json_object|done].
    apply Forall_app. split; [done|]. constructor; [|done]. apply is_json_json_object.
  - cbv zeta. destruct (collect_updates req_body) as [|kv updates] eqn:E.
    { eexists _, _. split; [done|]. split; [done|]. left.
      split_and!; [done..|]. by exists 0. }
    destruct (index_where _ os); [|by apply Hsame].
    apply Hmut; [by left| | |done].
    + apply Forall_insert_json; [done|]. apply is_json_json_object.
    + apply is_json_audit_entry; [done|apply is_json_json_object..].
  - cbv zeta. destruct (index_where _ os); [|by apply Hsame].
    apply Hmut; [by left| | |done].
    + apply Forall_insert_json; [done|]. apply is_json_json_object.
    + apply is_json_audit_entry; [done|apply is_json_json_object..].
Qed.

Lemma handle_step u rq w :
  idle w → request_json rq →
  ∃ resp w', handle u rq w = (Ok resp, w') ∧ idle w' ∧
    ((status resp ≠ 200 ∧ status resp ≠ 201 ∧
      persisted w' = persisted w ∧
      ∃ m, ∀ n, clock w' n = clock w (m + n))
     ∨
     ((status resp = 200 ∨ status resp = 201) ∧
      ∃ e k,
        inventory_audit (persisted w') = e :: inventory_audit (persisted w) ∧
        field "changed_at" e = VStr (toISOString (clock w k)) ∧
        ∀ n, clock w' n = clock w (S k + n))).
Proof. intros ? Hrq%request_json_tree. by apply handle_step_tree. Qed.

Lemma handle_idle_tree u rq w : idle w → request_tree rq → idle (handle u rq w).2.
Proof.
  intros Hidle Hrq.
  by destruct (handle_step_tree u rq w Hidle Hrq) as (resp & w' & -> & Hidle' & _).
Qed.
End steps.

(** ** The audit trail is newest-first *)

Section audit_order.
Context `{Host}.

Lemma newest_first_until_weaken now A : newest_first_until now A → newest_first A.
Proof. intros (ts & ? & ? & _). by exists ts. Qed.

(** Where [toISOString] keeps the order of the times up to [limit] (as
    it does up to the end of the year 9999, the year having four
    digits until then), a trail that is newest first and stamped up to
    [limit] is also in the order of the [changed_at] strings
    themselves. *)
Lemma newest_first_strings limit now A :
  (∀ a b, (a ≤ b)%N → (b ≤ limit)%N →
          String.leb (toISOString a) (toISOString b) = true) →
  (now ≤ limit)%N →
  newest_first_until now A → StronglySorted not_older A.
Proof.
  intros Hiso Hnow (ts & Hst & Hsorted & Hbound). revert Hsorted Hbound.
  induction Hst as [|e t A ts He Hst IH]; intros Hsorted Hbound; [constructor|].
  apply StronglySorted_inv in Hsorted as [Hsorted Hall].
  apply Forall_cons in Hbound as [Ht Hbound].
  constructor; [by apply IH|].
  clear IH Hsorted Hbound. induction Hst as [|e' t' A ts He' Hst IH]; [constructor|].
  apply Forall_cons in Hall as [Ht' Hall]. constructor; [|by apply IH].
  exists (toISOString t), (toISOString t'). split_and!; [done..|].
  apply Hiso; [done|]. by etrans.
Qed.

Lemma handle_newest_first u rq w :
  idle w → request_tree rq → monotone (clock w) →
  newest_first_until (clock w 0) (inventory_audit (persisted w)) →
  let w' := (handle u rq w).2 in
  idle w' ∧ (∃ m, ∀ n, clock w' n = clock w (m + n)) ∧
  newest_first_until (clock w' 0) (inventory_audit (persisted w')).
Proof.
  intros Hidle Hrq Hmono (ts & Hst & Hsorted & Hbound).
  destruct (handle_step_tree u rq w Hidle Hrq) as (resp & w' & -> & Hidle' & Hcase).
  cbn [snd]. split; [done|].
  destruct Hcase as [(_ & _ & -> & m & Hm) | (_ & e & k & -> & He & Hk)].
  - split; [by exists m|].
    exists ts. split_and!; [done..|].
    eapply Forall_impl; [exact Hbound|]. intros t Ht. cbn beta in *.
    rewrite Hm. etrans; [exact Ht|]. apply Hmono. lia.
  - split; [by exists (S k)|].
    exists (clock w k :: ts). split_and!.
    + by constructor.
    + constructor; [done|]. eapply Forall_impl; [exact Hbound|].
      intros t Ht. cbn beta in *. etrans; [exact Ht|]. apply Hmono. lia.
    + constructor.
      * rewrite Hk. apply Hmono. lia.
      * eapply Forall_impl; [exact Hbound|]. intros t Ht. cbn beta in *.
        rewrite Hk. etrans; [exact Ht|]. apply Hmono. lia.
Qed.

Lemma serve_idle u rqs w : idle w → Forall request_tree rqs → idle (serve u rqs w).
Proof.
  intros Hidle Hrqs. revert w Hidle.
  induction Hrqs as [|rq rqs Hrq _ IH]; intros w Hidle; [done|].
  unfold serve. cbn [fold_left]. by apply IH, handle_idle_tree.
Qed.

Lemma serve_newest_first u rqs w :
  idle w → Forall request_tree rqs → monotone (clock w) →
  newest_first_until (clock w 0) (inventory_audit (persisted w)) →
  let w' := serve u rqs w in
  (∃ m, ∀ n, clock w' n = clock w (m + n)) ∧
  newest_first_until (clock w' 0) (inventory_audit (persisted w')).
Proof.
  intros Hidle Hrqs. revert w Hidle.
  induction Hrqs as [|rq rqs Hrq _ IH]; intros w Hidle Hmono Hnf.
  { split; [by exists 0|done]. }
  destruct (handle_newest_first u rq w) as (Hidle' & [m Hm] & Hnf'); [done..|].
  unfold serve. cbn [fold_left].
  destruct (IH (handle u rq w).2) as ([m' Hm'] & Hnf''); [done| |done|].
  { intros i j Hij. rewrite !Hm. apply Hmono. lia. }
  split; [|done]. exists (m + m'). intros n.
  unfold serve in Hm'. rewrite Hm', Hm. f_equal. lia.
Qed.

(** C2, as the code has it.  From an idle store, after any sequence
    of requests, a further request that succeeds (create, update or
    soft delete) puts exactly one entry in front of the trail and
    leaves every entry that was there as it was, whatever the clock
    does.  The trail is newest-first by [changed_at] provided the
    clock never runs backwards and the trail at the start was
    newest-first and held no stamp later than the clock: then the
    times stamped never increase along the trail, and neither do the
    [changed_at] strings, in the order of strings, as long as the
    clock stays below a time up to which [toISOString] keeps the
    order. *)
Theorem audit_prepended_newest_first u rqs w :
  idle w → Forall request_parsed rqs →
  let w1 := serve u rqs w in
  (∀ rq resp w2,
     request_parsed rq → handle u rq w1 = (Ok resp, w2) →
     status resp = 200 ∨ status resp = 201 →
     ∃ e, inventory_audit (persisted w2) = e :: inventory_audit (persisted w1)) ∧
  (monotone (clock w) →
   newest_first_until (clock w 0) (inventory_audit (persisted w)) →
   newest_first (inventory_audit (persisted w1)) ∧
   ∀ limit,
     (∀ n, (clock w n ≤ limit)%N) →
     (∀ a b, (a ≤ b)%N → (b ≤ limit)%N →
             String.leb (toISOString a) (toISOString b) = true) →
     StronglySorted not_older (inventory_audit (persisted w1))).
Proof.
  intros Hidle Hrqs. cbv zeta.
  assert (Htree : Forall request_tree rqs).
  { eapply Forall_impl; [exact Hrqs|]. apply request_parsed_tree. }
  split.
  - intros rq resp w2 Hrq%request_parsed_tree Hrun Hok.
    destruct (handle_step_tree u rq _ (serve_idle u rqs w Hidle Htree) Hrq)
      as (resp' & w' & Hrun' & _ & Hcase).
    rewrite Hrun in Hrun'. injection Hrun' as <- <-.
    destruct Hcase as [(H200 & H201 & _) | (_ & e & k & He & _)].
    + by destruct Hok.
    + by exists e.
  - intros Hmono Hnf.
    destruct (serve_newest_first u rqs w) as ([m Hm] & Hnf1); [done..|].
    split; [by eapply newest_first_until_weaken|].
    intros limit Hlimit Hiso.
    apply (newest_first_strings limit (clock (serve u rqs w) 0)); [done| |done].
    rewrite Hm. apply Hlimit.
Qed.
End audit_order.

(** ** Loading a missing or an unreadable store *)

(** C9. With no file in place, [loadDb] returns the fresh empty document
    and touches nothing.  With a file that does not parse, it does not
    raise: it returns the same fresh empty document, the file is gone
    from its place and sits, unchanged, under the name
    [data.json.corrupt.<time in ms>], and every other file is as it
    was. *)
Theorem loadDb_missing_or_corrupt w :
  (files w !! DB_FILE = None →
   loadDb w = (Ok (Database empty_document []), w)) ∧
  (∀ raw, files w !! DB_FILE = Some (Garbage raw) →
   ∃ w', loadDb w = (Ok (Database empty_document []), w') ∧
     let aside := DB_FILE +:+ ".corrupt." +:+ pretty (clock w 0) in
     files w' !! DB_FILE = None ∧
     files w' !! aside = Some (Garbage raw) ∧
     ∀ p, p ≠ DB_FILE → p ≠ aside → files w' !! p = files w !! p).
Proof.
  split.
  - intros Hnone. rewrite loadDb_run. unfold persisted, after_load.
    by rewrite Hnone.
  - intros raw Hraw. eexists. rewrite loadDb_run. unfold persisted, after_load.
    rewrite Hraw. split; [done|]. cbn [files]. split_and!.
    + rewrite lookup_insert_ne by done. apply lookup_delete_eq.
    + apply lookup_insert_eq.
    + intros p Hp Hp'. rewrite lookup_insert_ne by done. by apply lookup_delete_ne.
Qed.

(** ** A PATCH without an allow-listed field *)

Lemma collect_updates_none req_body :
  (∀ k, k ∈ allowed → has k req_body = false) → collect_updates req_body = [].
Proof.
  intros Hnone. destruct (collect_updates_spec req_body) as [Hkeys _].
  destruct (collect_updates req_body) as [|[k v] updates]; [done|].
  assert (Hk : k ∈ filter (λ k, has k req_body = true) allowed).
  { rewrite <- Hkeys. by left. }
  apply list_elem_of_filter in Hk as [Hk Hin]. rewrite Hnone in Hk; done.
Qed.

(** C8. A PATCH whose body has none of the allow-listed fields is
    answered with 400 [NO_UPDATES] and leaves the world exactly as it
    was, whatever that is: it does not wait for the slot even when it is
    taken, the store is neither read (an unreadable file stays in place)
    nor written, and no audit entry is made. *)
Theorem patch_without_updates `{Host} u id req_body w :
  (∀ k, k ∈ allowed → has k req_body = false) →
  handle u (PATCH id req_body) w
  = (Ok (Response 400 (VObj [("code", VStr "NO_UPDATES");
                             ("message", VStr "No valid fields")])), w).
Proof.
  intros Hnone. cbn [handle]. unfold patch_inventory.
  by rewrite (collect_updates_none req_body Hnone).
Qed.

(** ** A request refused inside the transaction *)

Section refused.
Context `{Host}.

Lemma handle_transaction u rq fn :
  transaction u rq = Some fn →
  handle u rq = ('(r, db) ← withDb fn; mret (res_json (store db) r)).
Proof.
  destruct rq as [req_body|id req_body|id]; cbn [transaction handle].
  - unfold post_inventory. destruct (negb _ || negb _); [done|]. by intros [= <-].
  - unfold patch_inventory. destruct (Nat.eqb _ 0); [done|]. by intros [= <-].
  - by intros [= <-].
Qed.

(** C10. When the callback of a request answers [DUPLICATE_SKU] (409) or
    [NOT_FOUND] (404), it hands back the loaded document untouched and
    has drawn neither an identifier nor a clock reading; [withDb] then
    writes the store all the same, and what it writes is the document
    that was stored. *)
Theorem refused_request_changes_nothing u rq w fn r db' w1 :
  idle w → request_json rq →
  transaction u rq = Some fn →
  fn (thaw (persisted w)) (set_locked true (after_load w)) = (Ok (r, db'), w1) →
  status r = 409 ∨ status r = 404 →
  db' = thaw (persisted w) ∧ w1 = set_locked true (after_load w) ∧
  ∃ resp w', handle u rq w = (Ok resp, w') ∧ status resp = status r ∧
    files w' !! DB_FILE = Some (Json (persisted w)) ∧
    persisted w' = persisted w.
Proof.
  intros [Hl (Hj & kvs & os & A & Hp & Hi & Ha)] Hrq Hfn Hrun Hst.
  rewrite Hp in Hj. rewrite (handle_run u rq w kvs os A) by done.
  rewrite Hp, (thaw_well_formed kvs os Hi) in *. fold (loaded kvs os) in *.
  destruct rq as [req_body|id req_body|id]; cbn [transaction outcome] in *.
  - destruct (negb _ || negb _); [done|]. injection Hfn as <-.
    rewrite (post_inventory_fn_run _ _ _ _ _ A) in Hrun by done.
    destruct (existsb _ os).
    + injection Hrun as <- <- <-. split_and!; [done..|].
      eexists _, _. split; [done|]. rewrite persisted_written. split_and!; [done| |done].
      cbn [written files]. apply lookup_insert_eq.
    + cbv zeta in Hrun. injection Hrun as <- _ _. by destruct Hst.
  - cbv zeta. destruct (collect_updates req_body) as [|kv updates] eqn:E; [done|].
    cbn [keys map length Nat.eqb] in Hfn. injection Hfn as <-.
    rewrite (patch_inventory_fn_run _ _ _ _ _ A) in Hrun by done.
    destruct (index_where _ os) as [l|].
    + destruct (os !! l); [|done]. cbv zeta in Hrun.
      injection Hrun as <- _ _. by destruct Hst.
    + injection Hrun as <- <- <-. split_and!; [done..|].
      eexists _, _. split; [done|]. rewrite persisted_written. split_and!; [done| |done].
      cbn [written files]. apply lookup_insert_eq.
  - injection Hfn as <-.
    rewrite (delete_inventory_fn_run _ _ _ _ A) in Hrun by done.
    destruct (index_where _ os) as [l|].
    + destruct (os !! l); [|done]. cbv zeta in Hrun.
      injection Hrun as <- _ _. by destruct Hst.
    + injection Hrun as <- <- <-. split_and!; [done..|].
      eexists _, _. split; [done|]. rewrite persisted_written. split_and!; [done| |done].
      cbn [written files]. apply lookup_insert_eq.
Qed.
End refused.

(** ** The items of the stored document *)

Lemma objects_of_fmap os : objects_of (VObj <$> os) = os.
Proof. induction os as [|o os IH]; [done|]. rewrite fmap_cons. simpl. by rewrite IH. Qed.

Lemma items_doc_with kvs os A : items (doc_with kvs os A) = os.
Proof. unfold items. by rewrite inventory_items_doc_with, objects_of_fmap. Qed.

Lemma items_well_formed kvs os :
  get "inventory_items" kvs = VArr (VObj <$> os) → items (VObj kvs) = os.
Proof. intros Hi. unfold items, inventory_items. by rewrite Hi, objects_of_fmap. Qed.

Lemma audit_well_formed kvs A :
  get "inventory_audit" kvs = VArr A → inventory_audit (VObj kvs) = A.
Proof. intros Ha. unfold inventory_audit. by rewrite Ha. Qed.

(** A store that holds an item holds a readable file: loading it moves
    nothing. *)
Lemma after_load_items w i o : items (persisted w) !! i = Some o → after_load w = w.
Proof.
  unfold persisted, after_load.
  by destruct (files w !! DB_FILE) as [[doc|raw]|].
Qed.

Lemma get_json_object k o v v' :
  get k o = v → JSON_tree v = Some v' → get k (json_object o) = v'.
Proof.
  intros <-. unfold json_object.
  induction o as [|[k' x] o IH]; cbn [get json_fields]; [done|].
  destruct (String.eqb k k') eqn:E.
  - intros ->. cbn [get]. by rewrite E.
  - intros Hv. destruct (JSON_tree x); [|by apply IH].
    cbn [get]. rewrite E. by apply IH.
Qed.

Lemma truthy_defined v : truthy v = true → v ≠ VUndefined ∧ v ≠ VNull.
Proof. by destruct v. Qed.

(** A field of a stored item that holds a value is written as it is. *)
Lemma get_json_object_stored k o :
  is_json (VObj o) → get k o ≠ VUndefined →
  ∀ o', get k o' = get k o → get k (json_object o') = get k o.
Proof.
  intros Ho Hk o' Hget. apply (get_json_object k o' (get k o)); [done|].
  by destruct (is_json_get k o Ho).
Qed.

(** ** Soft delete is terminal *)

Section terminal.
Context `{Host}.

(** [toISOString] never returns the empty string. *)
Hypothesis toISOString_nonempty : ∀ t, toISOString t ≠ "".

Lemma truthy_toISOString t : truthy (VStr (toISOString t)) = true.
Proof.
  cbn [truthy]. destruct (String.eqb_spec (toISOString t) ""); [|done].
  by destruct (toISOString_nonempty t).
Qed.

Lemma deleted_at_patched_item updates t u o :
  keys updates ⊆ allowed →
  get "deleted_at" (patched_item updates t u o) = get "deleted_at" o.
Proof.
  intros Hsub. rewrite get_patched_item by done.
  apply get_apply_updates_other. intros Hin%Hsub. revert Hin.
  by apply (bool_decide_unpack ("deleted_at" ∉ allowed)).
Qed.

Lemma deleted_at_deleted_item t u o :
  get "deleted_at" (deleted_item t u o) = VStr t.
Proof.
  unfold deleted_item. cbv zeta. rewrite !get_set_ne by done. apply get_set_eq.
Qed.

Lemma handle_keeps_deleted u rq w i o :
  idle w → request_json rq →
  items (persisted w) !! i = Some o →
  truthy (get "deleted_at" o) = true →
  ∃ o', items (persisted (handle u rq w).2) !! i = Some o' ∧
        truthy (get "deleted_at" o') = true.
Proof.
  intros [Hl (Hj & kvs & os & A & Hp & Hi & Ha)] Hrq Ho Hdel.
  rewrite Hp in Hj. rewrite (handle_run u rq w kvs os A) by done.
  rewrite Hp, (items_well_formed kvs os Hi) in Ho.
  pose proof (is_json_items _ _ Hj Hi) as Hos.
  assert (Hsame : ∃ o', items (VObj kvs) !! i = Some o' ∧
                        truthy (get "deleted_at" o') = true).
  { exists o. by rewrite (items_well_formed kvs os Hi). }
  assert (Hoj : is_json (VObj o)).
  { rewrite Forall_forall in Hos. apply Hos. by eapply list_elem_of_lookup_2. }
  assert (Hmut : ∀ l item,
    (l = i → truthy (get "deleted_at" item) = true) →
    ∃ o', <[l := item]> os !! i = Some o' ∧ truthy (get "deleted_at" o') = true).
  { intros l item Hitem. destruct (decide (l = i)) as [->|Hne].
    - exists item. split; [|by apply Hitem].
      apply list_lookup_insert_eq. by eapply lookup_lt_Some.
    - exists o. by rewrite list_lookup_insert_ne. }
  destruct rq as [req_body|id req_body|id]; cbn [outcome].
  - destruct (negb _ || negb _); cbn [snd]; [by rewrite Hp|].
    destruct (existsb _ os); cbn [snd]; rewrite persisted_written; [done|].
    rewrite items_doc_with. exists o. split; [|done].
    rewrite lookup_app_l; [done|]. by eapply lookup_lt_Some.
  - cbv zeta. destruct (collect_updates req_body) as [|kv updates] eqn:E;
      cbn [snd]; [by rewrite Hp|]. rewrite <- E.
    destruct (index_where _ os) as [l|]; cbn [snd]; rewrite persisted_written; [|done].
    rewrite items_doc_with. apply Hmut. intros ->. rewrite Ho. cbn [default].
    erewrite get_json_object; [exact Hdel| |].
    + apply deleted_at_patched_item. intros k. apply keys_collect_updates_allowed.
    + destruct (is_json_get "deleted_at" o Hoj) as [E'|E']; [|done].
      by rewrite E' in Hdel.
  - cbv zeta.
    destruct (index_where _ os) as [l|]; cbn [snd]; rewrite persisted_written; [|done].
    rewrite items_doc_with. apply Hmut. intros ->.
    erewrite (get_json_object _ _ (VStr _) (VStr _));
      [apply truthy_toISOString|apply deleted_at_deleted_item|reflexivity].
Qed.

Lemma handle_idle u rq w : idle w → request_json rq → idle (handle u rq w).2.
Proof.
  intros Hidle Hrq.
  by destruct (handle_step u rq w Hidle Hrq) as (resp & w' & -> & Hidle' & _).
Qed.

(** C7. On an idle store, an item whose [deleted_at] is set (truthy, the
    DELETED state) still has it set, and in particular not [null],
    after any sequence of requests.  A DELETE of an item that is
    already deleted is answered with 200 and overwrites [deleted_at]
    with the ISO string of the clock reading taken then. *)
Theorem deleted_is_terminal u w i o :
  idle w →
  items (persisted w) !! i = Some o →
  truthy (get "deleted_at" o) = true →
  (∀ rqs, Forall request_json rqs →
     ∃ o', items (persisted (serve u rqs w)) !! i = Some o' ∧
           truthy (get "deleted_at" o') = true ∧
           get "deleted_at" o' ≠ VNull) ∧
  (∀ id, index_where (has_id id) (items (persisted w)) = Some i →
     ∃ w' o', handle u (DELETE id) w
              = (Ok (Response 200 (VObj [("ok", VBool true)])), w') ∧
              items (persisted w') !! i = Some o' ∧
              get "deleted_at" o' = VStr (toISOString (clock w 0))).
Proof.
  intros Hidle Ho Hdel. split.
  - intros rqs Hrqs. revert w o Hidle Ho Hdel.
    induction Hrqs as [|rq rqs Hrq _ IH]; intros w o Hidle Ho Hdel.
    + exists o. split_and!; [done..|]. by apply truthy_defined.
    + destruct (handle_keeps_deleted u rq w i o) as (o1 & Ho1 & Hdel1); [done..|].
      unfold serve. cbn [fold_left].
      by apply (IH _ o1); [apply handle_idle|..].
  - intros id Hfind. pose proof (after_load_items w i o Ho) as Hload.
    destruct Hidle as [Hl (Hj & kvs & os & A & Hp & Hi & Ha)].
    rewrite Hp in Hj. rewrite (handle_run u (DELETE id) w kvs os A) by done.
    rewrite Hp, (items_well_formed kvs os Hi) in Ho, Hfind.
    cbn [outcome]. cbv zeta. rewrite Hfind, Hload, Ho. cbn [default].
    eexists _, _. split; [done|]. rewrite persisted_written, items_doc_with.
    split.
    + apply list_lookup_insert_eq. by eapply lookup_lt_Some.
    + erewrite (get_json_object _ _ (VStr _) (VStr _));
        [reflexivity|apply deleted_at_deleted_item|reflexivity].
Qed.
End terminal.

(** ** The snapshot in an audit entry *)

Section snapshot.
Context `{Host}.

Lemma serve_audit_suffix u rqs w :
  idle w → Forall request_json rqs →
  ∃ newer, inventory_audit (persisted (serve u rqs w))
           = newer ++ inventory_audit (persisted w).
Proof.
  intros Hidle Hrqs. revert w Hidle.
  induction Hrqs as [|rq rqs Hrq _ IH]; intros w Hidle; [by exists []|].
  destruct (handle_step u rq w Hidle Hrq) as (resp & w' & Hrun & Hidle' & Hcase).
  unfold serve. cbn [fold_left]. rewrite Hrun. cbn [snd].
  destruct (IH w' Hidle') as [newer Hnewer]. fold (serve u rqs w'). rewrite Hnewer.
  destruct Hcase as [(_ & _ & -> & _) | (_ & e & k & -> & _)].
  - by exists newer.
  - exists (newer ++ [e]). by rewrite <- app_assoc.
Qed.

(** C4. A request that succeeds puts in front of the trail an entry
    whose [full_record] is the item as the stored document now has it,
    at the one position where the items changed; and whatever requests
    follow, that entry and all older ones stay in the trail as they
    are. *)
Theorem full_record_is_independent_snapshot u rq w resp w' :
  idle w → request_json rq →
  handle u rq w = (Ok resp, w') →
  status resp = 200 ∨ status resp = 201 →
  ∃ e item i,
    inventory_audit (persisted w') = e :: inventory_audit (persisted w) ∧
    field "full_record" e = VObj item ∧
    items (persisted w') !! i = Some item ∧
    (∀ j, j ≠ i → items (persisted w') !! j = items (persisted w) !! j) ∧
    ∀ rqs, Forall request_json rqs →
      ∃ newer, inventory_audit (persisted (serve u rqs w'))
               = newer ++ e :: inventory_audit (persisted w).
Proof.
  intros Hidle Hrq Hrun Hok.
  assert (Hidle' : idle w').
  { pose proof (handle_idle u rq w Hidle Hrq) as Hi. by rewrite Hrun in Hi. }
  assert (Hlater : ∀ e,
    inventory_audit (persisted w') = e :: inventory_audit (persisted w) →
    ∀ rqs, Forall request_json rqs →
      ∃ newer, inventory_audit (persisted (serve u rqs w'))
               = newer ++ e :: inventory_audit (persisted w)).
  { intros e He rqs Hrqs.
    destruct (serve_audit_suffix u rqs w' Hidle' Hrqs) as [newer Hnewer].
    exists newer. by rewrite Hnewer, He. }
  destruct Hidle as [Hl (Hj & kvs & os & A & Hp & Hi & Ha)].
  rewrite Hp in Hj. rewrite (handle_run u rq w kvs os A) in Hrun by done.
  rewrite Hp, (items_well_formed kvs os Hi), (audit_well_formed kvs A Ha) in *.
  destruct rq as [req_body|id req_body|id]; cbn [outcome] in Hrun.
  - destruct (negb _ || negb _).
    { injection Hrun as <- <-. by destruct Hok. }
    destruct (existsb _ os).
    { injection Hrun as <- <-. by destruct Hok. }
    cbv zeta in Hrun. injection Hrun as <- <-.
    rewrite persisted_written, inventory_audit_doc_with, items_doc_with in *.
    eexists _, _, (length os). split_and!; [done|done| | |by apply Hlater].
    + by rewrite lookup_app_r, Nat.sub_diag by lia.
    + intros j Hj'. destruct (decide (j < length os)%nat).
      * by rewrite lookup_app_l.
      * rewrite lookup_ge_None_2 by (rewrite length_app; simpl; lia).
        by rewrite lookup_ge_None_2 by lia.
  - cbv zeta in Hrun. destruct (collect_updates req_body) as [|kv updates] eqn:E.
    { injection Hrun as <- <-. by destruct Hok. }
    destruct (index_where _ os) as [l|] eqn:Hfind.
    2:{ injection Hrun as <- <-. by destruct Hok. }
    injection Hrun as <- <-.
    rewrite persisted_written, inventory_audit_doc_with, items_doc_with in *.
    apply index_where_Some in Hfind as (o & Hlo & _).
    eexists _, _, l. split_and!; [done|done| | |by apply Hlater].
    + apply list_lookup_insert_eq. by eapply lookup_lt_Some.
    + intros j Hj'. by apply list_lookup_insert_ne.
  - cbv zeta in Hrun. destruct (index_where _ os) as [l|] eqn:Hfind.
    2:{ injection Hrun as <- <-. by destruct Hok. }
    injection Hrun as <- <-.
    rewrite persisted_written, inventory_audit_doc_with, items_doc_with in *.
    apply index_where_Some in Hfind as (o & Hlo & _).
    eexists _, _, l. split_and!; [done|done| | |by apply Hlater].
    + apply list_lookup_insert_eq. by eapply lookup_lt_Some.
    + intros j Hj'. by apply list_lookup_insert_ne.
Qed.
End snapshot.

(** ** The diff of an UPDATE *)

Section diff.
Context `{Host}.

End diff.

(** ** Duplicate SKUs *)

Lemma existsb_elem_of {A} (q : A → bool) (l : list A) :
  existsb q l = true ↔ ∃ x, x ∈ l ∧ q x = true.
Proof.
  induction l as [|x l IH]; simpl.
  - split; [done|]. by intros (x & ?%elem_of_nil & _).
  - rewrite orb_true_iff, IH. split.
    + intros [Hx|(y & Hy & Hq)]; [exists x|exists y]; split; try done; by constructor.
    + intros (y & [->|Hy]%elem_of_cons & Hq); [by left|right; by exists y].
Qed.

Lemma existsb_false_Forall {A} (q : A → bool) (l : list A) :
  existsb q l = false ↔ Forall (λ x, q x = false) l.
Proof.
  induction l as [|x l IH]; simpl; [by split|].
  rewrite orb_false_iff, IH, Forall_cons. done.
Qed.




Section duplicates.
Context `{Host}.
Hypothesis toISOString_nonempty : ∀ t, toISOString t ≠ "".

Lemma post_status u req_body w :
  idle w →
  truthy (get "sku" req_body) = true →
  truthy (get "product_name" req_body) = true →
  ∃ resp w', handle u (POST req_body) w = (Ok resp, w') ∧
    if existsb (active_with_sku (get "sku" req_body)) (items (persisted w))
    then resp = duplicate_sku
    else status resp = 201.
Proof.
  intros [Hl (Hj & kvs & os & A & Hp & Hi & Ha)] Hsku Hname.
  rewrite Hp in Hj. rewrite (handle_run_tree u (POST req_body) w kvs os A) by done.
  rewrite Hp, (items_well_formed kvs os Hi).
  cbn [outcome]. rewrite Hsku, Hname. cbn [negb orb].
  destruct (existsb _ os); eexists _, _; by split.
Qed.

End duplicates.

(** ** What a POST stores *)

Lemma get_Object_assign k target src :
  NoDup (keys src) →
  get k (Object_assign target src)
  = if has k src && negb (String.eqb k "__proto__") then get k src else get k target.
Proof.
  unfold Object_assign. revert target.
  induction src as [|[k' v] src IH]; intros target Hnd; cbn [fold_left]; [done|].
  cbn [keys map fst] in Hnd. apply NoDup_cons in Hnd as [Hk' Hnd].
  rewrite IH by done. cbn [has get fst snd].
  destruct (String.eqb k k') eqn:E; cbn [orb].
  - apply String.eqb_eq in E as ->.
    destruct (has k' src) eqn:E'; [by apply has_keys in E'|]. cbn [andb].
    destruct (String.eqb k' "__proto__"); [done|]. apply get_assign_eq.
  - destruct (has k src && negb (String.eqb k "__proto__")); [done|].
    destruct (String.eqb k' "__proto__"); [done|].
    apply get_assign_ne. by apply String.eqb_neq.
Qed.

(** The request body wins over every generated field: whatever key the
    body has, other than [__proto__], the stored record holds the body's
    value for it. *)
Lemma new_item_body_wins k id created_at updated_at user_id req_body :
  NoDup (keys req_body) → has k req_body = true → k ≠ "__proto__" →
  get k (new_item id created_at updated_at user_id req_body) = get k req_body.
Proof.
  intros Hnd Hk Hp%String.eqb_neq. unfold new_item.
  by rewrite get_Object_assign, Hk, Hp.
Qed.

(** * Examples *)

Lemma fresh_world_idle : idle fresh_world.
Proof. split; [done|]. apply empty_document_well_formed. Qed.

Lemma sample_host_nonempty t : @toISOString sample_host t ≠ "".
Proof. done. Qed.

(** C3, at an input where the code departs from it.  A POST whose body
    also carries [item_id], [deleted_at] and [created_by] is answered with
    201, and the item returned and stored has the body's values for all
    three: its [item_id] is not the generated one (which the audit entry
    records), it is born deleted, and it names another creator. *)
Lemma post_body_overrides_generated_fields :
  let req_body := widget ++ [("item_id", VStr "X");
                             ("deleted_at", VStr "2000-01-01T00:00:00.000Z");
                             ("created_by", VStr "mallory")] in
  let '(r, w) := @handle sample_host admin (POST req_body) fresh_world in
  ∃ item, r = Ok (Response 201 (VObj item)) ∧
    items (persisted w) = [item] ∧
    get "item_id" item = VStr "X" ∧
    get "deleted_at" item = VStr "2000-01-01T00:00:00.000Z" ∧
    get "created_by" item = VStr "mallory" ∧
    field "item_id" (hd VUndefined (inventory_audit (persisted w))) = VStr "uuid-0".
Proof. vm_compute. eexists. by split_and!. Qed.

Lemma stocked_world_idle : @idle stocked_world.
Proof. apply (@handle_idle sample_host); [exact fresh_world_idle | reflexivity]. Qed.

(** [Object.assign] at work: the keys of the source that are array
    indices go first, in ascending order; a key that the target has
    keeps its place and takes the value of the source; the key
    [__proto__] of the source leaves no property. *)
Lemma Object_assign_example :
  Object_assign
    [("item_id", VStr "i"); ("deleted_at", VNull)]
    [("2", VBool true); ("sku", VStr "A1"); ("__proto__", VObj [("sku", VNull)]);
     ("1", VBool false); ("deleted_at", VStr "")]
  = [("1", VBool false); ("2", VBool true); ("item_id", VStr "i");
     ("deleted_at", VStr ""); ("sku", VStr "A1")].
Proof. reflexivity. Qed.

Lemma sample_requests_parsed : Forall request_parsed sample_requests.
Proof. repeat apply Forall_cons_2; [reflexivity..|exact I|apply Forall_nil_2]. Qed.

Lemma sample_host_digits a b :
  (a ≤ b)%N → (b ≤ 9)%N →
  String.leb (@toISOString sample_host a) (@toISOString sample_host b) = true.
Proof.
  intros Hab Hb. rewrite <- (N2Nat.id a), <- (N2Nat.id b).
  assert (Hij : (N.to_nat a ≤ N.to_nat b ≤ 9)%nat) by lia.
  revert Hij. generalize (N.to_nat a) (N.to_nat b). clear. intros i j Hij.
  do 10 (destruct j as [|j];
         [do 10 (destruct i as [|i]; [first [lia|vm_compute; reflexivity]|]); lia|]).
  lia.
Qed.

(** The sample requests under a clock that ticks up to 9: a further
    DELETE puts one entry in front of the trail, and the trail is
    newest-first, by the times and by the strings. *)
Lemma audit_prepended_newest_first_witness :
  let w1 := @serve sample_host admin sample_requests bounded_world in
  (∃ e, inventory_audit (persisted (@handle sample_host admin (DELETE "uuid-0") w1).2)
        = e :: inventory_audit (persisted w1)) ∧
  @newest_first sample_host (inventory_audit (persisted w1)) ∧
  StronglySorted not_older (inventory_audit (persisted w1)).
Proof.
  destruct (@audit_prepended_newest_first sample_host admin sample_requests bounded_world)
    as (Hnext & Horder).
  - split; [done|]. apply empty_document_well_formed.
  - exact sample_requests_parsed.
  - destruct Horder as (Hnf & Hstr).
    + intros i j Hij. cbn [clock bounded_world]. lia.
    + exists []. repeat constructor.
    + split_and!; [|exact Hnf|].
      * apply (Hnext (DELETE "uuid-0") (Response 200 (VObj [("ok", VBool true)])));
          [exact I| |left; reflexivity].
        vm_compute. reflexivity.
      * apply (Hstr 9%N); [|exact sample_host_digits].
        intros n. cbn [clock bounded_world]. lia.
Defined.

(** C2, as stated, where the clock is set back between two requests.  A
    POST at time 200 and a DELETE at time 100 both succeed, and each
    puts its entry in front of the trail: the trail then has the entry
    stamped [T100] before the entry stamped [T200], the older stamp
    first, by the times and by the strings. *)
Lemma clock_set_back_breaks_newest_first :
  let r1 := @handle sample_host admin (POST widget) rewound_world in
  let r2 := @handle sample_host admin (DELETE "uuid-0") r1.2 in
  idle rewound_world ∧
  (∃ item, r1.1 = Ok (Response 201 item)) ∧
  r2.1 = Ok (Response 200 (VObj [("ok", VBool true)])) ∧
  (∃ e1 e2,
     inventory_audit (persisted r1.2) = [e1] ∧
     inventory_audit (persisted r2.2) = [e2; e1] ∧
     field "operation" e1 = VStr "CREATE" ∧ field "changed_at" e1 = VStr "T200" ∧
     field "operation" e2 = VStr "DELETE" ∧ field "changed_at" e2 = VStr "T100") ∧
  ¬ @newest_first sample_host (inventory_audit (persisted r2.2)) ∧
  ¬ StronglySorted not_older (inventory_audit (persisted r2.2)).
Proof.
  cbv zeta. split_and!.
  - split; [done|]. apply empty_document_well_formed.
  - eexists. vm_compute. reflexivity.
  - vm_compute. reflexivity.
  - eexists _, _. split_and!; vm_compute; reflexivity.
  - intros (ts & Hst & Hsorted).
    assert (Htrail : ∃ e1 e2,
      inventory_audit (persisted (@handle sample_host admin (DELETE "uuid-0")
        (@handle sample_host admin (POST widget) rewound_world).2).2) = [e2; e1] ∧
      field "changed_at" e1 = VStr "T200" ∧ field "changed_at" e2 = VStr "T100").
    { eexists _, _. split_and!; vm_compute; reflexivity. }
    destruct Htrail as (e1 & e2 & Htrail & H1 & H2). rewrite Htrail in Hst.
    apply Forall2_cons_inv_l in Hst as (t2 & ts' & Ht2 & Hst & ->).
    apply Forall2_cons_inv_l in Hst as (t1 & ts'' & Ht1 & Hst & ->).
    apply Forall2_nil_inv_l in Hst as ->.
    rewrite H2 in Ht2. rewrite H1 in Ht1.
    assert (t2 = 100%N) as ->.
    { apply (inj pretty). by injection Ht2. }
    assert (t1 = 200%N) as ->.
    { apply (inj pretty). by injection Ht1. }
    apply StronglySorted_inv in Hsorted as [_ Hall].
    apply Forall_cons in Hall as [Hle _]. lia.
  - intros Hsorted.
    assert (Htrail : ∃ e1 e2,
      inventory_audit (persisted (@handle sample_host admin (DELETE "uuid-0")
        (@handle sample_host admin (POST widget) rewound_world).2).2) = [e2; e1] ∧
      field "changed_at" e1 = VStr "T200" ∧ field "changed_at" e2 = VStr "T100").
    { eexists _, _. split_and!; vm_compute; reflexivity. }
    destruct Htrail as (e1 & e2 & Htrail & H1 & H2). rewrite Htrail in Hsorted.
    apply StronglySorted_inv in Hsorted as [_ Hall].
    apply Forall_cons in Hall as [(s2 & s1 & Hs2 & Hs1 & Hle) _].
    rewrite H2 in Hs2. rewrite H1 in Hs1.
    injection Hs2 as <-. injection Hs1 as <-. vm_compute in Hle. discriminate Hle.
Qed.

(** A PATCH of the widget. *)
Lemma full_record_is_independent_snapshot_witness :
  let rq := PATCH "uuid-0" [("quantity", VNum 5)] in
  let w' := (@handle sample_host admin rq stocked_world).2 in
  ∃ e item i,
    inventory_audit (persisted w') = e :: inventory_audit (persisted stocked_world) ∧
    field "full_record" e = VObj item ∧
    items (persisted w') !! i = Some item ∧
    (∀ j, j ≠ i → items (persisted w') !! j = items (persisted stocked_world) !! j) ∧
    ∀ rqs, Forall request_json rqs →
      ∃ newer, inventory_audit (persisted (@serve sample_host admin rqs w'))
               = newer ++ e :: inventory_audit (persisted stocked_world).
Proof.
  cbv zeta.
  eapply (@full_record_is_independent_snapshot sample_host admin
            (PATCH "uuid-0" [("quantity", VNum 5)]) stocked_world).
  - exact stocked_world_idle.
  - reflexivity.
  - vm_compute. reflexivity.
  - left. reflexivity.
Defined.






Lemma cleared_world_idle : @idle cleared_world.
Proof. apply (@handle_idle sample_host); [exact stocked_world_idle | exact I]. Qed.

(** The deleted widget: patched and deleted once more, it stays
    deleted. *)
Lemma deleted_is_terminal_witness :
  (∃ o', items (persisted (@serve sample_host admin
                             [PATCH "uuid-0" [("quantity", VNum 7)]; DELETE "uuid-0"]
                             cleared_world)) !! 0 = Some o' ∧
         truthy (get "deleted_at" o') = true ∧
         get "deleted_at" o' ≠ VNull) ∧
  (∃ w' o', @handle sample_host admin (DELETE "uuid-0") cleared_world
            = (Ok (Response 200 (VObj [("ok", VBool true)])), w') ∧
            items (persisted w') !! 0 = Some o' ∧
            get "deleted_at" o' = VStr (@toISOString sample_host (clock cleared_world 0))).
Proof.
  destruct (@deleted_is_terminal sample_host sample_host_nonempty admin cleared_world 0
              deleted_widget) as [Hstays Hagain].
  - exact cleared_world_idle.
  - vm_compute. reflexivity.
  - vm_compute. reflexivity.
  - split.
    + apply Hstays. repeat constructor.
    + apply Hagain. vm_compute. reflexivity.
Defined.

(** A DELETE of an item that does not exist, on the fresh store. *)
Lemma refused_request_changes_nothing_witness :
  let w := fresh_world in
  thaw (persisted w) = thaw (persisted w) ∧
  set_locked true (after_load w) = set_locked true (after_load w) ∧
  ∃ resp w', @handle sample_host admin (DELETE "missing") w = (Ok resp, w') ∧
    status resp = status not_found ∧
    files w' !! DB_FILE = Some (Json (persisted w)) ∧
    persisted w' = persisted w.
Proof.
  apply (@refused_request_changes_nothing sample_host admin (DELETE "missing")
           fresh_world (@delete_inventory_fn sample_host admin "missing")).
  - exact fresh_world_idle.
  - exact I.
  - reflexivity.
  - vm_compute. reflexivity.
  - right. reflexivity.
Defined.

Lemma no_allowed_field k : k ∈ allowed → has k [("sku", VStr "B2")] = false.
Proof.
  unfold allowed. intros Hk.
  repeat (apply elem_of_cons in Hk as [->|Hk]; [reflexivity|]).
  by apply elem_of_nil in Hk.
Qed.

Lemma patch_without_updates_witness :
  @handle sample_host admin (PATCH "uuid-0" [("sku", VStr "B2")]) stuck_world
  = (Ok (Response 400 (VObj [("code", VStr "NO_UPDATES");
                             ("message", VStr "No valid fields")])), stuck_world).
Proof.
  apply (@patch_without_updates sample_host admin "uuid-0" [("sku", VStr "B2")]
           stuck_world).
  exact no_allowed_field.
Defined.

Lemma loadDb_missing_or_corrupt_witness :
  loadDb fresh_world = (Ok (Database empty_document []), fresh_world) ∧
  ∃ w', loadDb stuck_world = (Ok (Database empty_document []), w') ∧
    files w' !! DB_FILE = None ∧
    files w' !! "data.json.corrupt.0" = Some (Garbage "{") ∧
    ∀ p, p ≠ DB_FILE → p ≠ "data.json.corrupt.0" →
         files w' !! p = files stuck_world !! p.
Proof.
  split.
  - exact (proj1 (loadDb_missing_or_corrupt fresh_world) eq_refl).
  - exact (proj2 (loadDb_missing_or_corrupt stuck_world) "{" eq_refl).
Defined.

(** * Mutual exclusion *)

Lemma holders_app cs1 cs2 : holders (cs1 ++ cs2) = holders cs1 + holders cs2.
Proof. induction cs1 as [|c cs1 IH]; simpl; [done|]. rewrite IH. lia. Qed.

Lemma holders_insert cs i c c' :
  cs !! i = Some c →
  holders (<[i := c']> cs) + (if in_slot c then 1 else 0)
  = holders cs + (if in_slot c' then 1 else 0).
Proof.
  revert i. induction cs as [|c0 cs IH]; intros [|i] Hi; simpl in *; try done.
  - injection Hi as ->. lia.
  - specialize (IH i Hi). lia.
Qed.

Lemma holders_two (cs : list call) (i j : nat) ci cj :
  cs !! i = Some ci → cs !! j = Some cj →
  in_slot ci = true → in_slot cj = true → i ≠ j → (2 ≤ holders cs)%nat.
Proof.
  revert i j. induction cs as [|c cs IH]; intros i j Hi Hj Hci Hcj Hne; [done|].
  assert (Hone : ∀ k ck, cs !! k = Some ck → in_slot ck = true → (1 ≤ holders cs)%nat).
  { clear. induction cs as [|c cs IH]; intros [|k] ck Hk Hck; simpl in *; try done.
    - injection Hk as ->. rewrite Hck. lia.
    - specialize (IH k ck Hk Hck). lia. }
  destruct i as [|i], j as [|j]; simpl in *; try done.
  - injection Hi as ->. rewrite Hci. specialize (Hone j cj Hj Hcj). lia.
  - injection Hj as ->. rewrite Hcj. specialize (Hone i ci Hi Hci). lia.
  - assert (i ≠ j) by congruence. specialize (IH i j Hi Hj Hci Hcj). lia.
Qed.

(** [loadDb] and [saveDb] leave [lock] alone. *)
Lemma loadDb_locked w : locked (loadDb w).2 = locked w.
Proof. rewrite loadDb_run. apply locked_after_load. Qed.

Lemma saveDb_locked db w : locked (saveDb db w).2 = locked w.
Proof. unfold saveDb. by destruct (JSON_roundtrip _ _). Qed.

Lemma enter_spec fn w :
  keeps_lock fn → locked w = false →
  locked (enter fn w).2 = in_slot (Call fn (enter fn w).1).
Proof.
  intros Hfn Hl. unfold enter. rewrite Hl.
  unfold mbind, M_bind.
  pose proof (loadDb_locked (set_locked true w)) as Hload.
  destruct (loadDb (set_locked true w)) as [[db| |] w1]; cbn [snd] in Hload.
  - pose proof (Hfn db w1) as Hrun.
    destruct (fn db w1) as [[[r db']| |] w2]; cbn [snd fst in_slot phase_of] in *;
      [|done|]; by rewrite Hrun, Hload.
  - done.
  - cbn [snd fst in_slot phase_of]. by rewrite Hload.
Qed.

Lemma leave_spec r db w : locked (leave r db w).2 = false.
Proof. unfold leave. by destruct (saveDb db w) as [[| |] ?]. Qed.

Lemma leave_phase fn r db w : in_slot (Call fn (leave r db w).1) = false.
Proof. unfold leave. by destruct (saveDb db w) as [[| |] ?]. Qed.

Lemma step_slot_invariant s s' : step s s' → slot_invariant s → slot_invariant s'.
Proof.
  intros Hstep [Hcount Hfns]. unfold slot_invariant.
  destruct Hstep as [s fn Hfn|s i fn Hi|s i fn Hi|s i fn r db Hi]; cbn [env calls].
  - split.
    + rewrite holders_app. simpl. lia.
    + apply Forall_app. split; [done|]. by constructor.
  - assert (Hfn : keeps_lock fn).
    { rewrite Forall_forall in Hfns. apply (Hfns (Call fn Testing)).
      by eapply list_elem_of_lookup_2. }
    split; [|by apply Forall_insert].
    pose proof (holders_insert _ _ _ (Call fn (enter fn (env s)).1) Hi) as Hins.
    cbn [in_slot phase_of] in Hins.
    destruct (locked (env s)) eqn:Hl.
    + unfold enter in *. rewrite Hl in *. cbn [fst snd in_slot phase_of] in *.
      rewrite Hl. lia.
    + rewrite (enter_spec fn (env s) Hfn Hl).
      cbn [in_slot phase_of] in *. lia.
  - split; [|by apply Forall_insert;
      [|rewrite Forall_forall in Hfns; apply (Hfns (Call fn Sleeping));
        by eapply list_elem_of_lookup_2]].
    pose proof (holders_insert _ _ _ (Call fn Testing) Hi) as Hins.
    cbn [in_slot phase_of] in Hins. lia.
  - split; [|by apply Forall_insert;
      [|rewrite Forall_forall in Hfns; apply (Hfns (Call fn (Holding r db)));
        by eapply list_elem_of_lookup_2]].
    pose proof (holders_insert _ _ _ (Call fn (leave r db (env s)).1) Hi) as Hins.
    rewrite leave_phase in Hins. cbn [in_slot phase_of] in Hins.
    rewrite leave_spec.
    destruct (locked (env s)); lia.
Qed.

Lemma steps_slot_invariant s s' : rtc step s s' → slot_invariant s → slot_invariant s'.
Proof.
  induction 1 as [|s1 s2 s3 Hstep _ IH]; [done|].
  intros Hinv. apply IH. by eapply step_slot_invariant.
Qed.

(** X17. However the calls interleave, no two of them are between their
    load and their save at the same time. *)
Theorem withDb_mutual_exclusion w s i j ci cj :
  locked w = false →
  rtc step (System w []) s →
  calls s !! i = Some ci → calls s !! j = Some cj →
  in_slot ci = true → in_slot cj = true →
  i = j.
Proof.
  intros Hl Hrun Hi Hj Hci Hcj.
  assert (Hinv : slot_invariant s).
  { apply (steps_slot_invariant _ _ Hrun).
    split; [cbn [env calls holders]; by rewrite Hl | done]. }
  destruct (decide (i = j)) as [|Hne]; [done|].
  pose proof (holders_two _ _ _ _ _ Hi Hj Hci Hcj Hne) as Htwo.
  destruct Hinv as [Hcount _]. destruct (locked (env s)); lia.
Qed.

(** A call that finds the slot free, and is resumed before any other call
    runs, has done what [withDb] does when run alone. *)
Lemma enter_leave_withDb fn w r db w1 :
  locked w = false →
  enter fn w = (Holding r db, w1) →
  leave r db w1 = (Returned (result_map fst (withDb fn w).1), (withDb fn w).2).
Proof.
  intros Hl. unfold enter, leave, withDb. rewrite Hl.
  unfold mbind, M_bind.
  destruct (loadDb (set_locked true w)) as [[db0| |] w0]; [|done..].
  destruct (fn db0 w0) as [[[r0 db0']| |] w2]; [|done..].
  intros [= -> -> ->]. by destruct (saveDb db w1) as [[[]| |] w3].
Qed.

Lemma frames_ret {A} (a : A) : frames (mret a).
Proof. done. Qed.

Lemma frames_throw {A} : frames (@throw A).
Proof. done. Qed.

Lemma frames_lift {A} (o : option A) : frames (lift o).
Proof. by destruct o. Qed.

Lemma frames_bind {A B} (m : M A) (k : A → M B) :
  frames m → (∀ a, frames (k a)) → frames (m ≫= k).
Proof.
  intros Hm Hk w. unfold mbind, M_bind. specialize (Hm w).
  destruct (m w) as [[a| |] w1]; cbn [snd] in *; [|done..].
  by rewrite Hk.
Qed.

Lemma frames_randomUUID : frames randomUUID.
Proof. done. Qed.

Lemma frames_new_Date `{Host} : frames new_Date_toISOString.
Proof. done. Qed.

Ltac frames :=
  repeat first
    [ apply frames_ret | apply frames_throw | apply frames_lift
    | apply frames_randomUUID | apply frames_new_Date
    | apply frames_bind; [|intros ?]
    | match goal with
      | |- frames (if ?b then _ else _) => destruct b
      | |- frames (match ?v with _ => _ end) => destruct v
      end ].

Lemma transaction_keeps_lock `{Host} u rq fn : transaction u rq = Some fn → keeps_lock fn.
Proof.
  intros Hfn db. change (frames (fn db)).
  destruct rq as [req_body|id req_body|id]; cbn [transaction] in Hfn.
  - destruct (negb _ || negb _); [done|]. injection Hfn as <-.
    unfold post_inventory_fn. frames.
  - destruct (Nat.eqb _ 0); [done|]. injection Hfn as <-.
    unfold patch_inventory_fn. frames.
  - injection Hfn as <-. unfold delete_inventory_fn. frames.
Qed.

(** * Properties of the routes around the store *)

(** ** Splitting a header *)

Lemma String_split_cons sep s : ∃ p ps, String_split sep s = p :: ps.
Proof.
  induction s as [|c s (p & ps & IH)]; cbn [String_split]; [by eexists _, _|].
  destruct (Ascii.eqb c sep); [by eexists _, _|]. rewrite IH. by eexists _, _.
Qed.

(** The first piece runs up to the first separator; the other pieces are
    those of what follows it. *)
Lemma String_split_first sep s p ps :
  String_split sep s = p :: ps →
  mentions sep p = false ∧
  match ps with
  | [] => s = p
  | _ :: _ => ∃ s', s = p +:+ String sep s' ∧ String_split sep s' = ps
  end.
Proof.
  revert p ps. induction s as [|c s IH]; intros p ps; cbn [String_split].
  - by intros [= <- <-].
  - destruct (Ascii.eqb_spec c sep) as [->|Hne].
    + intros [= <- <-]. split; [done|].
      destruct (String_split_cons sep s) as (q & qs & Hq). rewrite Hq.
      exists s. by rewrite <- Hq.
    + destruct (String_split_cons sep s) as (q & qs & Hq). rewrite Hq.
      intros [= <- <-]. destruct (IH q qs Hq) as [Hm Hrest].
      split.
      * cbn [mentions]. rewrite Hm. by destruct (Ascii.eqb_spec c sep).
      * destruct qs as [|q' qs'].
        -- by rewrite Hrest.
        -- destruct Hrest as (s' & -> & Hs'). by exists s'.
Qed.

Lemma String_split_whole sep s : mentions sep s = false → String_split sep s = [s].
Proof.
  induction s as [|c s IH]; cbn [mentions String_split]; [done|].
  destruct (Ascii.eqb c sep); [done|]. cbn [orb]. intros Hs. by rewrite IH.
Qed.

Lemma String_split_app sep p s :
  mentions sep p = false →
  String_split sep (p +:+ String sep s) = p :: String_split sep s.
Proof.
  induction p as [|c p IH]; cbn [mentions].
  - intros _. change ("" +:+ String sep s) with (String sep s).
    cbn [String_split]. by rewrite Ascii.eqb_refl.
  - destruct (Ascii.eqb c sep) eqn:E; [done|]. cbn [orb]. intros Hp.
    change (String c p +:+ String sep s) with (String c (p +:+ String sep s)).
    cbn [String_split]. rewrite E. by rewrite IH.
Qed.

(** A string splits in two exactly when it has one separator. *)
Lemma String_split_two sep s p q :
  String_split sep s = [p; q] ↔
  s = p +:+ String sep q ∧ mentions sep p = false ∧ mentions sep q = false.
Proof.
  split.
  - intros Hs. destruct (String_split_first sep s p [q] Hs) as [Hp (s' & -> & Hs')].
    destruct (String_split_first sep s' q [] Hs') as [Hq ->]. done.
  - intros (-> & Hp & Hq). by rewrite String_split_app, String_split_whole.
Qed.

(** ** Who gets past [requireAuth] *)

Lemma strict_equals_VStr s v : strict_equals (VStr s) v = true ↔ v = VStr s.
Proof.
  destruct v; cbn [strict_equals]; try (split; [done|intros [=]]).
  destruct (String.eqb_spec s s0); split; (congruence || done).
Qed.

(** X1. [requireAuth] lets a request through exactly when [ADMIN_TOKEN] is a
    string without a space and the header is [Bearer], one space and
    that string; it then names the user [admin].  So with an
    [ADMIN_TOKEN] that is not a string, or has a space in it, no header
    gets through. *)
Theorem requireAuth_accepts token authorization u :
  requireAuth token authorization = inr u ↔
  u = admin ∧
  ∃ t, token = VStr t ∧ authorization = Some ("Bearer " +:+ t) ∧
       mentions Ascii.Space t = false.
Proof.
  unfold requireAuth. split.
  - destruct authorization as [a|]; [|done].
    destruct (negb (truthy (VStr a))); [done|].
    destruct (String_split Ascii.Space a) as [|p [|q [|r ps]]] eqn:Hs;
      cbn [length Nat.eqb negb orb]; try done.
    unfold at_index. cbn [lookup list_lookup].
    destruct (strict_equals (VStr p) (VStr "Bearer")) eqn:Hp; cbn [negb orb]; [|done].
    destruct (strict_equals (VStr q) token) eqn:Hq; cbn [negb]; [|done].
    intros [= <-]. split; [done|].
    apply strict_equals_VStr in Hp as [= <-], Hq as ->.
    apply String_split_two in Hs as (-> & _ & Hq).
    by exists q.
  - intros (-> & t & -> & -> & Ht).
    change ("Bearer " +:+ t) with ("Bearer" +:+ String Ascii.Space t).
    cbn [truthy negb]. change (String.eqb _ "") with false. cbn [negb].
    rewrite (proj2 (String_split_two Ascii.Space _ "Bearer" t)) by done.
    cbn [length Nat.eqb negb orb]. unfold at_index. cbn [lookup list_lookup].
    by rewrite (proj2 (strict_equals_VStr t (VStr t))).
Qed.

(** X2. A request without the header, or with an empty one, is answered 401
    [NO_AUTH]; with any other header that does not get through, 403
    [FORBIDDEN]. *)
Theorem requireAuth_refuses token authorization r :
  requireAuth token authorization = inl r →
  if bool_decide (authorization = None ∨ authorization = Some "")
  then r = no_auth else r = forbidden.
Proof.
  unfold requireAuth. destruct authorization as [a|].
  - destruct (String.eqb_spec a "") as [->|Hne].
    + rewrite bool_decide_eq_true_2 by (by right). by intros [= <-].
    + rewrite bool_decide_eq_false_2 by (intros [|[=]]; done).
      cbn [truthy]. destruct (String.eqb_spec a ""); [done|]. cbn [negb].
      destruct (_ || _); [by intros [= <-]|done].
  - rewrite bool_decide_eq_true_2 by (by left). by intros [= <-].
Qed.

(** ** The read routes on a well-formed document *)

Lemma after_load_readable w : readable w → after_load w = w.
Proof.
  unfold readable, after_load. intros Hr.
  destruct (files w !! DB_FILE) as [[doc|raw]|]; [done| |done]. by destruct (Hr raw).
Qed.

Lemma bind_loadDb {B} (k : database → M B) w :
  (loadDb ≫= k) w = k (thaw (persisted w)) (after_load w).
Proof. unfold mbind, M_bind. by rewrite loadDb_run. Qed.

Lemma Array_filter_loaded (q : object → bool) p (h : heap) ys os :
  Forall2 (λ y o, p y = Some (q o) ∧ ∃ l, y = VRef l ∧ h !! l = Some o) ys os →
  ∃ zs, Array_filter p ys = Some zs ∧
        json_elems (JSON_roundtrip h) zs
        = (λ o, VObj (json_object o)) <$> filter (λ o, q o = true) os.
Proof.
  induction 1 as [|y o ys os (Hp & l & -> & Hl) _ (zs & Hzs & Hjson)];
    cbn [Array_filter].
  - by exists [].
  - rewrite Hp, Hzs, filter_cons. cbn [mbind option_bind]. destruct (q o).
    + rewrite decide_True by done. eexists. split; [done|].
      rewrite json_elems_cons, Hjson, fmap_cons.
      by rewrite (JSON_roundtrip_ref h l o Hl).
    + rewrite decide_False by done. by exists zs.
Qed.

Section reads.
Variables (w : world) (kvs : object) (os : list object).
Hypothesis Hdoc : persisted w = VObj kvs.
Hypothesis Hjson : is_json (VObj kvs).
Hypothesis Hitems : get "inventory_items" kvs = VArr (VObj <$> os).

Lemma loaded_items :
prop (store (loaded kvs os)) (root (loaded kvs os)) "inventory_items"
= Some (VArr (refs os)).
Proof. cbn [loaded root prop]. by rewrite get_set_eq. Qed.

Lemma stored_objects : (λ o, VObj (json_object o)) <$> os = VObj <$> os.
Proof.
rewrite <- (json_object_items os) at 2 by (by eapply is_json_items).
by rewrite <- list_fmap_compose.
Qed.

Lemma get_inventory_run include_deleted :
get_inventory include_deleted w =
  (Ok (Response 200
         (VArr (VObj <$> (if strict_equals include_deleted (VStr "true") then os
                          else filter (λ o, active o = true) os)))),
   after_load w).
Proof.
unfold get_inventory. rewrite bind_loadDb, Hdoc, (thaw_well_formed kvs os Hitems).
fold (loaded kvs os). destruct (strict_equals include_deleted (VStr "true")).
- rewrite loaded_items. mstep. unfold res_json. cbn [status body].
  by rewrite JSON_roundtrip_arr, json_elems_refs, stored_objects.
- rewrite loaded_items. cbn [mbind option_bind as_array]. mstep.
  destruct (Array_filter_loaded active
              (λ i, d ← prop os i "deleted_at"; Some (negb (truthy d)))
              os (refs os) os) as (zs & Hzs & Hz).
  { apply refs_Forall2. intros l o Hl. split; [|by exists l].
    cbn [prop]. by rewrite Hl. }
  cbn [store loaded]. rewrite Hzs. mstep. unfold res_json. cbn [status body].
  rewrite JSON_roundtrip_arr, Hz.
  assert (Hsub : Forall (λ o, is_json (VObj o)) (filter (λ o, active o = true) os)).
  { apply Forall_forall. intros o Ho. apply list_elem_of_filter in Ho as [_ Ho].
    assert (Hall := is_json_items kvs os Hjson Hitems).
    rewrite Forall_forall in Hall. by apply Hall. }
  rewrite <- (json_object_items _ Hsub) at 2. by rewrite <- list_fmap_compose.
Qed.

Lemma get_inventory_item_run id :
get_inventory_item id w =
  (Ok (match index_where (has_id id) os with
       | Some i => Response 200 (VObj (default [] (os !! i)))
       | None => not_found
       end),
   after_load w).
Proof.
unfold get_inventory_item.
rewrite bind_loadDb, Hdoc, (thaw_well_formed kvs os Hitems).
fold (loaded kvs os). rewrite findItem_loaded. mstep.
destruct (index_where (has_id id) os) as [i|] eqn:Hi; cbn [truthy negb]; [|done].
destruct (index_where_Some _ _ _ Hi) as (o & Ho & _).
unfold res_json. cbn [status body loaded store].
rewrite (JSON_roundtrip_ref os i o Ho), Ho. cbn [default].
rewrite json_object_fixed; [done|].
assert (Hall := is_json_items kvs os Hjson Hitems).
by apply (Forall_lookup_1 _ _ _ _ Hall Ho).
Qed.
End reads.

Lemma well_formed_fields d :
  well_formed d →
  ∃ kvs A, d = VObj kvs ∧ is_json (VObj kvs) ∧
    get "inventory_items" kvs = VArr (VObj <$> items d) ∧
    get "inventory_audit" kvs = VArr A.
Proof.
  intros (Hj & kvs & os & A & -> & Hi & Ha). exists kvs, A.
  by rewrite (items_well_formed kvs os Hi).
Qed.

(** X4. The list route answers 200 with the stored items in their stored
    order: all of them when [include_deleted] is the string [true], and
    otherwise those whose [deleted_at] is falsy.  It does not wait for
    the slot ([lock.locked] may be set) and changes nothing, except
    that it moves a store that does not parse aside. *)
Theorem get_inventory_lists include_deleted w :
  well_formed (persisted w) →
  get_inventory include_deleted w =
    (Ok (Response 200
           (VArr (VObj <$> (if strict_equals include_deleted (VStr "true")
                            then items (persisted w)
                            else filter (λ o, active o = true) (items (persisted w)))))),
     after_load w) ∧
  (readable w → after_load w = w).
Proof.
  intros (kvs & A & Hp & Hj & Hi & _)%well_formed_fields.
  split; [|apply after_load_readable].
  by rewrite (get_inventory_run w kvs _ Hp Hj Hi).
Qed.

(** X5. The route of one item answers 404 [NOT_FOUND] when no stored item
    has the id, and otherwise 200 with the first stored item that has
    it, soft-deleted or not.  It does not wait for the slot and changes
    nothing, except that it moves a store that does not parse aside. *)
Theorem get_inventory_item_finds id w :
  well_formed (persisted w) →
  get_inventory_item id w =
    (Ok (match index_where (has_id id) (items (persisted w)) with
         | Some i => Response 200 (VObj (default [] (items (persisted w) !! i)))
         | None => not_found
         end), after_load w) ∧
  (readable w → after_load w = w).
Proof.
  intros (kvs & A & Hp & Hj & Hi & _)%well_formed_fields.
  split; [|apply after_load_readable].
  by rewrite (get_inventory_item_run w kvs _ Hp Hj Hi).
Qed.

(** ** What a request does to the items *)

Section changes.
Context `{Host}.

Lemma handle_change_tree u rq w :
idle w → request_tree rq →
∃ resp w', handle u rq w = (Ok resp, w') ∧ idle w' ∧
  (status resp ≠ 400 → readable w') ∧
  change u (items (persisted w)) rq resp (items (persisted w')).
Proof.
intros Hidle Hrq.
destruct (handle_step_tree u rq w Hidle Hrq) as (resp0 & w0 & Hrun0 & Hidle0 & _).
destruct Hidle as [Hl (Hj & kvs & os & A & Hp & Hi & Ha)].
rewrite Hp in Hj. rewrite (handle_run_tree u rq w kvs os A) in * by done.
rewrite Hp, (items_well_formed kvs os Hi).
assert (Hw : ∀ d us cs, readable (written d (after_load w) us cs)).
{ intros d us cs raw. unfold written. cbn [files]. by rewrite lookup_insert_eq. }
assert (Hsame : items (persisted w) = os).
{ by rewrite Hp, (items_well_formed kvs os Hi). }
destruct rq as [req_body|id req_body|id]; cbn [outcome] in *.
- destruct (truthy (get "sku" req_body)) eqn:Hsku;
    destruct (truthy (get "product_name" req_body)) eqn:Hname; cbn [negb orb] in *.
  2-4: eexists _, _; split; [done|]; injection Hrun0 as <- <-;
       split; [done|]; split; [done|]; rewrite Hsame; by constructor.
  destruct (existsb _ os) eqn:Hdup; eexists _, _; (split; [done|]);
    injection Hrun0 as <- <-; (split; [done|]); (split; [intros _; apply Hw|]);
    rewrite persisted_written.
  + rewrite (items_well_formed kvs os Hi). by constructor.
  + rewrite items_doc_with. by constructor.
- cbv zeta in *.
  destruct (collect_updates req_body) as [|kv updates] eqn:E.
  { eexists _, _; split; [done|]. injection Hrun0 as <- <-.
    split; [done|]. split; [done|]. rewrite Hsame. by constructor. }
  cbv iota in *. rewrite <- E in *.
  destruct (index_where (has_id id) os) as [l|] eqn:Hfind; eexists _, _;
    (split; [done|]); injection Hrun0 as <- <-; (split; [done|]);
    (split; [intros _; apply Hw|]); rewrite persisted_written.
  + rewrite items_doc_with.
    destruct (index_where_Some _ _ _ Hfind) as (o & Ho & _). rewrite Ho.
    cbn [default]. apply change_patch; [by rewrite E|done..].
  + rewrite (items_well_formed kvs os Hi). by constructor.
- cbv zeta in *.
  destruct (index_where (has_id id) os) as [l|] eqn:Hfind; eexists _, _;
    (split; [done|]); injection Hrun0 as <- <-; (split; [done|]);
    (split; [intros _; apply Hw|]); rewrite persisted_written.
  + rewrite items_doc_with.
    destruct (index_where_Some _ _ _ Hfind) as (o & Ho & _). rewrite Ho.
    cbn [default]. by apply change_delete.
  + rewrite (items_well_formed kvs os Hi). by constructor.
Qed.

Lemma handle_change u rq w :
idle w → request_json rq →
∃ resp w', handle u rq w = (Ok resp, w') ∧ idle w' ∧
  (status resp ≠ 400 → readable w') ∧
  change u (items (persisted w)) rq resp (items (persisted w')).
Proof. intros ? Hrq%request_json_tree. by apply handle_change_tree. Qed.

Lemma change_post_inv u os req_body resp os' :
change u os (POST req_body) resp os' → status resp = 201 →
∃ id t1 t2,
  let item := json_object (new_item id t1 t2 u req_body) in
  resp = Response 201 (VObj item) ∧ os' = os ++ [item] ∧
  truthy (get "sku" req_body) = true ∧
  existsb (active_with_sku (get "sku" req_body)) os = false.
Proof.
inversion 1; subst; [done|]. intros _. by exists id, t1, t2.
Qed.

Lemma change_delete_inv u os id resp os' :
change u os (DELETE id) resp os' → status resp = 200 →
∃ l before t,
  let item := json_object (deleted_item (toISOString t) u before) in
  index_where (has_id id) os = Some l ∧ os !! l = Some before ∧
  resp = Response 200 (VObj [("ok", VBool true)]) ∧ os' = <[l := item]> os.
Proof.
inversion 1; subst; [done|]. intros _. by exists l, before, t.
Qed.
End changes.

(** ** What is written of an item *)

Lemma writable_json o : is_json (VObj o) → writable o.
Proof.
  intros Ho%is_json_obj. eapply Forall_impl; [exact Ho|].
  intros [k v] Hv. cbn [snd] in *. by exists v.
Qed.

Lemma writable_set k v o : writable o → is_Some (JSON_tree v) → writable (set k v o).
Proof. intros Ho Hv. by apply Forall_set. Qed.

Lemma writable_get k o : writable o → has k o = true → is_Some (JSON_tree (get k o)).
Proof.
  induction 1 as [|[k' v] o Hv _ IH]; cbn [has get]; [done|].
  destruct (String.eqb k k'); [done|]. apply IH.
Qed.

(** A field that is written holds what [JSON.stringify] makes of it; a
    field that is not there is not there afterwards. *)
Lemma get_json_object_writable k o :
  writable o → get k (json_object o) = default VUndefined (JSON_tree (get k o)).
Proof.
  unfold json_object.
  induction 1 as [|[k' v] o [v' Hv] _ IH]; cbn [get json_fields]; [done|].
  cbn [snd] in Hv. rewrite Hv. cbn [get].
  destruct (String.eqb k k'); [by rewrite Hv|done].
Qed.

Lemma stored_field k o : is_json (VObj o) → default VUndefined (JSON_tree (get k o)) = get k o.
Proof.
  intros Ho. destruct (is_json_get k o Ho) as [->|Hk]; [done|].
  unfold is_json in Hk. by rewrite Hk.
Qed.

Section written_items.
Context `{Host}.

Lemma writable_coerce k v : is_Some (JSON_tree v) → is_Some (JSON_tree (coerce k v)).
Proof.
intros Hv. unfold coerce. destruct (_ || _); [|done].
by destruct v; try done; eexists.
Qed.

Lemma writable_collected req_body :
writable req_body → writable (collect_updates req_body).
Proof.
intros Hb. unfold collect_updates.
assert (Hgen : ∀ ks acc, writable acc →
  writable (fold_left (λ updates k,
              if has k req_body then set k (get k req_body) updates else updates)
              ks acc)).
{ induction ks as [|k ks IH]; intros acc Hacc; cbn [fold_left]; [done|].
  apply IH. destruct (has k req_body) eqn:Hk; [|done].
  apply writable_set; [done|]. by apply writable_get. }
apply Hgen. constructor.
Qed.

Lemma writable_collect_updates req_body :
is_json (VObj req_body) → writable (collect_updates req_body).
Proof. intros Hb%writable_json. by apply writable_collected. Qed.

Lemma writable_apply_updates updates o :
writable updates → writable o → writable (apply_updates updates o).
Proof.
unfold apply_updates. revert o.
induction updates as [|[k v] updates IH]; intros o Hu Ho; cbn [fold_left]; [done|].
apply Forall_cons in Hu as [Hv Hu]. apply IH; [done|].
apply writable_set; [done|]. by apply writable_coerce.
Qed.

Lemma writable_patched_item updates t u o :
writable updates → writable o → writable (patched_item updates t u o).
Proof.
intros Hu Ho. unfold patched_item.
repeat (apply writable_set; [|by eexists]). by apply writable_apply_updates.
Qed.

Lemma writable_deleted_item t u o : writable o → writable (deleted_item t u o).
Proof.
intros Ho. unfold deleted_item. cbv zeta.
apply writable_set; [|by eexists]. apply writable_set.
- by apply writable_set; [|eexists].
- rewrite get_set_eq. by eexists.
Qed.

(** The fields of a patched item, as stored: an allow-listed field of
  the body holds the body's value (a number or [null] for [quantity]
  and [price]); every other field but [updated_at] and [updated_by]
  is as it was. *)
Lemma get_patched_written k req_body t u before :
writable req_body → is_json (VObj before) →
k ≠ "updated_at" → k ≠ "updated_by" →
get k (json_object (patched_item (collect_updates req_body) t u before))
= if bool_decide (k ∈ allowed) && has k req_body
  then default VUndefined (JSON_tree (coerce k (get k req_body)))
  else get k before.
Proof.
intros Hb Ho Hk1 Hk2.
rewrite get_json_object_writable
  by (apply writable_patched_item;
      [by apply writable_collected|by apply writable_json]).
rewrite get_patched_item by done.
destruct (collect_updates_spec req_body) as [Hkeys Hget].
destruct (decide (k ∈ keys (collect_updates req_body))) as [Hin|Hout].
- rewrite get_apply_updates, Hget by (done || apply NoDup_keys_collect_updates).
  rewrite Hkeys in Hin. apply list_elem_of_filter in Hin as [Hhas Hall].
  by rewrite Hhas, bool_decide_eq_true_2.
- rewrite get_apply_updates_other by done. rewrite stored_field by done.
  rewrite Hkeys in Hout.
  destruct (bool_decide_reflect (k ∈ allowed)) as [Hall|Hall]; [|done].
  destruct (has k req_body) eqn:Hhas; [|done].
  destruct Hout. by apply list_elem_of_filter.
Qed.

Lemma get_patched_stored k req_body t u before :
is_json (VObj req_body) → is_json (VObj before) →
k ≠ "updated_at" → k ≠ "updated_by" →
get k (json_object (patched_item (collect_updates req_body) t u before))
= if bool_decide (k ∈ allowed) && has k req_body
  then default VUndefined (JSON_tree (coerce k (get k req_body)))
  else get k before.
Proof. intros Hb%writable_json. by apply get_patched_written. Qed.

Lemma get_deleted_stored k t u before :
is_json (VObj before) →
k ≠ "deleted_at" → k ≠ "updated_at" → k ≠ "updated_by" →
get k (json_object (deleted_item t u before)) = get k before.
Proof.
intros Ho Hk1 Hk2 Hk3.
rewrite get_json_object_writable
  by (apply writable_deleted_item; by apply writable_json).
unfold deleted_item. cbv zeta. rewrite !get_set_ne by done. by apply stored_field.
Qed.
End written_items.

Lemma json_number_finite n : json_number n = VNull ∨ ∃ m, json_number n = VNum m ∧ finite m.
Proof.
  unfold json_number.
  destruct (PrimFloat.is_nan n || PrimFloat.is_infinity n) eqn:E; [by left|].
  right. destruct (PrimFloat.is_zero n).
  - by exists 0%float.
  - exists n. split; [done|]. by apply orb_false_elim in E.
Qed.

Section patch.
Context `{Host}.

Lemma patch_200 u id req_body w resp w' :
idle w → is_json (VObj req_body) →
handle u (PATCH id req_body) w = (Ok resp, w') → status resp = 200 →
∃ i before,
  let o := json_object (patched_item (collect_updates req_body)
                          (toISOString (clock (after_load w) 0)) u before) in
  index_where (has_id id) (items (persisted w)) = Some i ∧
  items (persisted w) !! i = Some before ∧ is_json (VObj before) ∧
  items (persisted w') = <[i := o]> (items (persisted w)) ∧
  resp = Response 200 (VObj o).
Proof.
intros [Hl (Hj & kvs & os & A & Hp & Hi & Ha)] Hb Hrun H200.
rewrite Hp in Hj. rewrite (handle_run u (PATCH id req_body) w kvs os A) in Hrun by done.
rewrite Hp, (items_well_formed kvs os Hi).
assert (Hos := is_json_items _ _ Hj Hi).
cbn [outcome] in Hrun. cbv zeta in Hrun.
destruct (collect_updates req_body) as [|kv updates] eqn:E;
  [by injection Hrun as <- <-|].
cbv iota in Hrun. rewrite <- E in *.
destruct (index_where (has_id id) os) as [i|] eqn:Hfind;
  injection Hrun as <- <-; [|done].
destruct (index_where_Some _ _ _ Hfind) as (before & Hbefore & _).
rewrite Hbefore. cbn [default]. exists i, before.
rewrite persisted_written, items_doc_with. split_and!; try done.
by apply (Forall_lookup_1 _ _ _ _ Hos Hbefore).
Qed.

(** X9. A PATCH that is answered 200 replaces one item in place, the first
  one with the id, and answers with the item as stored.  In it, every
  allow-listed field of the body holds the body's value, converted
  with [Number] for [quantity] and [price] unless it is [null];
  [updated_at] is the time of the request and [updated_by] the user;
  and every other field is as it was. *)
Theorem patch_writes_allowed_fields u id req_body w resp w' :
idle w → is_json (VObj req_body) →
handle u (PATCH id req_body) w = (Ok resp, w') → status resp = 200 →
∃ i before o,
  index_where (has_id id) (items (persisted w)) = Some i ∧
  items (persisted w) !! i = Some before ∧
  items (persisted w') = <[i := o]> (items (persisted w)) ∧
  resp = Response 200 (VObj o) ∧
  get "updated_at" o = VStr (toISOString (clock (after_load w) 0)) ∧
  get "updated_by" o = VStr u ∧
  ∀ k, k ≠ "updated_at" → k ≠ "updated_by" →
    get k o = if bool_decide (k ∈ allowed) && has k req_body
              then as_stored (coerce k (get k req_body))
              else get k before.
Proof.
intros Hidle Hb Hrun H200.
destruct (patch_200 u id req_body w resp w' Hidle Hb Hrun H200)
  as (i & before & Hfind & Hbefore & Hjson & Hitems & Hresp).
assert (Hw : writable (patched_item (collect_updates req_body)
                         (toISOString (clock (after_load w) 0)) u before)).
{ apply writable_patched_item; [by apply writable_collect_updates|].
  by apply writable_json. }
eexists i, before, _. split_and!; try done.
- rewrite get_json_object_writable by done.
  unfold patched_item. rewrite get_set_ne by done. by rewrite get_set_eq.
- rewrite get_json_object_writable by done.
  unfold patched_item. by rewrite get_set_eq.
- intros k Hk1 Hk2. by apply get_patched_stored.
Qed.

(** X10. After a PATCH that is answered 200 and whose body has [quantity]
  (or [price]), the stored item holds [null] or a finite number
  there, whatever the body held: text that is not a number is stored
  as [null]. *)
Theorem patch_stores_numbers u id req_body w resp w' k :
idle w → is_json (VObj req_body) →
k = "quantity" ∨ k = "price" → has k req_body = true →
handle u (PATCH id req_body) w = (Ok resp, w') → status resp = 200 →
∃ i o,
  index_where (has_id id) (items (persisted w)) = Some i ∧
  items (persisted w') !! i = Some o ∧
  (get k o = VNull ∨ ∃ n, get k o = VNum n ∧ finite n).
Proof.
intros Hidle Hb Hk Hhas Hrun H200.
destruct (patch_200 u id req_body w resp w' Hidle Hb Hrun H200)
  as (i & before & Hfind & Hbefore & Hjson & Hitems & _).
eexists i, _. split; [done|]. split.
{ rewrite Hitems. apply list_lookup_insert_eq. by eapply lookup_lt_Some. }
rewrite get_patched_stored by (done || by destruct Hk as [-> | ->]).
assert (Hall : k ∈ allowed).
{ destruct Hk as [-> | ->]; by apply (bool_decide_unpack _). }
rewrite bool_decide_eq_true_2, Hhas by done. cbn [andb].
unfold coerce.
replace (String.eqb k "quantity" || String.eqb k "price") with true
  by (by destruct Hk as [-> | ->]).
destruct (get k req_body) as [| |b|n|s|xs|o'|l]; try (by left);
  cbn [JSON_tree stringify_with default]; apply json_number_finite.
Qed.
End patch.

(** ** Fields that no request changes *)

Lemma index_where_app_r q os o :
  Forall (λ o', q o' = false) os → q o = true →
  index_where q (os ++ [o]) = Some (length os).
Proof.
  induction 1 as [|o' os Ho' _ IH]; intros Ho; cbn [index_where app length].
  - by rewrite Ho.
  - rewrite Ho', IH by done. done.
Qed.

Lemma index_where_insert q (os : list object) i o :
  index_where q os = Some i → q o = true → index_where q (<[i := o]> os) = Some i.
Proof.
  revert i. induction os as [|o' os IH]; intros i; cbn [index_where]; [done|].
  destruct (q o') eqn:Ho'.
  - intros [= <-] Ho. cbn [insert list_insert index_where]. by rewrite Ho.
  - destruct (index_where q os) as [i'|]; [|done]. cbn [fmap option_fmap option_map].
    intros [= <-] Ho. specialize (IH i' eq_refl Ho).
    change (<[S i' := o]> (o' :: os)) with (o' :: <[i' := o]> os).
    cbn [index_where]. by rewrite Ho', IH.
Qed.

Section kept.
Context `{Host}.

Lemma handle_keeps_fields u rq w i o :
idle w → request_json rq →
items (persisted w) !! i = Some o →
∃ o', items (persisted (handle u rq w).2) !! i = Some o' ∧
      ∀ k, immutable k → get k o' = get k o.
Proof.
intros Hidle Hrq Ho.
destruct (handle_change u rq w Hidle Hrq) as (resp & w' & Hrun & _ & _ & Hch).
rewrite Hrun. cbn [snd].
destruct Hidle as [_ (kvs & A & Hp & Hj & Hi & _)%well_formed_fields].
assert (Hos := is_json_items _ _ Hj Hi).
assert (Hat : ∀ l before item,
  items (persisted w) !! l = Some before →
  (is_json (VObj before) → ∀ k, immutable k → get k item = get k before) →
  ∃ o', <[l := item]> (items (persisted w)) !! i = Some o' ∧
        ∀ k, immutable k → get k o' = get k o).
{ intros l before item Hbefore Hsame. destruct (decide (l = i)) as [->|Hne].
  - exists item. split; [apply list_lookup_insert_eq; by eapply lookup_lt_Some|].
    rewrite Ho in Hbefore. injection Hbefore as <-. apply Hsame.
    by apply (Forall_lookup_1 _ _ _ _ Hos Ho).
  - exists o. by rewrite list_lookup_insert_ne. }
inversion Hch as [|b id' t1 t2 _ _ _ item|id' b l before t _ _ Hbefore item
                  |id' l before t _ Hbefore item]; subst.
- by exists o.
- exists o. split; [|done]. apply lookup_app_l_Some. done.
- apply (Hat l before); [done|]. intros Hb k (Hk & Hk1 & Hk2 & _).
  unfold item. rewrite get_patched_stored by done.
  by rewrite bool_decide_eq_false_2.
- apply (Hat l before); [done|]. intros Hb k (_ & Hk1 & Hk2 & Hk3).
  by apply get_deleted_stored.
Qed.

(** X14. No request removes or moves a stored item, and none changes a field
  of it outside the allow list of PATCH other than [updated_at],
  [updated_by] and [deleted_at]: [item_id], [sku], [created_at] and
  [created_by] are for good. *)
Theorem items_keep_their_place u rqs w i o :
idle w → Forall request_json rqs →
items (persisted w) !! i = Some o →
∃ o', items (persisted (serve u rqs w)) !! i = Some o' ∧
      ∀ k, immutable k → get k o' = get k o.
Proof.
intros Hidle Hrqs. revert w o Hidle.
induction Hrqs as [|rq rqs Hrq _ IH]; intros w o Hidle Ho; [by exists o|].
destruct (handle_keeps_fields u rq w i o Hidle Hrq Ho) as (o1 & Ho1 & Hsame1).
destruct (IH (handle u rq w).2 o1) as (o2 & Ho2 & Hsame2);
  [by apply handle_idle|done|].
exists o2. split; [done|]. intros k Hk. by rewrite Hsame2, Hsame1.
Qed.
End kept.

(** ** Active SKUs stay unique *)

Lemma parsed_get k o :
  Forall (λ kv, parsed kv.2 = true) o → has k o = true → parsed (get k o) = true.
Proof.
  induction 1 as [|[k' v] o Hv _ IH]; cbn [has get]; [done|].
  destruct (String.eqb k k'); [done|]. apply IH.
Qed.

Lemma writable_parsed o : parsed (VObj o) = true → writable o.
Proof.
  intros [_ Ho]%parsed_obj. eapply Forall_impl; [exact Ho|].
  intros kv. apply parsed_written.
Qed.

Lemma writable_assign k v o : writable o → is_Some (JSON_tree v) → writable (assign k v o).
Proof.
  intros Ho Hv. unfold assign. destruct (has k o); [by apply writable_set|].
  destruct (array_index k); [by apply Forall_add_index|by apply writable_set].
Qed.

Lemma writable_new_item id t1 t2 u req_body :
  writable req_body → writable (new_item id t1 t2 u req_body).
Proof.
  intros Hb. unfold new_item, Object_assign.
  assert (Hgen : ∀ src target, writable src → writable target →
            writable (fold_left (λ t kv, if String.eqb kv.1 "__proto__" then t
                                         else assign kv.1 kv.2 t) src target)).
  { induction src as [|[k v] src IH]; intros target Hs Ht; cbn [fold_left]; [done|].
    apply Forall_cons in Hs as [Hv Hs]. apply IH; [done|]. cbn [fst snd].
    destruct (String.eqb k "__proto__"); [done|]. by apply writable_assign. }
  apply Hgen; [done|]. repeat constructor; by eexists.
Qed.

(** The record a POST stores holds, for every key of the body but
    [__proto__], the body's value as the store holds it. *)
Lemma get_new_item_stored k id t1 t2 u req_body :
  writable req_body → NoDup (keys req_body) →
  has k req_body = true → k ≠ "__proto__" →
  get k (json_object (new_item id t1 t2 u req_body)) = as_stored (get k req_body).
Proof.
  intros Hb Hnd Hk Hp.
  rewrite get_json_object_writable by (by apply writable_new_item).
  by rewrite new_item_body_wins.
Qed.

(** A SKU that passes validation and is no infinity is stored as it is,
    or is an array or an object, which [===] finds the same as
    nothing. *)
Lemma strict_equals_stored_sku a v :
  truthy v = true → parsed v = true →
  (∀ n, v = VNum n → PrimFloat.is_infinity n = false) →
  strict_equals a (as_stored v) = strict_equals a v.
Proof.
  intros Ht Hp Hfin. destruct v; try done; try (by destruct a).
  unfold as_stored. change (JSON_tree (VNum n)) with (Some (json_number n)).
  cbn [default]. unfold json_number.
  cbn [truthy parsed] in Ht, Hp.
  apply negb_true_iff, orb_false_elim in Ht as [Hz Hn].
  by rewrite Hn, (Hfin n eq_refl), Hz.
Qed.

Section skus.
Context `{Host}.

(** [toISOString] never returns the empty string. *)
Hypothesis toISOString_nonempty : ∀ t, toISOString t ≠ "".

Lemma handle_unique_active_skus u rq w :
idle w → request_parsed rq → finite_sku rq →
unique_active_skus (items (persisted w)) →
unique_active_skus (items (persisted (handle u rq w).2)).
Proof.
intros Hidle Hrq Hfin Huniq.
destruct (handle_change_tree u rq w Hidle (request_parsed_tree rq Hrq))
  as (resp & w' & Hrun & _ & _ & Hch).
rewrite Hrun. cbn [snd].
destruct Hidle as [_ (kvs & A & Hp & Hj & Hi & _)%well_formed_fields].
assert (Hos := is_json_items _ _ Hj Hi).
(* replacing an item by one with the same SKU that is active only if
   the old one was *)
assert (Hat : ∀ l before item,
  items (persisted w) !! l = Some before →
  get "sku" item = get "sku" before →
  (active item = true → active before = true) →
  unique_active_skus (<[l := item]> (items (persisted w)))).
{ intros l before item Hbefore Hsku Hact i j o1 o2 Hij Ho1 Ho2 Ha1 Ha2.
  assert (Hold : ∀ n o, <[l := item]> (items (persisted w)) !! n = Some o →
            ∃ o', items (persisted w) !! n = Some o' ∧
                  get "sku" o = get "sku" o' ∧
                  (active o = true → active o' = true)).
  { intros n o Hn. destruct (decide (l = n)) as [->|Hne].
    - rewrite list_lookup_insert_eq in Hn by (by eapply lookup_lt_Some).
      injection Hn as <-. by exists before.
    - rewrite list_lookup_insert_ne in Hn by done. by exists o. }
  destruct (Hold i o1 Ho1) as (o1' & Ho1' & -> & Ha1').
  destruct (Hold j o2 Ho2) as (o2' & Ho2' & -> & Ha2').
  apply (Huniq i j); auto. }
inversion Hch as [|b id' t1 t2 Hsku _ Hdup item|id' b l before t _ _ Hbefore item
                  |id' l before t _ Hbefore item]; subst.
- done.
- intros i j o1 o2 Hij Ho1 Ho2 Ha1 Ha2.
  assert (Hi1 : items (persisted w) !! i = Some o1).
  { apply lookup_lt_Some in Ho2. rewrite length_app in Ho2. cbn [length] in Ho2.
    rewrite lookup_app_l in Ho1 by lia. done. }
  destruct (decide (j < length (items (persisted w)))%nat) as [Hj'|Hj'].
  + rewrite lookup_app_l in Ho2 by done. by apply (Huniq i j).
  + assert (j = length (items (persisted w))) as ->.
    { apply lookup_lt_Some in Ho2. rewrite length_app in Ho2.
      cbn [length] in Ho2. lia. }
    rewrite lookup_app_r, Nat.sub_diag in Ho2 by done. injection Ho2 as <-.
    assert (Hhas : has "sku" b = true).
    { apply get_has. intros E. by rewrite E in Hsku. }
    pose proof (writable_parsed b Hrq) as Hw.
    apply parsed_obj in Hrq as [Hnd Hb].
    unfold item. rewrite get_new_item_stored by done.
    rewrite strict_equals_stored_sku; [|done|by apply parsed_get|exact Hfin].
    destruct (strict_equals (get "sku" o1) (get "sku" b)) eqn:E; [|done].
    rewrite <- Hdup. symmetry. apply existsb_elem_of.
    exists o1. split; [by eapply list_elem_of_lookup_2|].
    unfold active_with_sku. rewrite E. exact Ha1.
- assert (Hb' : is_json (VObj before)).
  { by apply (Forall_lookup_1 _ _ _ _ Hos Hbefore). }
  apply (Hat l before); [done| |].
  + unfold item. by rewrite get_patched_written by (done || by apply writable_parsed).
  + unfold active, item.
    by rewrite get_patched_written by (done || by apply writable_parsed).
- assert (Hb' : is_json (VObj before)).
  { by apply (Forall_lookup_1 _ _ _ _ Hos Hbefore). }
  apply (Hat l before); [done| |].
  + unfold item. by apply get_deleted_stored.
  + unfold active, item.
    rewrite get_json_object_writable by (by apply writable_deleted_item, writable_json).
    rewrite deleted_at_deleted_item.
    change (default VUndefined (JSON_tree (VStr (toISOString t))))
      with (VStr (toISOString t)).
    cbn [truthy]. destruct (String.eqb_spec (toISOString t) "") as [E|_]; [|done].
    by destruct (toISOString_nonempty t).
Qed.

(** X15. If no two items that are not soft-deleted have the same SKU
  (for [===]), that is still so after any sequence of requests with
  bodies as [JSON.parse] yields them, none of them a POST with an
  infinity for its SKU. *)
Theorem active_skus_stay_unique u rqs w :
idle w → Forall request_parsed rqs → Forall finite_sku rqs →
unique_active_skus (items (persisted w)) →
unique_active_skus (items (persisted (serve u rqs w))).
Proof.
intros Hidle Hrqs. revert w Hidle.
induction Hrqs as [|rq rqs Hrq _ IH]; intros w Hidle Hfin Huniq; [done|].
apply Forall_cons in Hfin as [Hfin Hfins].
unfold serve. cbn [fold_left]. apply IH.
- apply handle_idle_tree; [done|by apply request_parsed_tree].
- done.
- by apply handle_unique_active_skus.
Qed.
End skus.

(** ** Writing, then reading *)

Section round_trips.
Context `{Host}.

(** X6. A POST whose body has a falsy [sku] or a falsy [product_name]
  (missing, [null], [false], [0], the empty string) is answered 400
  [VALIDATION] and leaves the world exactly as it was: it does not
  wait for the slot and neither reads nor writes the store.  With
  both truthy it is never answered 400, but 201 or 409. *)
Theorem post_requires_sku_and_name u req_body w :
(truthy (get "sku" req_body) = false ∨ truthy (get "product_name" req_body) = false →
 handle u (POST req_body) w = (Ok validation, w)) ∧
(idle w → is_json (VObj req_body) →
 truthy (get "sku" req_body) = true → truthy (get "product_name" req_body) = true →
 ∃ resp w', handle u (POST req_body) w = (Ok resp, w') ∧
            (status resp = 201 ∨ status resp = 409)).
Proof.
split.
- intros Hfalsy. cbn [handle]. unfold post_inventory.
  by destruct Hfalsy as [-> | ->]; rewrite ?orb_true_r.
- intros Hidle Hb Hsku Hname.
  destruct (post_status u req_body w Hidle Hsku Hname) as (resp & w' & Hrun & Hcase).
  exists resp, w'. split; [done|].
  destruct (existsb _ _); [right; by rewrite Hcase|by left].
Qed.

(** X8. The item a POST answered 201 with is what the route of one item
  then returns for its [item_id], provided no item stored before has
  that id. *)
Theorem post_then_get u req_body w item w' id :
idle w → is_json (VObj req_body) →
handle u (POST req_body) w = (Ok (Response 201 (VObj item)), w') →
get "item_id" item = VStr id →
Forall (λ o, has_id id o = false) (items (persisted w)) →
get_inventory_item id w' = (Ok (Response 200 (VObj item)), w').
Proof.
intros Hidle Hb Hrun Hid Hnew.
destruct (handle_change u (POST req_body) w Hidle Hb)
  as (resp0 & w0 & Hrun0 & [_ Hwf] & Hr & Hch).
rewrite Hrun in Hrun0. injection Hrun0 as <- <-.
destruct (well_formed_fields _ Hwf) as (kvs' & A' & Hp' & Hj' & Hi' & _).
rewrite (get_inventory_item_run w' kvs' _ Hp' Hj' Hi'), after_load_readable
  by (by apply Hr).
destruct (change_post_inv _ _ _ _ _ Hch eq_refl)
  as (id' & t1 & t2 & [= ->] & -> & _).
rewrite index_where_app_r by (done || by apply has_id_get).
by rewrite lookup_app_r, Nat.sub_diag.
Qed.
End round_trips.

Section hidden.
Context `{Host}.

(** [toISOString] never returns the empty string. *)
Hypothesis toISOString_nonempty : ∀ t, toISOString t ≠ "".

(** X12. After a DELETE answered 200 the item is still there: the route of
  one item returns it for the id, soft-deleted, and the list route
  has it exactly when [include_deleted] is the string [true]. *)
Theorem deleted_item_is_hidden u id w resp w' :
idle w → handle u (DELETE id) w = (Ok resp, w') → status resp = 200 →
∃ o, get_inventory_item id w' = (Ok (Response 200 (VObj o)), w') ∧
     active o = false ∧
     ∀ q, ∃ ys, get_inventory q w' = (Ok (Response 200 (VArr ys)), w') ∧
                (VObj o ∈ ys ↔ strict_equals q (VStr "true") = true).
Proof.
intros Hidle Hrun H200.
destruct (handle_change u (DELETE id) w Hidle I)
  as (resp0 & w0 & Hrun0 & [_ Hwf] & Hr & Hch).
rewrite Hrun in Hrun0. injection Hrun0 as <- <-.
destruct Hidle as [_ (kvs & A & Hp & Hj & Hi & _)%well_formed_fields].
assert (Hos := is_json_items _ _ Hj Hi).
destruct (change_delete_inv _ _ _ _ _ Hch H200)
  as (l & before & t & Hfind & Hbefore & Hresp & Hitems).
set (item := json_object (deleted_item (toISOString t) u before)) in *.
assert (Hb' : is_json (VObj before)).
{ by apply (Forall_lookup_1 _ _ _ _ Hos Hbefore). }
assert (Hat : items (persisted w') !! l = Some item).
{ rewrite Hitems. apply list_lookup_insert_eq. by eapply lookup_lt_Some. }
assert (Hinactive : active item = false).
{ unfold active, item.
  rewrite get_json_object_writable by (by apply writable_deleted_item, writable_json).
  rewrite deleted_at_deleted_item.
  change (default VUndefined (JSON_tree (VStr (toISOString t))))
    with (VStr (toISOString t)).
  cbn [truthy]. destruct (String.eqb_spec (toISOString t) "") as [E|_]; [|done].
  by destruct (toISOString_nonempty t). }
assert (Hreadable : readable w') by (apply Hr; by rewrite Hresp).
destruct (well_formed_fields _ Hwf) as (kvs' & A' & Hp' & Hj' & Hi' & _).
exists item. split_and!; [|done|].
- rewrite (get_inventory_item_run w' kvs' _ Hp' Hj' Hi'), after_load_readable by done.
  rewrite Hitems.
  rewrite index_where_insert; [by rewrite <- Hitems, Hat|done|].
  apply has_id_get. unfold item. rewrite get_deleted_stored by done.
  apply has_id_get. by destruct (index_where_Some _ _ _ Hfind) as (o & Ho & Hq & _);
    rewrite Hbefore in Ho; injection Ho as <-.
- intros q. eexists. split.
  { by rewrite (get_inventory_run w' kvs' _ Hp' Hj' Hi'), after_load_readable. }
  destruct (strict_equals q (VStr "true")).
  + split; [done|]. intros _. apply list_elem_of_fmap. exists item.
    split; [done|]. by eapply list_elem_of_lookup_2.
  + split; [|done]. intros (o & [= <-] & Ho%list_elem_of_filter)%list_elem_of_fmap.
    destruct Ho as [Ho _]. by rewrite Hinactive in Ho.
Qed.
End hidden.

(** * The token, from the set-up script to the server *)

Lemma bind_read_db {B} (k : value → M B) w :
  readable w → (read_db ≫= k) w = k (persisted w) w.
Proof.
  intros Hr. unfold read_db, persisted, mbind, M_bind, existsSync, readFileSync.
  destruct (files w !! DB_FILE) as [[doc|raw]|] eqn:E; simpl; rewrite ?E; try done.
  by destruct (Hr raw).
Qed.

Lemma bind_read_db_corrupt {B} (k : value → M B) w raw :
  files w !! DB_FILE = Some (Garbage raw) →
  (read_db ≫= k) w = k empty_document (after_read raw w).
Proof.
  intros E. unfold read_db, mbind, M_bind, existsSync, readFileSync.
  simpl. rewrite E. simpl. rewrite E. unfold renameSync. simpl. by rewrite E.
Qed.

Lemma find_admin us :
  ∃ found, Array_find is_admin (VObj <$> us) = Some found ∧
           truthy found = existsb named_admin us.
Proof.
  induction us as [|o us (found & Hfind & Htruthy)]; [by exists VUndefined|].
  rewrite fmap_cons. cbn [Array_find existsb is_admin prop mbind option_bind].
  fold (named_admin o). destruct (named_admin o); [by exists (VObj o)|].
  by exists found.
Qed.

Section script.
Context `{Host}.

Lemma seed_admin_run kvs us w :
get "users" kvs = VArr (VObj <$> us) →
seed_admin (VObj kvs) w =
  if existsb named_admin us then (Ok (VObj kvs), w)
  else
    (Ok (VObj (set "users"
                 (VArr ((VObj <$> us)
                        ++ [admin_user (uuids w 0) (toISOString (clock w 0))]))
                 kvs)),
     World (files w) (locked w) (λ n, uuids w (S n)) (λ n, clock w (S n))).
Proof.
intros Hu. unfold seed_admin. cbn [prop]. rewrite Hu.
cbn [mbind option_bind as_array]. mstep.
destruct (find_admin us) as (found & -> & Hfound). mstep. rewrite Hfound.
destruct (existsb named_admin us); cbn [negb]; [done|]. by mstep.
Qed.

Lemma new_token_run env w :
∃ w1, new_token env w =
        (Ok match env with
            | Some s => if String.eqb s "" then uuids w 0 else s
            | None => uuids w 0
            end, w1) ∧
      files w1 = files w ∧ locked w1 = locked w.
Proof.
destruct env as [s|]; cbn [new_token truthy]; [destruct (String.eqb s "")|];
  by eexists.
Qed.
End script.

Lemma thaw_prop d k :
  k ≠ "inventory_items" → prop (store (thaw d)) (root (thaw d)) k = prop [] d k.
Proof.
  intros Hk. destruct d as [| |b|n|s|xs|kvs|l]; try done.
  unfold thaw. destruct (get "inventory_items" kvs) as [| |b|n|s|xs|o|l]; try done.
  destruct (thaw_items xs []) as [ys h]. cbn [root store prop].
  by rewrite get_set_ne.
Qed.

Lemma bind_assoc {A B C} (m : M A) (f : A → M B) (k : B → M C) w :
  ((m ≫= f) ≫= k) w = (m ≫= (λ a, f a ≫= k)) w.
Proof. unfold mbind, M_bind. by destruct (m w) as [[a| |] w']. Qed.

(** What the server takes for its token, on a store it can read. *)
Lemma ADMIN_TOKEN_run env w kvs :
  readable w → persisted w = VObj kvs → is_json (VObj kvs) →
  ADMIN_TOKEN env w =
    (Ok (let e := match env with Some s => VStr s | None => VUndefined end in
         if truthy e then e
         else if truthy (stored_token kvs) then stored_token kvs
         else VStr "dev-token"), w).
Proof.
  intros Hr Hp Hj. unfold ADMIN_TOKEN. cbv zeta.
  destruct (truthy match env with Some s => VStr s | None => VUndefined end); [done|].
  rewrite bind_loadDb, (after_load_readable w Hr), thaw_prop, Hp by done.
  cbn [prop]. mstep. unfold stored_token.
  destruct (is_json_get "app_meta" kvs Hj) as [Hm|Hm].
  { rewrite Hm. cbn [truthy field]. by mstep. }
  destruct (truthy (get "app_meta" kvs)) eqn:Hmt.
  - cbv iota. rewrite bind_assoc.
    rewrite bind_loadDb, (after_load_readable w Hr), thaw_prop, Hp by done.
    cbn [prop]. rewrite bind_assoc. mstep.
    destruct (get "app_meta" kvs) as [| |b|n|s|xs|o|l]; try done; cbn [prop field]; mstep;
      try done.
    destruct (truthy (get "ADMIN_TOKEN" o)); by mstep.
  - mstep. rewrite Hmt.
    by destruct (get "app_meta" kvs) as [| |b|n|s|xs|o|l].
Qed.

Lemma bind_run {A B} (m : M A) (k : A → M B) w a w' :
  m w = (Ok a, w') → (m ≫= k) w = k a w'.
Proof. intros Hm. unfold mbind, M_bind. by rewrite Hm. Qed.

Lemma is_json_set k v kvs : is_json (VObj kvs) → is_json v → is_json (VObj (set k v kvs)).
Proof. rewrite !is_json_obj. intros Ho Hv. by apply Forall_set. Qed.

Section script_run.
Context `{Host}.

Lemma is_json_seeded w kvs us :
is_json (VObj kvs) → get "users" kvs = VArr (VObj <$> us) →
is_json (VObj (seeded w kvs us)).
Proof.
intros Hj Hu. unfold seeded. destruct (existsb named_admin us); [done|].
apply is_json_set; [done|]. apply is_json_arr, Forall_app. split.
- destruct (is_json_get "users" kvs Hj) as [E|E]; rewrite Hu in E; [done|].
  by apply is_json_arr in E.
- by repeat constructor.
Qed.

Lemma is_json_with_token token kvs : is_json (VObj kvs) → is_json (VObj (with_token token kvs)).
Proof.
intros Hj. unfold with_token. cbv zeta. apply is_json_set; [done|].
destruct (truthy (get "app_meta" kvs)) eqn:Hm.
- destruct (is_json_get "app_meta" kvs Hj) as [E|E]; [by rewrite E in Hm|].
  destruct (get "app_meta" kvs) as [| |b|n|s|xs|o|l]; try done.
  cbn [set_token]. apply is_json_set; [done|reflexivity].
- reflexivity.
Qed.

(** The script from its second statement on, for a document with an
  array of accounts. *)
Lemma init_db_rest env w kvs us :
is_json (VObj kvs) → get "users" kvs = VArr (VObj <$> us) →
∃ w', (db ← seed_admin (VObj kvs);
       token ← new_token env;
       db ← lift (store_token token db);
       text ← lift (JSON_tree db);
       _ ← writeFileSync DB_FILE (Json text);
       mret token) w = (Ok (printed env w us), w') ∧
      files w' = <[DB_FILE := Json (VObj (with_token (printed env w us)
                                              (seeded w kvs us)))]> (files w) ∧
      locked w' = locked w.
Proof.
intros Hj Hu.
assert (Hwrite : ∀ w1 tok,
  files w1 = files w → locked w1 = locked w →
  ∃ w', (db ← lift (store_token tok (VObj (seeded w kvs us)));
         text ← lift (JSON_tree db);
         _ ← writeFileSync DB_FILE (Json text);
         mret tok) w1 = (Ok tok, w') ∧
        files w' = <[DB_FILE := Json (VObj (with_token tok (seeded w kvs us)))]>
                     (files w) ∧
        locked w' = locked w).
{ intros w1 tok Hf Hl. cbn [store_token]. mstep. fold (with_token tok (seeded w kvs us)).
  rewrite (is_json_with_token tok _ (is_json_seeded w kvs us Hj Hu)). mstep.
  eexists. split; [reflexivity|]. cbn [files locked set_files]. by rewrite Hf, Hl. }
pose proof (seed_admin_run kvs us w Hu) as Hseed.
unfold printed, seeded in *.
destruct (existsb named_admin us); rewrite (bind_run _ _ _ _ _ Hseed);
  match goal with
  | |- context [(new_token env ≫= _) ?w0] =>
      destruct (new_token_run env w0) as (w1 & Htok & Hf & Hl)
  end;
  rewrite (bind_run _ _ _ _ _ Htok); by apply Hwrite.
Qed.

Lemma init_db_run env w kvs us :
readable w → persisted w = VObj kvs → is_json (VObj kvs) →
get "users" kvs = VArr (VObj <$> us) →
∃ w', init_db env w = (Ok (printed env w us), w') ∧
      files w' = <[DB_FILE := Json (VObj (with_token (printed env w us)
                                              (seeded w kvs us)))]> (files w) ∧
      locked w' = locked w.
Proof.
intros Hr Hp Hj Hu. unfold init_db. rewrite bind_read_db, Hp by done.
by apply init_db_rest.
Qed.
End script_run.

Lemma persisted_files w w' d :
  files w' = <[DB_FILE := Json d]> (files w) → persisted w' = d ∧ readable w'.
Proof.
  intros Hf. unfold persisted, readable. rewrite Hf, lookup_insert_eq. done.
Qed.

Lemma get_with_token k token kvs :
  k ≠ "app_meta" → get k (with_token token kvs) = get k kvs.
Proof. intros Hk. unfold with_token. cbv zeta. by rewrite get_set_ne. Qed.

Lemma stored_token_with_token token kvs :
  truthy (get "app_meta" kvs) = false ∨ (∃ o, get "app_meta" kvs = VObj o) →
  stored_token (with_token token kvs) = VStr token.
Proof.
  intros Hm. unfold stored_token, with_token. cbv zeta. rewrite get_set_eq.
  destruct Hm as [-> | [o ->]]; cbn [truthy set_token field]; [done|].
  apply get_set_eq.
Qed.

Section script_properties.
Context `{Host}.

Lemma get_seeded k w kvs us : k ≠ "users" → get k (seeded w kvs us) = get k kvs.
Proof.
intros Hk. unfold seeded. destruct (existsb named_admin us); [done|].
by rewrite get_set_ne.
Qed.

Lemma users_seeded w kvs us :
get "users" kvs = VArr (VObj <$> us) →
∃ us', get "users" (seeded w kvs us) = VArr (VObj <$> us') ∧
       existsb named_admin us' = true ∧
       us' = if existsb named_admin us then us
             else us ++ [admin_fields (uuids w 0) (toISOString (clock w 0))].
Proof.
intros Hu. unfold seeded. destruct (existsb named_admin us) eqn:E.
- by exists us.
- eexists. rewrite get_set_eq. split; [|split; [|done]].
  + by rewrite fmap_app.
  + rewrite existsb_app, E. reflexivity.
Qed.

(** X20. The token the script prints is the one the server takes when it is
  started next without [ADMIN_TOKEN] in its environment: the
  environment's if the script had one, a fresh identifier if not.  The
  script leaves the items and the audit trail as they are. *)
Theorem init_db_token_reaches_server env w :
readable w → set_up_ready (persisted w) → (∀ n, uuids w n ≠ "") →
∃ token w',
  init_db env w = (Ok token, w') ∧
  (∀ s, env = Some s → s ≠ "" → token = s) ∧
  ADMIN_TOKEN None w' = (Ok (VStr token), w') ∧
  inventory_items (persisted w') = inventory_items (persisted w) ∧
  inventory_audit (persisted w') = inventory_audit (persisted w).
Proof.
intros Hr (Hj & kvs & us & Hp & Hu & Hm) Huuid. rewrite Hp in Hj.
destruct (init_db_run env w kvs us Hr Hp Hj Hu) as (w' & Hrun & Hf & _).
destruct (persisted_files _ _ _ Hf) as [Hp' Hr'].
exists (printed env w us), w'. split; [done|].
assert (Htok : printed env w us ≠ "").
{ unfold printed. destruct env as [s|]; [|done].
  by destruct (String.eqb_spec s ""). }
split_and!.
- intros s -> Hs. unfold printed. by destruct (String.eqb_spec s "").
- rewrite (ADMIN_TOKEN_run None w' _ Hr' Hp')
    by (apply is_json_with_token; by apply is_json_seeded).
  rewrite stored_token_with_token by (by rewrite get_seeded).
  cbn [truthy]. by destruct (String.eqb_spec (printed env w us) "").
- rewrite Hp', Hp. unfold inventory_items.
  by rewrite get_with_token, get_seeded.
- rewrite Hp', Hp. unfold inventory_audit.
  by rewrite get_with_token, get_seeded.
Qed.

(** X21. After the script has run there is an account named [admin]: the
  script adds one, last, exactly when there was none.  Run again,
  with whatever environment, it leaves the accounts as they are. *)
Theorem init_db_seeds_admin_once env env' w :
readable w → set_up_ready (persisted w) →
let w1 := (init_db env w).2 in
let w2 := (init_db env' w1).2 in
(∃ us us1, users (persisted w) = VObj <$> us ∧
   users (persisted w1) = VObj <$> us1 ∧
   existsb named_admin us1 = true ∧
   us1 = if existsb named_admin us then us
         else us ++ [admin_fields (uuids w 0) (toISOString (clock w 0))]) ∧
users (persisted w2) = users (persisted w1).
Proof.
intros Hr (Hj & kvs & us & Hp & Hu & Hm). rewrite Hp in Hj. cbv zeta.
destruct (init_db_run env w kvs us Hr Hp Hj Hu) as (w1 & Hrun & Hf & _).
rewrite Hrun. cbn [snd].
destruct (persisted_files _ _ _ Hf) as [Hp1 Hr1].
destruct (users_seeded w kvs us Hu) as (us1 & Hu1 & Hadmin & Hus1).
assert (Hj1 : is_json (VObj (with_token (printed env w us) (seeded w kvs us)))).
{ apply is_json_with_token. by apply is_json_seeded. }
assert (Hu1' : get "users" (with_token (printed env w us) (seeded w kvs us))
               = VArr (VObj <$> us1)).
{ by rewrite get_with_token. }
destruct (init_db_run env' w1 _ us1 Hr1 Hp1 Hj1 Hu1') as (w2 & Hrun2 & Hf2 & _).
rewrite Hrun2. cbn [snd].
destruct (persisted_files _ _ _ Hf2) as [Hp2 _].
split.
- exists us, us1. rewrite Hp, Hp1. unfold users. by rewrite Hu, Hu1'.
- rewrite Hp2, Hp1. unfold users. rewrite get_with_token by done.
  unfold seeded at 1. by rewrite Hadmin.
Qed.

(** X22. On a store that does not parse, the script moves the file aside
  under [data.json.bak.<time in ms>] and writes a fresh document with
  the one account and the token. *)
Theorem init_db_on_unreadable_store env w raw :
files w !! DB_FILE = Some (Garbage raw) →
∃ token w',
  init_db env w = (Ok token, w') ∧
  files w' !! (DB_FILE +:+ ".bak." +:+ pretty (clock w 0)) = Some (Garbage raw) ∧
  persisted w' =
    VObj [("users", VArr [admin_user (uuids w 0) (toISOString (clock w 1))]);
          ("inventory_items", VArr []); ("inventory_audit", VArr []);
          ("app_meta", VObj [("ADMIN_TOKEN", VStr token)])].
Proof.
intros Hraw. unfold init_db. rewrite (bind_read_db_corrupt _ w raw Hraw).
unfold empty_document.
destruct (init_db_rest env (after_read raw w)
            [("users", VArr []); ("inventory_items", VArr []);
             ("inventory_audit", VArr []); ("app_meta", VObj [])] [])
  as (w' & Hrun & Hf & _); [reflexivity..|].
exists (printed env (after_read raw w) []), w'. split; [exact Hrun|].
destruct (persisted_files _ _ _ Hf) as [Hp' _]. split; [|by rewrite Hp'].
rewrite Hf. rewrite lookup_insert_ne by done. cbn [after_read files].
apply lookup_insert_eq.
Qed.

(** X23. On a store whose document has no array [users] (an empty object,
  say), the script raises before it has written anything or drawn an
  identifier. *)
Theorem init_db_needs_users env w :
readable w → (∀ xs, field "users" (persisted w) ≠ VArr xs) →
init_db env w = (Throw, w).
Proof.
intros Hr Hno. unfold init_db. rewrite bind_read_db by done.
unfold seed_admin.
assert (Hnone : prop [] (persisted w) "users" ≫= as_array = None).
{ destruct (persisted w) as [| |b|n|s|xs|kvs|l]; try done.
  cbn [prop mbind option_bind]. cbn [field] in Hno.
  destruct (get "users" kvs) as [| |b|n|s|xs|o|l]; try done. by destruct (Hno xs). }
rewrite Hnone. rewrite bind_assoc. by rewrite bind_lift_None.
Qed.
End script_properties.

Lemma after_load_twice w : after_load (after_load w) = after_load w.
Proof.
  apply after_load_readable. unfold readable, after_load. intros raw.
  destruct (files w !! DB_FILE) as [[doc|raw']|] eqn:E; cbn [files]; rewrite ?E; try done.
  rewrite lookup_insert_ne by done. by rewrite lookup_delete_eq.
Qed.

(** X3. Started without [ADMIN_TOKEN] in its environment (or with an empty
    one), on a store that is missing, does not parse, or holds no
    token, the server takes [dev-token] for its token: the header
    [Bearer dev-token] then gets any request through.  A store that does
    not parse has been moved aside by then. *)
Theorem ADMIN_TOKEN_falls_back env w :
  env = None ∨ env = Some "" →
  files w !! DB_FILE = None ∨
  (∃ raw, files w !! DB_FILE = Some (Garbage raw)) ∨
  (∃ kvs, files w !! DB_FILE = Some (Json (VObj kvs)) ∧ is_json (VObj kvs) ∧
          truthy (stored_token kvs) = false) →
  ADMIN_TOKEN env w = (Ok (VStr "dev-token"), after_load w) ∧
  ∀ handler, guarded (VStr "dev-token") (Some "Bearer dev-token") handler = handler admin.
Proof.
  intros Henv Hstore. split; [|done].
  assert (He : truthy match env with Some s => VStr s | None => VUndefined end = false).
  { by destruct Henv as [-> | ->]. }
  destruct Hstore as [Hnone | [[raw Hraw] | (kvs & Hdoc & Hj & Htok)]].
  - assert (Hr : readable w) by (intros raw; by rewrite Hnone).
    rewrite (ADMIN_TOKEN_run env w
               [("users", VArr []); ("inventory_items", VArr []);
                ("inventory_audit", VArr []); ("app_meta", VObj [])] Hr);
      [|by unfold persisted; rewrite Hnone|done].
    cbv zeta. rewrite He, (after_load_readable w Hr). done.
  - unfold ADMIN_TOKEN. cbv zeta. rewrite He.
    rewrite bind_loadDb, thaw_prop by done.
    assert (Hp : persisted w = empty_document) by (by unfold persisted; rewrite Hraw).
    rewrite Hp. cbn [prop empty_document get String.eqb Ascii.eqb Bool.eqb].
    mstep. cbn [truthy]. rewrite bind_assoc.
    rewrite bind_loadDb, after_load_twice, persisted_after_load, Hp, thaw_prop by done.
    cbn [prop empty_document get String.eqb Ascii.eqb Bool.eqb]. by mstep.
  - assert (Hr : readable w) by (intros raw; by rewrite Hdoc).
    rewrite (ADMIN_TOKEN_run env w kvs Hr); [|by unfold persisted; rewrite Hdoc|done].
    cbv zeta. by rewrite He, Htok, (after_load_readable w Hr).
Qed.

(** * Interleaved calls of [withDb] are serial *)

Lemma holders_none cs i c :
  holders cs = 0 → cs !! i = Some c → in_slot c = false.
Proof.
  revert i. induction cs as [|c0 cs IH]; intros [|i] Hz Hi; simpl in *; try done.
  - injection Hi as ->. destruct (in_slot c); [lia|done].
  - apply (IH i); [|done]. destruct (in_slot c0); lia.
Qed.

Lemma holders_some cs : (0 < holders cs)%nat → ∃ i c, cs !! i = Some c ∧ in_slot c = true.
Proof.
  induction cs as [|c0 cs IH]; simpl; [lia|]. destruct (in_slot c0) eqn:E.
  - intros _. by exists 0, c0.
  - intros Hpos. destruct IH as (i & c & Hi & Hc); [lia|]. by exists (S i), c.
Qed.

Lemma filter_returned_insert_same (cs : list call) i c c' :
  cs !! i = Some c → returned c = returned c' → fn_of c = fn_of c' →
  fn_of <$> filter (λ c, returned c = true) (<[i := c']> cs)
  = fn_of <$> filter (λ c, returned c = true) cs.
Proof.
  revert i. induction cs as [|c0 cs IH]; intros [|i] Hi Hr Hf; simpl in *; try done.
  - injection Hi as ->. rewrite !filter_cons, <- Hr.
    destruct (decide (returned c = true)); [|done]. by rewrite !fmap_cons, Hf.
  - rewrite !filter_cons. destruct (decide (returned c0 = true)).
    + rewrite !fmap_cons. f_equal. by apply IH.
    + by apply IH.
Qed.

Lemma filter_returned_insert_new (cs : list call) i c c' :
  cs !! i = Some c → returned c = false → returned c' = true →
  fn_of <$> filter (λ c, returned c = true) (<[i := c']> cs)
  ≡ₚ (fn_of <$> filter (λ c, returned c = true) cs) ++ [fn_of c'].
Proof.
  revert i. induction cs as [|c0 cs IH]; intros [|i] Hi Hr Hr'; simpl in *; try done.
  - injection Hi as ->. rewrite !filter_cons, Hr, Hr'.
    rewrite decide_True, decide_False by done. rewrite fmap_cons.
    apply Permutation_cons_append.
  - rewrite !filter_cons. destruct (decide (returned c0 = true)).
    + rewrite !fmap_cons. cbn [app]. apply perm_skip. by apply IH.
    + by apply IH.
Qed.

Lemma run_alone_snoc fns fn w :
  run_alone (fns ++ [fn]) w = (withDb fn (run_alone fns w)).2.
Proof. unfold run_alone. by rewrite fold_left_app. Qed.

(** A call that finds the slot free and whose load or callback raises
    has done what [withDb] does when run alone. *)
Lemma enter_throw_withDb fn w w1 :
  locked w = false →
  enter fn w = (Returned Throw, w1) → w1 = (withDb fn w).2.
Proof.
  intros Hl. unfold enter, withDb. rewrite Hl. unfold mbind, M_bind.
  destruct (loadDb (set_locked true w)) as [[db0| |] w0]; [| |done].
  - destruct (fn db0 w0) as [[[r0 db0']| |] w2]; [done| |done]. by intros [= <-].
  - by intros [= <-].
Qed.

Lemma step_serial w s s' : step s s' → slot_invariant s → serial w s → serial w s'.
Proof.
  intros Hstep [Hcount Hfns] (fns & Hperm & Hfree & Hheld).
  assert (Hone : ∀ i j ci cj, calls s !! i = Some ci → calls s !! j = Some cj →
            in_slot ci = true → in_slot cj = true → i = j).
  { intros i j ci cj Hi Hj Hci Hcj. destruct (decide (i = j)) as [|Hne]; [done|].
    pose proof (holders_two _ _ _ _ _ Hi Hj Hci Hcj Hne).
    destruct (locked (env s)); lia. }
  assert (Hnone : locked (env s) = false → ∀ i c, calls s !! i = Some c →
            in_slot c = false).
  { intros Hl i c Hi. rewrite Hl in Hcount. by eapply holders_none. }
  unfold serial, done_by in *.
  destruct Hstep as [s fn Hfn|s i fn Hi|s i fn Hi|s i fn r db Hi]; cbn [env calls].
  - (* a call arrives *)
    exists fns. split_and!; [|done|].
    + rewrite filter_app, filter_cons, filter_nil.
      rewrite decide_False by done. by rewrite app_nil_r.
    + intros j fn' r db Hj. apply (Hheld j).
      apply lookup_app_Some in Hj as [Hj|[_ Hj]]; [done|].
      by destruct (j - length (calls s)) as [|[|?]].
  - (* a call tests the slot *)
    destruct (locked (env s)) eqn:Hl.
    + (* taken: it goes to sleep *)
      unfold enter. rewrite Hl. cbn [fst snd].
      exists fns. split_and!.
      * by rewrite (filter_returned_insert_same _ _ _ _ Hi).
      * by rewrite Hl.
      * intros j fn' r db Hj. apply (Hheld j).
        destruct (decide (i = j)) as [->|Hne].
        -- rewrite list_lookup_insert_eq in Hj by (by eapply lookup_lt_Some). done.
        -- by rewrite list_lookup_insert_ne in Hj.
    + (* free: it loads and calls back *)
      specialize (Hfree eq_refl).
      assert (Hfn : keeps_lock fn).
      { rewrite Forall_forall in Hfns. apply (Hfns (Call fn Testing)).
        by eapply list_elem_of_lookup_2. }
      pose proof (enter_spec fn (env s) Hfn Hl) as Hspec.
      destruct (enter fn (env s)) as [ph w1] eqn:Henter. cbn [fst snd] in *.
      assert (Hothers : ∀ j fn' r db, j ≠ i →
                <[i := Call fn ph]> (calls s) !! j = Some (Call fn' (Holding r db)) →
                False).
      { intros j fn' r db Hne Hj. rewrite list_lookup_insert_ne in Hj by done.
        by pose proof (Hnone eq_refl j _ Hj). }
      destruct ph as [| |r db| |res].
      * unfold enter in Henter. rewrite Hl in Henter.
        by destruct ((loadDb ≫= fn) (set_locked true (env s))) as [[[]| |] ?].
      * unfold enter in Henter. rewrite Hl in Henter.
        by destruct ((loadDb ≫= fn) (set_locked true (env s))) as [[[]| |] ?].
      * exists fns. split_and!.
        -- by rewrite (filter_returned_insert_same _ _ _ _ Hi).
        -- by rewrite Hspec.
        -- intros j fn' r' db' Hj. destruct (decide (j = i)) as [->|Hne].
           ++ rewrite list_lookup_insert_eq in Hj by (by eapply lookup_lt_Some).
              injection Hj as <- <- <-.
              rewrite (enter_leave_withDb fn (env s) r db w1 Hl Henter).
              cbn [snd]. by rewrite run_alone_snoc, Hfree.
           ++ by destruct (Hothers j fn' r' db' Hne Hj).
      * exists fns. split_and!.
        -- by rewrite (filter_returned_insert_same _ _ _ _ Hi).
        -- by rewrite Hspec.
        -- intros j fn' r' db' Hj. destruct (decide (j = i)) as [->|Hne].
           ++ by rewrite list_lookup_insert_eq in Hj by (by eapply lookup_lt_Some).
           ++ by destruct (Hothers j fn' r' db' Hne Hj).
      * assert (res = Throw) as ->.
        { unfold enter in Henter. rewrite Hl in Henter.
          destruct ((loadDb ≫= fn) (set_locked true (env s))) as [[[]| |] ?];
            by inversion Henter. }
        exists (fns ++ [fn]). split_and!.
        -- rewrite (filter_returned_insert_new _ _ _ _ Hi) by done.
           by apply Permutation_app_tail.
        -- intros _. rewrite run_alone_snoc, <- Hfree.
           by apply enter_throw_withDb.
        -- intros j fn' r' db' Hj. destruct (decide (j = i)) as [->|Hne].
           ++ by rewrite list_lookup_insert_eq in Hj by (by eapply lookup_lt_Some).
           ++ by destruct (Hothers j fn' r' db' Hne Hj).
  - (* a sleeping call wakes up *)
    exists fns. split_and!; [|done|].
    + by rewrite (filter_returned_insert_same _ _ _ _ Hi).
    + intros j fn' r db Hj. apply (Hheld j).
      destruct (decide (i = j)) as [->|Hne].
      * rewrite list_lookup_insert_eq in Hj by (by eapply lookup_lt_Some). done.
      * by rewrite list_lookup_insert_ne in Hj.
  - (* the call in the slot saves and releases it *)
    pose proof (Hheld i fn r db Hi) as Hsave.
    assert (Hph : ∃ res, (leave r db (env s)).1 = Returned res).
    { unfold leave. destruct (saveDb db (env s)) as [[| |] ?]; by eexists. }
    destruct Hph as [res Hres]. rewrite Hres.
    exists (fns ++ [fn]). split_and!.
    + rewrite (filter_returned_insert_new _ _ _ _ Hi) by done.
      by apply Permutation_app_tail.
    + done.
    + intros j fn' r' db' Hj. destruct (decide (j = i)) as [->|Hne].
      * by rewrite list_lookup_insert_eq in Hj by (by eapply lookup_lt_Some).
      * rewrite list_lookup_insert_ne in Hj by done.
        by pose proof (Hone i j _ _ Hi Hj eq_refl eq_refl).
Qed.

(** X19. However the calls interleave, whenever the slot is free the world
    (the store, the identifiers and the clock readings used up) is the
    one that the calls that are over leave behind when they are made
    one after the other, in some order: no update is lost. *)
Theorem withDb_calls_are_serial w s :
  locked w = false →
  rtc step (System w []) s →
  locked (env s) = false →
  ∃ fns, fns ≡ₚ done_by s ∧ env s = run_alone fns w.
Proof.
  intros Hl Hrun Hfree.
  assert (Hinv : slot_invariant s ∧ serial w s).
  { revert Hrun. apply (rtc_ind_r (λ s, slot_invariant s ∧ serial w s)).
    - split; [split; [cbn [env calls holders]; by rewrite Hl|done]|].
      exists []. split_and!; [done|done|]. intros i fn r db Hi. done.
    - intros s1 s2 Hsteps Hstep [Hslot Hserial]. split.
      + by eapply step_slot_invariant.
      + by eapply step_serial. }
  destruct Hinv as [_ (fns & Hperm & Henv & _)]. exists fns. auto.
Qed.

(** X18. However the calls interleave, the slot is taken exactly while a call
    is between its load and its save: it is free again after a call
    whose callback raised or whose save failed. *)
Theorem slot_taken_iff_held w s :
  locked w = false →
  rtc step (System w []) s →
  locked (env s) = true ↔ ∃ i c, calls s !! i = Some c ∧ in_slot c = true.
Proof.
  intros Hl Hrun.
  assert (Hinv : slot_invariant s).
  { apply (steps_slot_invariant _ _ Hrun).
    split; [cbn [env calls holders]; by rewrite Hl | done]. }
  destruct Hinv as [Hcount _]. split.
  - intros Hlocked. rewrite Hlocked in Hcount. apply holders_some. lia.
  - intros (i & c & Hi & Hc). destruct (locked (env s)) eqn:E; [done|].
    by rewrite (holders_none _ _ _ Hcount Hi) in Hc.
Qed.

(** * Further properties of the mutating routes and of the store *)

(** X16. What is saved is what is loaded: after [saveDb] of a well-formed
    document as [loadDb] handed it out, [loadDb] hands out the same
    document again, and the store holds it. *)
Theorem saveDb_then_loadDb d w :
  well_formed d →
  (saveDb (thaw d) ≫= (λ _, loadDb)) w
  = (Ok (thaw d), set_files (<[DB_FILE := Json d]> (files w)) w).
Proof.
  intros (Hj & kvs & os & A & -> & Hi & Ha).
  rewrite (thaw_well_formed kvs os Hi). fold (loaded kvs os).
  unfold saveDb. change (store (loaded kvs os)) with os.
  rewrite (roundtrip_unchanged os kvs A Hj Hi Ha).
  unfold mbind at 1, M_bind at 1, writeFileSync.
  rewrite loadDb_run.
  assert (Hp : persisted (set_files (<[DB_FILE := Json (VObj kvs)]> (files w)) w)
               = VObj kvs).
  { unfold persisted. cbn [set_files files]. by rewrite lookup_insert_eq. }
  rewrite Hp, (thaw_well_formed kvs os Hi). fold (loaded kvs os).
  rewrite after_load_readable; [done|].
  intros raw. cbn [set_files files]. by rewrite lookup_insert_eq.
Qed.

Section more_routes.
Context `{Host}.

(** X7. A POST that passes validation and finds no active item with its SKU
  is answered 201 with the item as stored, which is added last.  For
  every key of the body other than [__proto__] the item holds the
  body's value as the store holds it: a value that JSON gives back as
  it is, as it is; an infinity as [null], [-0] as [0].  For every
  other key it holds what the route generates: a fresh [item_id], the
  time for [created_at] and [updated_at], [null] for [deleted_at], the
  user for [created_by] and [updated_by], and nothing else; a key
  [__proto__] of the body is not stored. *)
Theorem post_stores_body_and_generated u req_body w :
idle w → readable w → parsed (VObj req_body) = true →
truthy (get "sku" req_body) = true →
truthy (get "product_name" req_body) = true →
existsb (active_with_sku (get "sku" req_body)) (items (persisted w)) = false →
∃ item w',
  handle u (POST req_body) w = (Ok (Response 201 (VObj item)), w') ∧
  items (persisted w') = items (persisted w) ++ [item] ∧
  (∀ k, get k item =
        if has k req_body && negb (String.eqb k "__proto__")
        then as_stored (get k req_body)
        else get k (generated (uuids w 0) (toISOString (clock w 0))
                      (toISOString (clock w 1)) u)) ∧
  (∀ k, has k req_body = true → k ≠ "__proto__" →
        is_json (get k req_body) → get k item = get k req_body).
Proof.
intros [Hl (Hj & kvs & os & A & Hp & Hi & Ha)] Hr Hb Hsku Hname Hdup.
rewrite Hp in Hj. rewrite (handle_run_tree u (POST req_body) w kvs os A) by done.
rewrite Hp, (items_well_formed kvs os Hi) in *.
cbn [outcome]. rewrite Hsku, Hname, Hdup. cbn [negb orb].
rewrite (after_load_readable w Hr).
eexists _, _. split; [done|]. rewrite persisted_written, items_doc_with.
split; [done|].
pose proof (writable_parsed req_body Hb) as Hw.
apply parsed_obj in Hb as [Hnd Hb].
assert (Hget : ∀ k,
  get k (json_object (new_item (uuids w 0) (toISOString (clock w 0))
                        (toISOString (clock w 1)) u req_body))
  = if has k req_body && negb (String.eqb k "__proto__")
    then as_stored (get k req_body)
    else get k (generated (uuids w 0) (toISOString (clock w 0))
                  (toISOString (clock w 1)) u)).
{ intros k. rewrite get_json_object_writable by (by apply writable_new_item).
  unfold new_item. rewrite get_Object_assign by done.
  fold (generated (uuids w 0) (toISOString (clock w 0)) (toISOString (clock w 1)) u).
  destruct (has k req_body && negb (String.eqb k "__proto__")); [done|].
  apply (stored_field k). reflexivity. }
split; [exact Hget|].
intros k Hk Hne%String.eqb_neq Hv. rewrite Hget, Hk, Hne. cbn [negb andb].
unfold as_stored. unfold is_json in Hv. by rewrite Hv.
Qed.

(** X11. A DELETE that is answered 200 replaces one item in place, the first
  one with the id: its [deleted_at] and its [updated_at] hold the time
  of the request, its [updated_by] the user, and every other field is
  as it was. *)
Theorem delete_marks_item u id w resp w' :
idle w → readable w →
handle u (DELETE id) w = (Ok resp, w') → status resp = 200 →
∃ i before o,
  index_where (has_id id) (items (persisted w)) = Some i ∧
  items (persisted w) !! i = Some before ∧
  items (persisted w') = <[i := o]> (items (persisted w)) ∧
  get "deleted_at" o = VStr (toISOString (clock w 0)) ∧
  get "updated_at" o = VStr (toISOString (clock w 0)) ∧
  get "updated_by" o = VStr u ∧
  ∀ k, k ≠ "deleted_at" → k ≠ "updated_at" → k ≠ "updated_by" →
       get k o = get k before.
Proof.
intros [Hl (Hj & kvs & os & A & Hp & Hi & Ha)] Hr Hrun H200.
rewrite Hp in Hj. rewrite (handle_run u (DELETE id) w kvs os A) in Hrun by done.
rewrite Hp, (items_well_formed kvs os Hi) in *.
assert (Hos := is_json_items _ _ Hj Hi).
cbn [outcome] in Hrun. cbv zeta in Hrun. rewrite (after_load_readable w Hr) in Hrun.
destruct (index_where (has_id id) os) as [i|] eqn:Hfind;
  injection Hrun as <- <-; [|done].
destruct (index_where_Some _ _ _ Hfind) as (before & Hbefore & _).
rewrite Hbefore. cbn [default].
assert (Hb : is_json (VObj before)) by (by apply (Forall_lookup_1 _ _ _ _ Hos Hbefore)).
assert (Hw : writable (deleted_item (toISOString (clock w 0)) u before)).
{ by apply writable_deleted_item, writable_json. }
exists i, before. eexists. rewrite persisted_written, items_doc_with.
split_and!; try done.
- rewrite get_json_object_writable by done. by rewrite deleted_at_deleted_item.
- rewrite get_json_object_writable by done. unfold deleted_item. cbv zeta.
  rewrite get_set_ne by done. by rewrite !get_set_eq.
- rewrite get_json_object_writable by done. unfold deleted_item. cbv zeta.
  by rewrite get_set_eq.
- intros k Hk1 Hk2 Hk3. by apply get_deleted_stored.
Qed.

(** X13. The audit entry of a request that succeeds names the operation
  (CREATE, UPDATE or DELETE), the user as [changed_by], a fresh
  [audit_id], and as [item_id] the id of the request, or for a POST
  the identifier the route generated. *)
Theorem audit_entry_names_request u rq w resp w' :
idle w → readable w → request_json rq →
handle u rq w = (Ok resp, w') → status resp = 200 ∨ status resp = 201 →
∃ e, inventory_audit (persisted w') = e :: inventory_audit (persisted w) ∧
     field "operation" e = VStr (operation_of rq) ∧
     field "changed_by" e = VStr u ∧
     field "audit_id" e
     = VStr (uuids w match rq with POST _ => 1 | _ => 0 end) ∧
     field "item_id" e
     = VStr match rq with POST _ => uuids w 0 | PATCH id _ | DELETE id => id end.
Proof.
intros [Hl (Hj & kvs & os & A & Hp & Hi & Ha)] Hr Hrq Hrun Hok.
rewrite Hp in Hj. rewrite (handle_run u rq w kvs os A) in Hrun by done.
rewrite Hp, (audit_well_formed kvs A Ha).
destruct rq as [req_body|id req_body|id]; cbn [outcome] in Hrun;
  rewrite (after_load_readable w Hr) in Hrun.
- destruct (negb _ || negb _); [injection Hrun as <- <-; by destruct Hok|].
  destruct (existsb _ os); injection Hrun as <- <-; [by destruct Hok|].
  eexists. rewrite persisted_written, inventory_audit_doc_with. by split_and!.
- cbv zeta in Hrun.
  destruct (collect_updates req_body) as [|kv updates] eqn:E;
    [injection Hrun as <- <-; by destruct Hok|]. cbv iota in Hrun.
  destruct (index_where _ os); injection Hrun as <- <-; [|by destruct Hok].
  eexists. rewrite persisted_written, inventory_audit_doc_with. by split_and!.
- cbv zeta in Hrun.
  destruct (index_where _ os); injection Hrun as <- <-; [|by destruct Hok].
  eexists. rewrite persisted_written, inventory_audit_doc_with. by split_and!.
Qed.
End more_routes.

(** ** Requests for an item that is not there, and on a damaged store *)



Lemma unlock_lock w : locked w = false → set_locked false (set_locked true w) = w.
Proof. destruct w as [f l u c]. cbn. by intros ->. Qed.

Section not_there.
Context `{Host}.


(** X26. On a store whose document has no array [inventory_items], a
  request that gets as far as the transaction raises: the store is
  left as it was, nothing is drawn from the clock or the identifiers,
  and the slot is free again. *)
Theorem damaged_store_fails_cleanly u rq fn w d :
locked w = false → files w !! DB_FILE = Some (Json d) →
(∀ xs, field "inventory_items" d ≠ VArr xs) →
transaction u rq = Some fn →
handle u rq w = (Throw, w).
Proof.
intros Hl Hd Hno Hfn.
assert (Hp : persisted w = d) by (by unfold persisted; rewrite Hd).
assert (Hr : readable w) by (intros raw; by rewrite Hd).
assert (Hthaw : thaw d = Database d []).
{ destruct d as [| |b|n|s|xs|kvs|l]; try done. unfold thaw. cbn [field] in Hno.
  destruct (get "inventory_items" kvs) as [| |b|n|s|xs|o|l]; try done.
  by destruct (Hno xs). }
assert (Hitems : prop [] d "inventory_items" ≫= as_array = None).
{ destruct d as [| |b|n|s|xs|kvs|l]; try done.
  cbn [prop mbind option_bind]. cbn [field] in Hno.
  destruct (get "inventory_items" kvs) as [| |b|n|s|xs|o|l]; try done.
  by destruct (Hno xs). }
assert (Hfail : ∀ w0, fn (Database d []) w0 = (Throw, w0)).
{ intros w0. destruct rq as [req_body|id req_body|id]; cbn [transaction] in Hfn.
  - destruct (negb _ || negb _); [done|]. injection Hfn as <-.
    unfold post_inventory_fn. cbn [store root]. rewrite Hitems. by mstep.
  - destruct (Nat.eqb _ 0); [done|]. injection Hfn as <-.
    unfold patch_inventory_fn, findItem. cbn [store root]. rewrite Hitems.
    cbn [mbind option_bind]. by mstep.
  - injection Hfn as <-.
    unfold delete_inventory_fn, findItem. cbn [store root]. rewrite Hitems.
    cbn [mbind option_bind]. by mstep. }
rewrite (handle_transaction u rq fn Hfn).
unfold mbind at 1, M_bind at 1.
rewrite (withDb_run fn w Hl), Hp, Hthaw, (after_load_readable w Hr), Hfail.
by rewrite unlock_lock.
Qed.
End not_there.

(** * The audit trail of one item *)

Lemma Array_filter_objects (h : heap) id A :
  Forall stamped A →
  Array_filter (λ a, i ← prop h a "item_id"; Some (strict_equals i (VStr id))) A
  = Some (filter (λ e, about id e = true) A).
Proof.
  induction 1 as [|e A (o & s & -> & _) _ IH]; [done|].
  cbn [Array_filter]. rewrite IH. cbn [prop mbind option_bind].
  rewrite filter_cons.
  destruct (strict_equals (get "item_id" o) (VStr id)) eqn:E.
  - rewrite decide_True; [done|]. unfold about. cbn [field]. exact E.
  - rewrite decide_False; [done|]. unfold about. cbn [field]. by rewrite E.
Qed.

Lemma Permutation_stamped xs ys : xs ≡ₚ ys → Forall stamped xs → Forall stamped ys.
Proof. intros Hp. by rewrite Hp. Qed.

Section audit_route.
Context `{Locale}.

(** [localeCompare] is a consistent comparator. *)
Hypothesis localeCompare_total :
∀ x y, (localeCompare x y ≤ 0)%Z ∨ (localeCompare y x ≤ 0)%Z.
Hypothesis localeCompare_trans :
∀ x y z, (localeCompare x y ≤ 0)%Z → (localeCompare y z ≤ 0)%Z →
         (localeCompare x z ≤ 0)%Z.

Lemma by_changed_at_objects h oa ob sa sb :
get "changed_at" oa = VStr sa → get "changed_at" ob = VStr sb →
by_changed_at h (VObj oa) (VObj ob) = Some (localeCompare sb sa).
Proof.
intros Ha Hb. unfold by_changed_at. cbn [prop mbind option_bind].
by rewrite Hb, Ha.
Qed.

Lemma newer_first_objects oa ob sa sb :
get "changed_at" oa = VStr sa → get "changed_at" ob = VStr sb →
newer_first (VObj oa) (VObj ob) ↔ (localeCompare sb sa ≤ 0)%Z.
Proof.
intros Ha Hb. split.
- intros (sa' & sb' & Ha' & Hb' & Hle). cbn [field] in *. congruence.
- intros Hle. by exists sa, sb.
Qed.

Lemma newer_first_trans a b c : newer_first a b → newer_first b c → newer_first a c.
Proof.
intros (sa & sb & Ha & Hb & Hab) (sb' & sc & Hb' & Hc & Hbc).
rewrite Hb in Hb'. injection Hb' as <-. exists sa, sc. split_and!; [done..|].
by apply (localeCompare_trans sc sb sa).
Qed.

Lemma insert_sorted_stamped h x xs :
stamped x → Forall stamped xs → StronglySorted newer_first xs →
∃ ys, insert_sorted (by_changed_at h) x xs = Some ys ∧
      ys ≡ₚ x :: xs ∧ StronglySorted newer_first ys ∧
      (Forall (newer_first x) xs → ys = x :: xs).
Proof.
intros (ox & sx & -> & Hox) Hxs Hsorted.
induction Hxs as [|y xs (oy & sy & -> & Hoy) Hxs IH]; cbn [insert_sorted].
- exists [VObj ox]. split_and!; try done. by repeat constructor.
- rewrite (by_changed_at_objects h ox oy sx sy Hox Hoy). cbn [mbind option_bind].
  apply StronglySorted_inv in Hsorted as [Hsorted Hall].
  pose proof (newer_first_objects ox oy sx sy Hox Hoy) as Hxy.
  pose proof (newer_first_objects oy ox sy sx Hoy Hox) as Hyx.
  destruct (Z.leb_spec (localeCompare sy sx) 0) as [Hc|Hc].
  + eexists. split_and!; try done. constructor; [by constructor|].
    constructor; [by apply Hxy|].
    eapply Forall_impl; [exact Hall|]. intros z Hz.
    apply (newer_first_trans _ (VObj oy) z); [by apply Hxy|done].
  + destruct (IH Hsorted) as (ys & -> & Hperm & Hys & Hsame).
    cbn [mbind option_bind]. eexists. split_and!; try done.
    * rewrite Hperm. apply perm_swap.
    * constructor; [done|]. rewrite Hperm. constructor; [|done].
      apply Hyx. destruct (localeCompare_total sx sy); [done|lia].
    * intros [Hfirst _]%Forall_cons. apply Hxy in Hfirst. lia.
Qed.

Lemma Array_sort_stamped h xs :
Forall stamped xs →
∃ ys, Array_sort (by_changed_at h) xs = Some ys ∧
      ys ≡ₚ xs ∧ StronglySorted newer_first ys ∧
      (StronglySorted newer_first xs → ys = xs).
Proof.
induction 1 as [|x xs Hx Hxs (ys & Hys & Hperm & Hsorted & Hsame)]; cbn [Array_sort].
- exists []. split_and!; try done. constructor.
- rewrite Hys. cbn [mbind option_bind].
  destruct (insert_sorted_stamped h x ys Hx) as (zs & Hzs & Hperm' & Hsorted' & Hsame');
    [by eapply Permutation_stamped|done|].
  exists zs. split_and!; try done.
  + by rewrite Hperm', Hperm.
  + intros [Hxs' Hfirst]%StronglySorted_inv.
    rewrite (Hsame Hxs') in *. by apply Hsame'.
Qed.

(** X24. On a well-formed store whose audit entries all have a string
  [changed_at], and with a [localeCompare] that is a consistent
  comparator, the audit route of an item answers 200 with exactly the
  entries of the trail whose [item_id] is the id, each once, arranged
  so that no entry comes before one with a later [changed_at]; where
  the trail has them in that order already, they come in the order of
  the trail.  It does not wait for the slot. *)
Theorem get_inventory_item_audit_sorts id w :
well_formed (persisted w) →
Forall stamped (inventory_audit (persisted w)) →
let entries := filter (λ e, about id e = true) (inventory_audit (persisted w)) in
∃ ys, get_inventory_item_audit id w = (Ok (Response 200 (VArr ys)), after_load w) ∧
      ys ≡ₚ entries ∧
      StronglySorted newer_first ys ∧
      (StronglySorted newer_first entries → ys = entries).
Proof.
intros (Hj & kvs & os & A & Hp & Hi & Ha) Hst. rewrite Hp in *.
rewrite (audit_well_formed kvs A Ha) in *. cbv zeta.
assert (Hentries : Forall stamped (filter (λ e, about id e = true) A)).
{ apply Forall_forall. intros e [_ He]%list_elem_of_filter.
  rewrite Forall_forall in Hst. by apply Hst. }
destruct (Array_sort_stamped os _ Hentries) as (ys & Hys & Hperm & Hsorted & Hsame).
exists ys. split_and!; try done.
unfold get_inventory_item_audit.
rewrite bind_loadDb, Hp, (thaw_well_formed kvs os Hi).
cbn [root store prop]. rewrite get_set_ne, Ha by done.
cbn [mbind option_bind as_array]. mstep.
rewrite (Array_filter_objects os id A Hst). mstep. rewrite Hys. mstep.
unfold res_json. cbn [status body]. rewrite JSON_roundtrip_json; [done|].
apply is_json_arr. rewrite Hperm. apply Forall_forall.
intros e [_ He]%list_elem_of_filter.
pose proof (is_json_audit kvs A Hj Ha) as HA. rewrite Forall_forall in HA.
by apply HA.
Qed.
End audit_route.

(** * Examples for the routes around the store *)

Lemma readable_written w : files w !! DB_FILE = None → readable w.
Proof. intros Hn raw. by rewrite Hn. Qed.

Lemma stocked_world_readable : readable stocked_world.
Proof. intros raw. vm_compute. discriminate. Qed.

Lemma cleared_world_readable : readable cleared_world.
Proof. intros raw. vm_compute. discriminate. Qed.

Lemma fresh_world_readable : readable fresh_world.
Proof. intros raw. vm_compute. discriminate. Qed.

Lemma first_call_keeps_lock : keeps_lock first_call.
Proof. by apply (@transaction_keeps_lock sample_host admin (DELETE "uuid-0")). Qed.

Lemma second_call_keeps_lock : keeps_lock second_call.
Proof. by apply (@transaction_keeps_lock sample_host admin (POST widget)). Qed.

Lemma in_flight_reachable : rtc step (System fresh_world []) in_flight.
Proof.
  eapply rtc_l; [apply (step_arrive _ first_call), first_call_keeps_lock|].
  eapply rtc_l; [by apply (step_test _ 0 first_call)|].
  eapply rtc_l; [apply (step_arrive _ second_call), second_call_keeps_lock|].
  eapply rtc_l; [by apply (step_test _ 1 second_call)|].
  apply rtc_refl.
Qed.

Lemma settled_reachable : rtc step (System fresh_world []) settled.
Proof.
  eapply rtc_r; [apply in_flight_reachable|].
  by apply (step_resume in_flight 0 first_call not_found (thaw empty_document)).
Qed.

(** A header of another scheme. *)
Lemma requireAuth_refuses_witness :
  if bool_decide (Some "Basic s3cret" = None ∨ Some "Basic s3cret" = Some "")
  then forbidden = no_auth else forbidden = forbidden.
Proof.
  exact (requireAuth_refuses (VStr "s3cret") (Some "Basic s3cret") forbidden eq_refl).
Defined.

(** A server started on nothing. *)
Lemma ADMIN_TOKEN_falls_back_witness :
  ADMIN_TOKEN None fresh_world = (Ok (VStr "dev-token"), after_load fresh_world) ∧
  ∀ handler, guarded (VStr "dev-token") (Some "Bearer dev-token") handler = handler admin.
Proof.
  apply ADMIN_TOKEN_falls_back; [by left|]. left. reflexivity.
Defined.

(** The store with the widget soft-deleted. *)
Lemma get_inventory_lists_witness :
  get_inventory VUndefined cleared_world =
    (Ok (Response 200
           (VArr (VObj <$> (if strict_equals VUndefined (VStr "true")
                            then items (persisted cleared_world)
                            else filter (λ o, active o = true)
                                   (items (persisted cleared_world)))))),
     after_load cleared_world) ∧
  (readable cleared_world → after_load cleared_world = cleared_world).
Proof.
  apply get_inventory_lists. exact (proj2 cleared_world_idle).
Defined.

Lemma get_inventory_item_finds_witness :
  get_inventory_item "uuid-0" cleared_world =
    (Ok (match index_where (has_id "uuid-0") (items (persisted cleared_world)) with
         | Some i => Response 200 (VObj (default [] (items (persisted cleared_world) !! i)))
         | None => not_found
         end), after_load cleared_world) ∧
  (readable cleared_world → after_load cleared_world = cleared_world).
Proof.
  apply get_inventory_item_finds. exact (proj2 cleared_world_idle).
Defined.

(** A body without a SKU, while the slot is taken and the store is
    unreadable. *)
Lemma post_requires_sku_and_name_witness :
  @handle sample_host admin (POST [("product_name", VStr "Widget")]) stuck_world
  = (Ok validation, stuck_world).
Proof.
  apply (proj1 (@post_requires_sku_and_name sample_host admin
                  [("product_name", VStr "Widget")] stuck_world)).
  left. reflexivity.
Defined.

(** The widget, created on the fresh store and read back. *)
Lemma post_then_get_witness :
  get_inventory_item "uuid-0" stocked_world
  = (Ok (Response 200 (VObj stored_widget)), stocked_world).
Proof.
  apply (@post_then_get sample_host admin widget fresh_world stored_widget
           stocked_world "uuid-0").
  - exact fresh_world_idle.
  - reflexivity.
  - vm_compute. reflexivity.
  - reflexivity.
  - constructor.
Defined.

(** The widget, soft-deleted. *)
Lemma deleted_item_is_hidden_witness :
  ∃ o, get_inventory_item "uuid-0" cleared_world
       = (Ok (Response 200 (VObj o)), cleared_world) ∧
       active o = false ∧
       ∀ q, ∃ ys, get_inventory q cleared_world
                  = (Ok (Response 200 (VArr ys)), cleared_world) ∧
                  (VObj o ∈ ys ↔ strict_equals q (VStr "true") = true).
Proof.
  apply (@deleted_item_is_hidden sample_host sample_host_nonempty admin "uuid-0"
           stocked_world (Response 200 (VObj [("ok", VBool true)])) cleared_world).
  - exact stocked_world_idle.
  - vm_compute. reflexivity.
  - reflexivity.
Defined.

Lemma patch_writes_allowed_fields_witness :
  ∃ i before o,
    index_where (has_id "uuid-0") (items (persisted stocked_world)) = Some i ∧
    items (persisted stocked_world) !! i = Some before ∧
    items (persisted patched_world) = <[i := o]> (items (persisted stocked_world)) ∧
    Response 200 (VObj patched_widget) = Response 200 (VObj o) ∧
    get "updated_at" o
    = VStr (@toISOString sample_host (clock (after_load stocked_world) 0)) ∧
    get "updated_by" o = VStr admin ∧
    ∀ k, k ≠ "updated_at" → k ≠ "updated_by" →
      get k o = if bool_decide (k ∈ allowed) && has k [("quantity", VNum 5)]
                then as_stored (@coerce sample_host k (get k [("quantity", VNum 5)]))
                else get k before.
Proof.
  apply (@patch_writes_allowed_fields sample_host admin "uuid-0" [("quantity", VNum 5)]
           stocked_world (Response 200 (VObj patched_widget)) patched_world).
  - exact stocked_world_idle.
  - reflexivity.
  - vm_compute. reflexivity.
  - reflexivity.
Defined.

Lemma patch_stores_numbers_witness :
  ∃ i o,
    index_where (has_id "uuid-0") (items (persisted stocked_world)) = Some i ∧
    items (persisted mispatched_world) !! i = Some o ∧
    (get "quantity" o = VNull ∨ ∃ n, get "quantity" o = VNum n ∧ finite n).
Proof.
  apply (@patch_stores_numbers sample_host admin "uuid-0" [("quantity", VStr "many")]
           stocked_world (Response 200 (VObj mispatched_widget)) mispatched_world).
  - exact stocked_world_idle.
  - reflexivity.
  - by left.
  - reflexivity.
  - vm_compute. reflexivity.
  - reflexivity.
Defined.

Lemma items_keep_their_place_witness :
  ∃ o', items (persisted (@serve sample_host admin
                            [PATCH "uuid-0" [("quantity", VNum 5)]; DELETE "uuid-0"]
                            stocked_world)) !! 0 = Some o' ∧
        ∀ k, immutable k → get k o' = get k stored_widget.
Proof.
  apply (@items_keep_their_place sample_host).
  - exact stocked_world_idle.
  - repeat constructor.
  - vm_compute. reflexivity.
Defined.

(** Why the SKU must be no infinity: such a body passes validation, is
    stored with the SKU [null], and is accepted a second time; the store
    then holds two items that are not soft-deleted, with the same SKU. *)
Lemma infinite_sku_is_stored_twice :
  request_parsed (POST overflowing) ∧
  ¬ unique_active_skus
      (items (persisted (@serve sample_host admin
                           [POST overflowing; POST overflowing] fresh_world))).
Proof.
  split; [reflexivity|]. intros Huniq.
  assert (Hitems : ∃ o1 o2,
    items (persisted (@serve sample_host admin
                        [POST overflowing; POST overflowing] fresh_world)) = [o1; o2] ∧
    active o1 = true ∧ active o2 = true ∧
    strict_equals (get "sku" o1) (get "sku" o2) = true).
  { eexists _, _. split_and!; vm_compute; reflexivity. }
  destruct Hitems as (o1 & o2 & Hitems & Ha1 & Ha2 & Hsame).
  rewrite Hitems in Huniq.
  by rewrite (Huniq 0 1 o1 o2) in Hsame by (done || lia).
Qed.

Lemma active_skus_stay_unique_witness :
  unique_active_skus
    (items (persisted (@serve sample_host admin sample_requests fresh_world))).
Proof.
  apply (@active_skus_stay_unique sample_host sample_host_nonempty).
  - exact fresh_world_idle.
  - exact sample_requests_parsed.
  - repeat apply Forall_cons_2; [by intros n [=]..|exact I|exact I|apply Forall_nil_2].
  - intros i j o1 o2 _ Ho1. vm_compute in Ho1. discriminate Ho1.
Defined.

Lemma fresh_world_set_up_ready : set_up_ready (persisted fresh_world).
Proof.
  split; [reflexivity|].
  exists [("users", VArr []); ("inventory_items", VArr []);
          ("inventory_audit", VArr []); ("app_meta", VObj [])], [].
  split_and!; [reflexivity..|]. right. by eexists.
Qed.

Lemma init_db_token_reaches_server_witness :
  ∃ token w',
    @init_db sample_host None fresh_world = (Ok token, w') ∧
    (∀ s, None = Some s → s ≠ "" → token = s) ∧
    ADMIN_TOKEN None w' = (Ok (VStr token), w') ∧
    inventory_items (persisted w') = inventory_items (persisted fresh_world) ∧
    inventory_audit (persisted w') = inventory_audit (persisted fresh_world).
Proof.
  apply (@init_db_token_reaches_server sample_host).
  - exact fresh_world_readable.
  - exact fresh_world_set_up_ready.
  - intros n. cbn [uuids fresh_world]. discriminate.
Defined.

Lemma init_db_seeds_admin_once_witness :
  let w1 := (@init_db sample_host None fresh_world).2 in
  let w2 := (@init_db sample_host (Some "s3cret") w1).2 in
  (∃ us us1, users (persisted fresh_world) = VObj <$> us ∧
     users (persisted w1) = VObj <$> us1 ∧
     existsb named_admin us1 = true ∧
     us1 = if existsb named_admin us then us
           else us ++ [admin_fields (uuids fresh_world 0)
                         (@toISOString sample_host (clock fresh_world 0))]) ∧
  users (persisted w2) = users (persisted w1).
Proof.
  apply (@init_db_seeds_admin_once sample_host).
  - exact fresh_world_readable.
  - exact fresh_world_set_up_ready.
Defined.

Lemma init_db_on_unreadable_store_witness :
  ∃ token w',
    @init_db sample_host None stuck_world = (Ok token, w') ∧
    files w' !! (DB_FILE +:+ ".bak." +:+ pretty (clock stuck_world 0))
    = Some (Garbage "{") ∧
    persisted w' =
      VObj [("users", VArr [admin_user (uuids stuck_world 0)
                              (@toISOString sample_host (clock stuck_world 1))]);
            ("inventory_items", VArr []); ("inventory_audit", VArr []);
            ("app_meta", VObj [("ADMIN_TOKEN", VStr token)])].
Proof.
  apply (@init_db_on_unreadable_store sample_host). reflexivity.
Defined.

Lemma init_db_needs_users_witness :
  @init_db sample_host None bare_world = (Throw, bare_world).
Proof.
  apply (@init_db_needs_users sample_host).
  - intros raw. vm_compute. discriminate.
  - intros xs. vm_compute. discriminate.
Defined.

Lemma saveDb_then_loadDb_witness :
  (saveDb (thaw (persisted stocked_world)) ≫= (λ _, loadDb)) fresh_world
  = (Ok (thaw (persisted stocked_world)),
     set_files (<[DB_FILE := Json (persisted stocked_world)]> (files fresh_world))
       fresh_world).
Proof.
  apply saveDb_then_loadDb. exact (proj2 stocked_world_idle).
Defined.

(** The odd widget on the fresh store: it is stored with its SKU and
    name, with the price [null], without a field [__proto__], and not
    soft-deleted. *)
Lemma post_stores_body_and_generated_witness :
  ∃ item w',
    @handle sample_host admin (POST odd_widget) fresh_world
    = (Ok (Response 201 (VObj item)), w') ∧
    items (persisted w') = [item] ∧
    get "sku" item = VStr "A1" ∧ get "product_name" item = VStr "Widget" ∧
    get "price" item = VNull ∧ get "__proto__" item = VUndefined ∧
    get "item_id" item = VStr "uuid-0" ∧ get "deleted_at" item = VNull.
Proof.
  destruct (@post_stores_body_and_generated sample_host admin odd_widget fresh_world)
    as (item & w' & Hrun & Hitems & Hget & Hsame).
  - exact fresh_world_idle.
  - exact fresh_world_readable.
  - reflexivity.
  - reflexivity.
  - reflexivity.
  - reflexivity.
  - exists item, w'. split; [exact Hrun|]. split; [exact Hitems|].
    split; [by apply Hsame|]. split; [by apply Hsame|].
    rewrite !Hget. split_and!; reflexivity.
Defined.

Lemma delete_marks_item_witness :
  ∃ i before o,
    index_where (has_id "uuid-0") (items (persisted stocked_world)) = Some i ∧
    items (persisted stocked_world) !! i = Some before ∧
    items (persisted cleared_world) = <[i := o]> (items (persisted stocked_world)) ∧
    get "deleted_at" o = VStr (@toISOString sample_host (clock stocked_world 0)) ∧
    get "updated_at" o = VStr (@toISOString sample_host (clock stocked_world 0)) ∧
    get "updated_by" o = VStr admin ∧
    ∀ k, k ≠ "deleted_at" → k ≠ "updated_at" → k ≠ "updated_by" →
         get k o = get k before.
Proof.
  apply (@delete_marks_item sample_host admin "uuid-0" stocked_world
           (Response 200 (VObj [("ok", VBool true)])) cleared_world).
  - exact stocked_world_idle.
  - exact stocked_world_readable.
  - vm_compute. reflexivity.
  - reflexivity.
Defined.

Lemma audit_entry_names_request_witness :
  ∃ e, inventory_audit (persisted cleared_world)
       = e :: inventory_audit (persisted stocked_world) ∧
       field "operation" e = VStr "DELETE" ∧
       field "changed_by" e = VStr admin ∧
       field "audit_id" e = VStr (uuids stocked_world 0) ∧
       field "item_id" e = VStr "uuid-0".
Proof.
  apply (@audit_entry_names_request sample_host admin (DELETE "uuid-0") stocked_world
           (Response 200 (VObj [("ok", VBool true)])) cleared_world).
  - exact stocked_world_idle.
  - exact stocked_world_readable.
  - exact I.
  - vm_compute. reflexivity.
  - by left.
Defined.

(** The two calls in flight: only the first one is in the slot. *)
Lemma withDb_mutual_exclusion_witness : 0 = 0.
Proof.
  apply (withDb_mutual_exclusion fresh_world in_flight 0 0
           (Call first_call (enter first_call fresh_world).1)
           (Call first_call (enter first_call fresh_world).1)).
  - reflexivity.
  - exact in_flight_reachable.
  - reflexivity.
  - reflexivity.
  - reflexivity.
  - reflexivity.
Defined.

Lemma slot_taken_iff_held_witness :
  locked (env in_flight) = true ↔
  ∃ i c, calls in_flight !! i = Some c ∧ in_slot c = true.
Proof.
  apply (slot_taken_iff_held fresh_world in_flight).
  - reflexivity.
  - exact in_flight_reachable.
Defined.

Lemma withDb_calls_are_serial_witness :
  ∃ fns, fns ≡ₚ done_by settled ∧ env settled = run_alone fns fresh_world.
Proof.
  apply (withDb_calls_are_serial fresh_world settled).
  - reflexivity.
  - exact settled_reachable.
  - reflexivity.
Defined.

Lemma String_compare_le_trans x y z :
  String.compare x y ≠ Gt → String.compare y z ≠ Gt → String.compare x z ≠ Gt.
Proof.
  revert y z. induction x as [|a x IH]; intros [|b y] [|c z]; cbn [String.compare]; try done.
  unfold Ascii.compare.
  destruct (N.compare_spec (Ascii.N_of_ascii a) (Ascii.N_of_ascii b)) as [Hab|Hab|Hab];
    destruct (N.compare_spec (Ascii.N_of_ascii b) (Ascii.N_of_ascii c)) as [Hbc|Hbc|Hbc];
    destruct (N.compare_spec (Ascii.N_of_ascii a) (Ascii.N_of_ascii c)) as [Hac|Hac|Hac];
    try done; try lia.
  apply IH.
Qed.

Lemma sample_locale_total x y :
  (@localeCompare sample_locale x y ≤ 0)%Z ∨ (@localeCompare sample_locale y x ≤ 0)%Z.
Proof.
  cbn [localeCompare sample_locale]. rewrite (String.compare_antisym x y).
  destruct (String.compare y x); cbn [CompOpp]; lia.
Qed.

Lemma sample_locale_trans x y z :
  (@localeCompare sample_locale x y ≤ 0)%Z → (@localeCompare sample_locale y z ≤ 0)%Z →
  (@localeCompare sample_locale x z ≤ 0)%Z.
Proof.
  cbn [localeCompare sample_locale]. intros Hxy Hyz.
  pose proof (String_compare_le_trans x y z) as Htrans.
  destruct (String.compare x y); try lia;
    destruct (String.compare y z); try lia;
    destruct (String.compare x z); try lia; by destruct Htrans.
Qed.

Lemma cleared_world_stamped : Forall stamped (inventory_audit (persisted cleared_world)).
Proof. vm_compute. repeat (constructor; [by eexists _, _|]). constructor. Qed.

(** The trail of the widget, created and then soft-deleted. *)
Lemma get_inventory_item_audit_sorts_witness :
  let entries := filter (λ e, about "uuid-0" e = true)
                   (inventory_audit (persisted cleared_world)) in
  ∃ ys, @get_inventory_item_audit sample_locale "uuid-0" cleared_world
        = (Ok (Response 200 (VArr ys)), after_load cleared_world) ∧
        ys ≡ₚ entries ∧
        StronglySorted (@newer_first sample_locale) ys ∧
        (StronglySorted (@newer_first sample_locale) entries → ys = entries).
Proof.
  apply (@get_inventory_item_audit_sorts sample_locale sample_locale_total
           sample_locale_trans).
  - exact (proj2 cleared_world_idle).
  - exact cleared_world_stamped.
Defined.


(** The POST of the widget on the store whose document is the empty
    object. *)
Lemma damaged_store_fails_cleanly_witness :
  @handle sample_host admin (POST widget) bare_world = (Throw, bare_world).
Proof.
  apply (@damaged_store_fails_cleanly sample_host admin (POST widget)
           (@post_inventory_fn sample_host admin widget (get "sku" widget))
           bare_world (VObj [])).
  - reflexivity.
  - reflexivity.
  - intros xs. discriminate.
  - reflexivity.
Defined.
